(** * Drone delivery: shallow embedding of the simulation and decision loop

    The development follows the Python sources module by module:
    [Config] (utils/config.py), [Drone] (environment/drone.py),
    [WeatherSystem] (environment/weather.py), [CityObstacles]
    (environment/obstacles.py), [CityEnvironment] (environment/city.py),
    [LogicEngine] (ai/logic_engine.py), [QLearningAgent] (ai/q_learning.py)
    and [HybridController] (ai/hybrid_controller.py).

    Python floats are modelled by exact rationals [Q]; Python ints by [Z];
    action tokens and crash reasons stay strings, as in the code. *)

From Stdlib Require Import ZArith QArith Qround Qabs Lqa Lia List String Bool.
From Stdlib Require Import Sorted Permutation.
From stdpp Require Import base option gmap strings list.
Import ListNotations.

(** Python's two-argument [max] and [min] keep the first argument unless
    the second one is strictly larger (resp. smaller). *)
Definition py_max (a b : Q) : Q := if Qle_bool b a then a else b.
Definition py_min (a b : Q) : Q := if Qle_bool a b then a else b.

Definition Qlt_bool (a b : Q) : bool := negb (Qle_bool b a).

(** ** utils/config.py *)
Module Config.
Definition GRID_SIZE : Z := 50.
Definition CELL_SIZE : Z := 100.
Definition MAX_ALTITUDE : Z := 12.
Definition ALTITUDE_STEP : Z := 20.
Definition MAX_BUILDING_HEIGHT : Z := 8.

Definition MAX_SPEED : Q := 60.
Definition BATTERY_CAPACITY : Q := 5000.
Definition ENERGY_PER_KM : Q := 50.
Definition ENERGY_PER_ALTITUDE : Q := 10.
Definition HOVER_ENERGY : Q := 5.
Definition CHARGING_RATE : Q := 500.

Definition MAX_STEPS_PER_EPISODE : Z := 1000.
Definition ACTIONS : list string :=
  ["MOVE_NORTH"; "MOVE_SOUTH"; "MOVE_EAST"; "MOVE_WEST";
   "MOVE_UP"; "MOVE_DOWN"; "HOVER"; "CHARGE"]%string.

Definition REWARD_DELIVERY_SUCCESS : Q := 1000.
Definition REWARD_FAST_DELIVERY_BONUS : Q := 100.
Definition REWARD_BATTERY_EFFICIENT : Q := 50.
Definition REWARD_COLLISION : Q := -500.
Definition REWARD_BATTERY_DEPLETED : Q := -300.
Definition REWARD_NO_FLY_INTERCEPTION : Q := -800.
Definition REWARD_STORM_CRASH : Q := -600.
Definition REWARD_PAYLOAD_SPOILED : Q := -400.
Definition REWARD_TIME_PENALTY : Q := -1.
Definition REWARD_CHARGING : Q := -50.

Definition MAX_WIND_SPEED : Q := 40.
Definition STORM_DAMAGE_THRESHOLD : Z := 2.
Definition EXTREME_WIND_SPEED : Q := 50.
Definition PAYLOAD_MAX_TIME : Q := 1800.
Definition PAYLOAD_SPOILAGE_WARNING : Q := 1200.

Definition MIN_BATTERY_EMERGENCY : Q := 5.
Definition MIN_BATTERY_RETURN : Q := 20.
Definition SAFETY_MAX_ALTITUDE_M : Z := 200.
Definition SAFETY_MIN_ALTITUDE_M : Z := 10.

Definition LEARNING_RATE : Q := 1 # 10.
Definition DISCOUNT_FACTOR : Q := 95 # 100.
Definition EPSILON_START : Q := 1.
Definition EPSILON_END : Q := 1 # 100.
Definition EPSILON_DECAY : Q := 995 # 1000.
End Config.

(** ** environment/drone.py *)
Module Drone.
Import Config.
Local Open Scope Q_scope.

Inductive PayloadCondition := PayloadNone | Fresh | Warning | Spoiled.

(** The attributes of a [Drone] object.  [heading] and [total_distance]
    (computed with [arctan2] and [sqrt] of the wind-shifted delta, and read
    only by telemetry) are left out. *)
Record t := mk {
  start_position : Z * Z * Z;
  position : Q * Q * Z;
  battery : Q;
  cargo : option string;
  has_package : bool;
  payload_locked : bool;
  payload_condition : PayloadCondition;
  time_since_pickup : Q;
  speed : Q;
  is_charging : bool;
  is_crashed : bool;
  crash_reason : option string;
  flight_time : Z;
  steps_in_storm : Z;
  pickup_location : option (Z * Z)
}.

Definition inject_position (p : Z * Z * Z) : Q * Q * Z :=
  let '(x, y, z) := p in (inject_Z x, inject_Z y, z).

(** [Drone.__init__] followed by [reset]. *)
Definition reset (d : t) : t :=
  {| start_position := start_position d;
     position := inject_position (start_position d);
     battery := 100;
     cargo := None;
     has_package := false;
     payload_locked := false;
     payload_condition := PayloadNone;
     time_since_pickup := 0;
     speed := 0;
     is_charging := false;
     is_crashed := false;
     crash_reason := None;
     flight_time := 0%Z;
     steps_in_storm := 0%Z;
     pickup_location := pickup_location d |}.

Definition init (start : Z * Z * Z) : t :=
  reset {| start_position := start;
           position := inject_position start;
           battery := 100; cargo := None; has_package := false;
           payload_locked := false; payload_condition := PayloadNone;
           time_since_pickup := 0; speed := 0; is_charging := false;
           is_crashed := false; crash_reason := None;
           flight_time := 0%Z; steps_in_storm := 0%Z;
           pickup_location := None |}.

(** Attribute assignments. *)
Definition set_position (p : Q * Q * Z) (d : t) : t :=
  mk (start_position d) p (battery d) (cargo d) (has_package d)
     (payload_locked d) (payload_condition d) (time_since_pickup d)
     (speed d) (is_charging d) (is_crashed d) (crash_reason d)
     (flight_time d) (steps_in_storm d) (pickup_location d).
Definition set_battery (b : Q) (d : t) : t :=
  mk (start_position d) (position d) b (cargo d) (has_package d)
     (payload_locked d) (payload_condition d) (time_since_pickup d)
     (speed d) (is_charging d) (is_crashed d) (crash_reason d)
     (flight_time d) (steps_in_storm d) (pickup_location d).
Definition set_cargo (c : option string) (hp locked : bool) (d : t) : t :=
  mk (start_position d) (position d) (battery d) c hp
     locked (payload_condition d) (time_since_pickup d)
     (speed d) (is_charging d) (is_crashed d) (crash_reason d)
     (flight_time d) (steps_in_storm d) (pickup_location d).
Definition set_payload (c : PayloadCondition) (elapsed : Q) (d : t) : t :=
  mk (start_position d) (position d) (battery d) (cargo d) (has_package d)
     (payload_locked d) c elapsed
     (speed d) (is_charging d) (is_crashed d) (crash_reason d)
     (flight_time d) (steps_in_storm d) (pickup_location d).
Definition set_speed (s : Q) (d : t) : t :=
  mk (start_position d) (position d) (battery d) (cargo d) (has_package d)
     (payload_locked d) (payload_condition d) (time_since_pickup d)
     s (is_charging d) (is_crashed d) (crash_reason d)
     (flight_time d) (steps_in_storm d) (pickup_location d).
Definition set_is_charging (c : bool) (d : t) : t :=
  mk (start_position d) (position d) (battery d) (cargo d) (has_package d)
     (payload_locked d) (payload_condition d) (time_since_pickup d)
     (speed d) c (is_crashed d) (crash_reason d)
     (flight_time d) (steps_in_storm d) (pickup_location d).
Definition set_crashed (reason : string) (d : t) : t :=
  mk (start_position d) (position d) (battery d) (cargo d) (has_package d)
     (payload_locked d) (payload_condition d) (time_since_pickup d)
     (speed d) (is_charging d) true (Some reason)
     (flight_time d) (steps_in_storm d) (pickup_location d).
Definition set_flight_time (n : Z) (d : t) : t :=
  mk (start_position d) (position d) (battery d) (cargo d) (has_package d)
     (payload_locked d) (payload_condition d) (time_since_pickup d)
     (speed d) (is_charging d) (is_crashed d) (crash_reason d)
     n (steps_in_storm d) (pickup_location d).
Definition set_steps_in_storm (n : Z) (d : t) : t :=
  mk (start_position d) (position d) (battery d) (cargo d) (has_package d)
     (payload_locked d) (payload_condition d) (time_since_pickup d)
     (speed d) (is_charging d) (is_crashed d) (crash_reason d)
     (flight_time d) n (pickup_location d).
Definition set_pickup_location (l : Z * Z) (d : t) : t :=
  mk (start_position d) (position d) (battery d) (cargo d) (has_package d)
     (payload_locked d) (payload_condition d) (time_since_pickup d)
     (speed d) (is_charging d) (is_crashed d) (crash_reason d)
     (flight_time d) (steps_in_storm d) (Some l).

(** [_calculate_movement_energy(dx, dy)].  The only call sites pass
    [(1, 0)], where the square root is exact, so the Euclidean norm is
    taken with the integer square root. *)
Definition _calculate_movement_energy (d : t) (dx dy : Z) : Q :=
  let distance :=
    inject_Z (Z.sqrt (dx * dx + dy * dy)) * (inject_Z CELL_SIZE / 1000) in
  let energy := distance * ENERGY_PER_KM in
  if has_package d then energy * (12 # 10) else energy.

(** [_charge()]. *)
Definition _charge (d : t) : bool * t :=
  if Qle_bool 100 (battery d) then (false, d)
  else
    let d1 := set_is_charging true d in
    let d2 :=
      set_battery
        (py_min 100 (battery d1 + (CHARGING_RATE / BATTERY_CAPACITY) * 100))
        d1 in
    let d3 := set_speed 0 d2 in
    if Qle_bool 100 (battery d3)
    then (true, set_is_charging false d3)
    else (true, d3).

(** The [if]/[elif] chain of [move]: the intended delta and energy cost
    of an action, or [None] for the CHARGE branch, which returns
    [self._charge()].  A token matching no branch keeps the defaults set
    before the chain. *)
Definition movement (d : t) (action : string) : option (Z * Z * Z * Q) :=
  if String.eqb action "MOVE_NORTH" then
    Some (0%Z, (-1)%Z, 0%Z, _calculate_movement_energy d 1 0)
  else if String.eqb action "MOVE_SOUTH" then
    Some (0%Z, 1%Z, 0%Z, _calculate_movement_energy d 1 0)
  else if String.eqb action "MOVE_EAST" then
    Some (1%Z, 0%Z, 0%Z, _calculate_movement_energy d 1 0)
  else if String.eqb action "MOVE_WEST" then
    Some ((-1)%Z, 0%Z, 0%Z, _calculate_movement_energy d 1 0)
  else if String.eqb action "MOVE_UP" then
    Some (0%Z, 0%Z, 1%Z, ENERGY_PER_ALTITUDE)
  else if String.eqb action "MOVE_DOWN" then
    Some (0%Z, 0%Z, (-1)%Z, ENERGY_PER_ALTITUDE * (1 # 2))
  else if String.eqb action "HOVER" then
    Some (0%Z, 0%Z, 0%Z, HOVER_ENERGY)
  else if String.eqb action "CHARGE" then None
  else Some (0%Z, 0%Z, 0%Z, HOVER_ENERGY).

(** [move(action, wind_effect)]: the success flag and the new state. *)
Definition move (d : t) (action : string) (wind_effect : Q * Q) : bool * t :=
  if is_crashed d || is_charging d then (false, d)
  else if Qle_bool (battery d) 0
  then (false, set_crashed "battery_depleted" d)
  else
    match movement d action with
    | None => _charge d
    | Some (dx0, dy0, dz, energy_cost) =>
      let dx := inject_Z dx0 + fst wind_effect in
      let dy := inject_Z dy0 + snd wind_effect in
      let '(px, py, pz) := position d in
      let new_x := py_max 0 (py_min (inject_Z (GRID_SIZE - 1)) (px + dx)) in
      let new_y := py_max 0 (py_min (inject_Z (GRID_SIZE - 1)) (py + dy)) in
      let new_z := Z.max 0 (Z.min (MAX_ALTITUDE - 1) (pz + dz)) in
      let d1 := set_position (new_x, new_y, new_z) d in
      let d2 :=
        set_battery (battery d1 - (energy_cost / BATTERY_CAPACITY) * 100) d1 in
      let d3 := set_battery (py_max 0 (battery d2)) d2 in
      let d4 :=
        if negb (Qeq_bool dx 0) || negb (Qeq_bool dy 0)
        then set_speed MAX_SPEED d3 else set_speed 0 d3 in
      (true, set_flight_time (flight_time d4 + 1) d4)
    end.

(** [update_payload_condition(time_step)]. *)
Definition update_payload_condition (d : t) (time_step : Q) : t :=
  if negb (has_package d) then d
  else
    let elapsed := time_since_pickup d + time_step in
    if Qle_bool PAYLOAD_MAX_TIME elapsed then set_payload Spoiled elapsed d
    else if Qle_bool PAYLOAD_SPOILAGE_WARNING elapsed
         then set_payload Warning elapsed d
    else set_payload Fresh elapsed d.

Definition is_payload_spoiled (d : t) : bool :=
  match payload_condition d with Spoiled => true | _ => false end.

(** [crash(reason)]. *)
Definition crash (d : t) (reason : string) : t :=
  set_speed 0 (set_crashed reason d).

(** [pickup_cargo(cargo_type, pickup_location)]. *)
Definition pickup_cargo (d : t) (cargo_type : string) (loc : Z * Z)
  : bool * t :=
  if has_package d then (false, d)
  else
    let d1 := set_cargo (Some cargo_type) true true d in
    let d2 := set_pickup_location loc d1 in
    (true, set_payload Fresh 0 d2).

(** [deliver_cargo(delivery_location)]: the delivered cargo, if any. *)
Definition deliver_cargo (d : t) (loc : Z * Z) : option string * t :=
  if negb (has_package d) then (None, d)
  else (cargo d, set_cargo None false false d).

(** The operations a caller can apply to a vehicle.  [OpStorm] is the
    direct write to [steps_in_storm] done by the environment. *)
Inductive op :=
| OpReset
| OpMove (action : string) (wind_effect : Q * Q)
| OpUpdatePayload (time_step : Q)
| OpCrash (reason : string)
| OpPickup (cargo_type : string) (loc : Z * Z)
| OpDeliver (loc : Z * Z)
| OpStorm (n : Z).

Definition run_op (d : t) (o : op) : t :=
  match o with
  | OpReset => reset d
  | OpMove a w => snd (move d a w)
  | OpUpdatePayload dt => update_payload_condition d dt
  | OpCrash r => crash d r
  | OpPickup c l => snd (pickup_cargo d c l)
  | OpDeliver l => snd (deliver_cargo d l)
  | OpStorm n => set_steps_in_storm n d
  end.

Definition run_ops (d : t) (os : list op) : t := fold_left run_op os d.

Definition is_reset (o : op) : bool :=
  match o with OpReset => true | _ => false end.

(** States reachable from a freshly constructed vehicle. *)
Inductive reachable : t -> Prop :=
| reach_init start : reachable (init start)
| reach_op d o : reachable d -> reachable (run_op d o).

(** Energy charged for one action, as a percentage of the capacity. *)
Definition percent (energy_cost : Q) : Q :=
  (energy_cost / BATTERY_CAPACITY) * 100.

(** The battery invariant: within [0,100], and positive while charging. *)
Definition battery_ok (d : t) : Prop :=
  0 <= battery d <= 100 /\ (is_charging d = true -> 0 < battery d).

(** A vehicle that climbed 500 times from a full battery: the battery is
    exactly empty and the vehicle has not crashed yet. *)
Definition exhausted : t :=
  run_ops (init (5, 5, 3)%Z) (repeat (OpMove "MOVE_UP" (0, 0)) 500).

Definition half_charged : t := set_battery 50 (init (5, 5, 3)%Z).

(** [can_reach(target)]. *)
Definition can_reach (d : t) (target : Z * Z * Z) : bool :=
  let '(tx, ty, tz) := target in
  let '(px, py, pz) := position d in
  let dx := Qabs (inject_Z tx - px) in
  let dy := Qabs (inject_Z ty - py) in
  let dz := inject_Z (Z.abs (tz - pz)) in
  let horizontal_distance := (dx + dy) * (inject_Z CELL_SIZE / 1000) in
  let horizontal_energy := horizontal_distance * ENERGY_PER_KM in
  let vertical_energy := dz * ENERGY_PER_ALTITUDE in
  let total_energy_needed := (horizontal_energy + vertical_energy) * (12 # 10) in
  let battery_needed := (total_energy_needed / BATTERY_CAPACITY) * 100 in
  Qle_bool battery_needed (battery d).

(** [get_battery_range()]; the test [if self.cargo] is the truth value of
    the cargo string. *)
Definition get_battery_range (d : t) : Q :=
  let available_energy := (battery d / 100) * BATTERY_CAPACITY in
  let range_km := available_energy / ENERGY_PER_KM in
  match cargo d with
  | Some c => if negb (String.eqb c EmptyString) then range_km / (12 # 10)
              else range_km
  | None => range_km
  end.

(** [needs_charging()] and [is_critical()]. *)
Definition MIN_SAFE_BATTERY : Q := 15.
Definition CRITICAL_BATTERY : Q := 5.
Definition needs_charging (d : t) : bool := Qlt_bool (battery d) MIN_SAFE_BATTERY.
Definition is_critical (d : t) : bool := Qlt_bool (battery d) CRITICAL_BATTERY.

(** Rank of a payload condition in the order none, fresh, warning,
    spoiled. *)
Definition condition_rank (c : PayloadCondition) : nat :=
  match c with PayloadNone => 0 | Fresh => 1 | Warning => 2 | Spoiled => 3 end.

(** The cargo bookkeeping invariant: the flag, the cargo slot and the
    lock agree, and while cargo is held the condition is the one its age
    gives. *)
Definition cargo_ok (d : t) : Prop :=
  (has_package d = true <-> is_Some (cargo d))
  /\ payload_locked d = has_package d
  /\ (has_package d = true ->
      payload_condition d
      = if Qle_bool PAYLOAD_MAX_TIME (time_since_pickup d) then Spoiled
        else if Qle_bool PAYLOAD_SPOILAGE_WARNING (time_since_pickup d)
             then Warning else Fresh).

(** Battery percentage spent by a laden flight along a Manhattan route:
    one lateral move per cell and one climb per level. *)
Definition route_cost (d : t) (target : Z * Z * Z) : Q :=
  let '(tx, ty, tz) := target in
  let '(px, py, pz) := position d in
  (Qabs (inject_Z tx - px) + Qabs (inject_Z ty - py))
    * percent (_calculate_movement_energy (set_cargo (cargo d) true true d) 1 0)
  + inject_Z (Z.abs (tz - pz)) * percent ENERGY_PER_ALTITUDE.
End Drone.

(** ** environment/weather.py *)
Module WeatherSystem.
Import Config.
Local Open Scope Q_scope.

Inductive WeatherCondition :=
| CLEAR | CLOUDY | WINDY | LIGHT_RAIN | HEAVY_RAIN | STORM | THUNDERSTORM.

Definition value (c : WeatherCondition) : string :=
  match c with
  | CLEAR => "clear" | CLOUDY => "cloudy" | WINDY => "windy"
  | LIGHT_RAIN => "light_rain" | HEAVY_RAIN => "heavy_rain"
  | STORM => "storm" | THUNDERSTORM => "thunderstorm"
  end.

Definition FORBIDDEN_WEATHER : list string :=
  ["storm"; "heavy_rain"; "thunderstorm"]%string.

(** The weather state.  [wind_direction] is kept through the cosine and
    sine of its angle, the only way the simulation reads it;
    [visibility] and [temperature] are not read by the mission loop. *)
Record t := mk {
  condition : WeatherCondition;
  wind_speed : Q;
  wind_cos : Q;
  wind_sin : Q
}.

(** The random draws of one [update] call: whether the weather changes
    (and then the new condition with the wind speed drawn for it), the
    wind fluctuation in [-2,2], and the heading after the direction
    change. *)
Record draw := mk_draw {
  change : option (WeatherCondition * Q);
  gust : Q;
  heading_cos : Q;
  heading_sin : Q
}.

(** [np.clip(v, lo, hi)]. *)
Definition clip (v lo hi : Q) : Q :=
  if Qlt_bool v lo then lo else if Qlt_bool hi v then hi else v.

(** [update()]. *)
Definition update (w : t) (r : draw) : t :=
  let w1 :=
    match change r with
    | Some (c, s) => mk c s (wind_cos w) (wind_sin w)
    | None => w
    end in
  mk (condition w1) (clip (wind_speed w1 + gust r) 0 80)
     (heading_cos r) (heading_sin r).

(** [get_wind_effect()]. *)
Definition get_wind_effect (w : t) : Q * Q :=
  let wind_strength := wind_speed w / MAX_WIND_SPEED in
  (wind_strength * wind_cos w * (1 # 2), wind_strength * wind_sin w * (1 # 2)).

(** [is_safe_to_fly()]. *)
Definition is_safe_to_fly (w : t) : bool :=
  if existsb (String.eqb (value (condition w))) FORBIDDEN_WEATHER then false
  else if Qlt_bool MAX_WIND_SPEED (wind_speed w) then false
  else true.

(** The transition table of [_change_weather]: successors of a condition
    with their probabilities. *)
Definition transitions (c : WeatherCondition) : list (WeatherCondition * Q) :=
  match c with
  | CLEAR => [(CLEAR, 85 # 100); (CLOUDY, 12 # 100); (WINDY, 3 # 100)]
  | CLOUDY => [(CLEAR, 5 # 10); (CLOUDY, 35 # 100); (LIGHT_RAIN, 1 # 10);
               (WINDY, 5 # 100)]
  | WINDY => [(CLEAR, 4 # 10); (CLOUDY, 4 # 10); (WINDY, 15 # 100);
              (STORM, 5 # 100)]
  | LIGHT_RAIN => [(CLOUDY, 6 # 10); (LIGHT_RAIN, 3 # 10);
                   (HEAVY_RAIN, 1 # 10)]
  | HEAVY_RAIN => [(LIGHT_RAIN, 6 # 10); (HEAVY_RAIN, 3 # 10);
                   (STORM, 1 # 10)]
  | STORM => [(HEAVY_RAIN, 6 # 10); (STORM, 3 # 10); (THUNDERSTORM, 1 # 10)]
  | THUNDERSTORM => [(STORM, 7 # 10); (THUNDERSTORM, 2 # 10);
                     (HEAVY_RAIN, 1 # 10)]
  end.

(** [np.random.choice(conditions, p=probs)] for the uniform draw [u]: the
    first entry whose cumulative probability exceeds [u]. *)
Fixpoint choice (l : list (WeatherCondition * Q)) (cumulated u : Q)
  : option WeatherCondition :=
  match l with
  | [] => None
  | (c, p) :: rest =>
    if Qlt_bool u (cumulated + p) then Some c
    else choice rest (cumulated + p) u
  end.

(** The wind range [_update_weather_effects] draws from. *)
Definition wind_range (c : WeatherCondition) : Q * Q :=
  match c with
  | CLEAR => (5, 15) | CLOUDY => (10, 20) | WINDY => (25, 40)
  | LIGHT_RAIN => (15, 25) | HEAVY_RAIN => (30, 45) | STORM => (45, 60)
  | THUNDERSTORM => (50, 70)
  end.

(** [_change_weather()] with the uniform draw [u] of the choice and the
    wind speed [s] and heading drawn by [_update_weather_effects]. *)
Definition _change_weather (w : t) (u s hc hs : Q) : option t :=
  c ← choice (transitions (condition w)) 0 u;
  Some (mk c s hc hs).

(** [get_energy_multiplier()]. *)
Definition get_energy_multiplier (w : t) : Q :=
  match condition w with
  | CLEAR => 1 | CLOUDY => 11 # 10 | WINDY => 13 # 10
  | LIGHT_RAIN => 12 # 10 | HEAVY_RAIN => 15 # 10 | STORM => 2
  | THUNDERSTORM => 25 # 10
  end.
End WeatherSystem.

(** ** environment/obstacles.py *)
Module CityObstacles.
Import Config.
Local Open Scope Q_scope.

Record NoFlyZone := mk_zone {
  center : Z * Z;
  radius : Z;
  reason : string
}.

(** The generated city.  [height_map row col] is the numpy array
    [height_map[y, x]]; the zone-type grid, read only by the
    environment's own action filter, is left out. *)
Record t := mk {
  grid_size : Z;
  height_map : Z -> Z -> Z;
  hospitals : list (Z * Z);
  labs : list (Z * Z);
  charging_stations : list (Z * Z);
  no_fly_zones : list NoFlyZone
}.

(** [is_no_fly_zone(x, y)].  [sqrt(d2) <= radius] is decided as
    [0 <= radius] and [d2 <= radius^2]. *)
Definition is_no_fly_zone (c : t) (x y : Q) : bool :=
  existsb
    (fun zone =>
       let '(cx, cy) := center zone in
       let d2 := (x - inject_Z cx) * (x - inject_Z cx)
                 + (y - inject_Z cy) * (y - inject_Z cy) in
       (0 <=? radius zone)%Z
       && Qle_bool d2 (inject_Z (radius zone * radius zone)))
    (no_fly_zones c).

Definition in_grid (c : t) (x y : Q) : bool :=
  Qle_bool 0 x && Qlt_bool x (inject_Z (grid_size c))
  && Qle_bool 0 y && Qlt_bool y (inject_Z (grid_size c)).

(** [get_building_height(x, y)]; [int()] of a non-negative coordinate is
    its floor. *)
Definition get_building_height (c : t) (x y : Q) : Z :=
  if in_grid c x y then height_map c (Qfloor y) (Qfloor x) else 0%Z.

(** [is_collision(x, y, altitude)]. *)
Definition is_collision (c : t) (x y : Q) (altitude : Z) : bool :=
  (altitude <=? get_building_height c x y)%Z.

(** [get_min_safe_altitude(x, y)]. *)
Definition get_min_safe_altitude (c : t) (x y : Q) : Z :=
  (get_building_height c x y + 1)%Z.

(** [is_valid_position(x, y)]. *)
Definition is_valid_position (c : t) (x y : Q) : bool := in_grid c x y.

(** [range(-radius, radius + 1)]. *)
Definition offsets (radius : Z) : list Z :=
  map (fun i => (Z.of_nat i - radius)%Z) (seq 0 (Z.to_nat (2 * radius + 1))).

(** [get_obstacles_in_radius(x, y, radius)]. *)
Definition get_obstacles_in_radius (c : t) (x y : Q) (radius : Z)
  : list (Q * Q * Z) :=
  flat_map
    (fun dx =>
       flat_map
         (fun dy =>
            let nx := x + inject_Z dx in
            let ny := y + inject_Z dy in
            if is_valid_position c nx ny then
              let height := get_building_height c nx ny in
              if (0 <? height)%Z then [(nx, ny, height)] else []
            else [])
         (offsets radius))
    (offsets radius).

(** [get_random_hospital()] and [get_random_lab()], with the index drawn
    by [np.random.randint(0, len(...))] as argument. *)
Definition get_random_hospital (c : t) (i : nat) : Z * Z :=
  match hospitals c with
  | [] => (0, 0)%Z
  | h :: _ => nth (i mod length (hospitals c)) (hospitals c) h
  end.

Definition get_random_lab (c : t) (i : nat) : Z * Z :=
  match labs c with
  | [] => (grid_size c - 1, grid_size c - 1)%Z
  | l :: _ => nth (i mod length (labs c)) (labs c) l
  end.

(** Building heights as the generator produces them:
    [0] or a level up to [MAX_BUILDING_HEIGHT]. *)
Definition heights_bounded (c : t) : Prop :=
  forall row col, (0 <= height_map c row col <= MAX_BUILDING_HEIGHT)%Z.

(** The scan of [get_nearest_charging_station]: the running minimum
    (infinite at first, [None]) and the nearest station so far. *)
Definition nearer (x y : Q) (acc : option Q * (Z * Z)) (station : Z * Z)
  : option Q * (Z * Z) :=
  let '(sx, sy) := station in
  let distance := Qabs (x - inject_Z sx) + Qabs (y - inject_Z sy) in
  match fst acc with
  | None => (Some distance, station)
  | Some min_distance =>
    if Qlt_bool distance min_distance then (Some distance, station) else acc
  end.

(** [get_nearest_charging_station(x, y)]. *)
Definition get_nearest_charging_station (c : t) (x y : Q) : option (Z * Z) :=
  match charging_stations c with
  | [] => None
  | first :: _ =>
    Some (snd (fold_left (nearer x y) (charging_stations c) (None, first)))
  end.

(** Manhattan distance from [(x, y)] to a station. *)
Definition station_distance (x y : Q) (station : Z * Z) : Q :=
  Qabs (x - inject_Z (fst station)) + Qabs (y - inject_Z (snd station)).

Inductive ZoneType :=
| EMPTY | BUILDING | HOSPITAL | LAB | CHARGING_STATION | NO_FLY_ZONE
| GOVERNMENT | AIRPORT.

(** [get_zone_type(x, y)], for the zone-type grid [zone_map row col]. *)
Definition get_zone_type (c : t) (zone_map : Z -> Z -> ZoneType) (x y : Q)
  : ZoneType :=
  if in_grid c x y then zone_map (Qfloor y) (Qfloor x) else EMPTY.
End CityObstacles.

(** ** The observation dictionary

    [CityEnvironment._get_state] builds a dict and the controllers read it
    by key.  A field is [None] when the key is absent: [state[k]] then
    raises [KeyError] while [state.get(k, default)] yields the default.
    Keys no modelled function reads (speed, heading, target, weather label,
    nearest station, mission id) are left out. *)
Module StateDict.
Record t := mk {
  position : option (Q * Q * Z);
  battery : option Q;
  has_cargo : option bool;
  relative_target : option (Q * Q * Z);
  distance_to_target : option Q;
  nearby_obstacles : option Z;
  obstacle_nearby : option bool;
  in_no_fly_zone : option bool;
  building_height : option Z;
  neighbor_buildings : option (gmap string Z);
  neighbor_no_fly : option (gmap string bool);
  wind_speed : option Q;
  safe_to_fly : option bool;
  step : option Z;
  at_pickup_location : option bool;
  at_delivery_location : option bool
}.

Definition LATERAL : list string :=
  ["MOVE_NORTH"; "MOVE_SOUTH"; "MOVE_EAST"; "MOVE_WEST"]%string.

Definition present {A} (o : option A) : bool :=
  match o with Some _ => true | None => false end.

(** Keys of a per-direction sub-dict are the four lateral moves only. *)
Definition lateral_keys {A} (m : option (gmap string A)) : bool :=
  match m with
  | None => true
  | Some m =>
    forallb (fun kv => existsb (String.eqb (fst kv)) LATERAL) (map_to_list m)
  end.

(** An observation carrying every key that is read with [state[k]], with
    per-direction sub-dicts keyed as [_get_state] keys them. *)
Definition well_formed (s : t) : bool :=
  present (position s) && present (battery s) && present (has_cargo s)
  && present (relative_target s) && present (nearby_obstacles s)
  && present (in_no_fly_zone s) && present (safe_to_fly s)
  && present (at_pickup_location s) && present (at_delivery_location s)
  && lateral_keys (neighbor_buildings s) && lateral_keys (neighbor_no_fly s).
End StateDict.

(** ** environment/city.py *)
Module CityEnvironment.
Import Config.
Local Open Scope Q_scope.

Inductive MissionStatus :=
| IN_PROGRESS | SUCCESS | FAILED_COLLISION | FAILED_BATTERY
| FAILED_TIMEOUT | FAILED_VIOLATION | FAILED_INTERCEPTION
| FAILED_STORM | FAILED_PAYLOAD_SPOILED.

(** An environment on which [reset] has been called (before that,
    [self.drone] is [None] and [step] raises). *)
Record t := mk {
  grid_size : Z;
  obstacles : CityObstacles.t;
  weather : WeatherSystem.t;
  mission_id : Z;
  start_position : Z * Z * Z;
  target_position : Z * Z * Z;
  drone : Drone.t;
  current_step : Z;
  mission_status : MissionStatus;
  total_reward : Q;
  violations : Z;
  collisions : Z;
  interceptions : Z;
  storm_crashes : Z;
  payload_spoilages : Z
}.

Definition set_drone (d : Drone.t) (e : t) : t :=
  mk (grid_size e) (obstacles e) (weather e) (mission_id e)
     (start_position e) (target_position e) d (current_step e)
     (mission_status e) (total_reward e) (violations e) (collisions e)
     (interceptions e) (storm_crashes e) (payload_spoilages e).
Definition set_weather (w : WeatherSystem.t) (e : t) : t :=
  mk (grid_size e) (obstacles e) w (mission_id e)
     (start_position e) (target_position e) (drone e) (current_step e)
     (mission_status e) (total_reward e) (violations e) (collisions e)
     (interceptions e) (storm_crashes e) (payload_spoilages e).
Definition set_current_step (n : Z) (e : t) : t :=
  mk (grid_size e) (obstacles e) (weather e) (mission_id e)
     (start_position e) (target_position e) (drone e) n
     (mission_status e) (total_reward e) (violations e) (collisions e)
     (interceptions e) (storm_crashes e) (payload_spoilages e).
Definition set_mission_status (s : MissionStatus) (e : t) : t :=
  mk (grid_size e) (obstacles e) (weather e) (mission_id e)
     (start_position e) (target_position e) (drone e) (current_step e)
     s (total_reward e) (violations e) (collisions e)
     (interceptions e) (storm_crashes e) (payload_spoilages e).
Definition set_total_reward (r : Q) (e : t) : t :=
  mk (grid_size e) (obstacles e) (weather e) (mission_id e)
     (start_position e) (target_position e) (drone e) (current_step e)
     (mission_status e) r (violations e) (collisions e)
     (interceptions e) (storm_crashes e) (payload_spoilages e).
Definition set_collisions (n : Z) (e : t) : t :=
  mk (grid_size e) (obstacles e) (weather e) (mission_id e)
     (start_position e) (target_position e) (drone e) (current_step e)
     (mission_status e) (total_reward e) (violations e) n
     (interceptions e) (storm_crashes e) (payload_spoilages e).
Definition set_interceptions (n : Z) (e : t) : t :=
  mk (grid_size e) (obstacles e) (weather e) (mission_id e)
     (start_position e) (target_position e) (drone e) (current_step e)
     (mission_status e) (total_reward e) (violations e) (collisions e)
     n (storm_crashes e) (payload_spoilages e).
Definition set_storm_crashes (n : Z) (e : t) : t :=
  mk (grid_size e) (obstacles e) (weather e) (mission_id e)
     (start_position e) (target_position e) (drone e) (current_step e)
     (mission_status e) (total_reward e) (violations e) (collisions e)
     (interceptions e) n (payload_spoilages e).
Definition set_payload_spoilages (n : Z) (e : t) : t :=
  mk (grid_size e) (obstacles e) (weather e) (mission_id e)
     (start_position e) (target_position e) (drone e) (current_step e)
     (mission_status e) (total_reward e) (violations e) (collisions e)
     (interceptions e) (storm_crashes e) n.

(** [_is_at_target()]. *)
Definition _is_at_target (e : t) : bool :=
  let '(x, y, z) := Drone.position (drone e) in
  let '(tx, ty, tz) := target_position e in
  Qle_bool (Qabs (x - inject_Z tx)) 1
  && Qle_bool (Qabs (y - inject_Z ty)) 1
  && (Z.abs (z - tz) <=? 1)%Z.

(** [_distance_to_target()]. *)
Definition _distance_to_target (e : t) : Q :=
  let '(x, y, z) := Drone.position (drone e) in
  let '(tx, ty, tz) := target_position e in
  Qabs (x - inject_Z tx) + Qabs (y - inject_Z ty) + inject_Z (Z.abs (z - tz)).

(** [_get_state()].  [_is_at_pickup] and [_is_at_delivery] test
    attributes the environment never sets, so both are [False]. *)
Definition _get_state (e : t) : StateDict.t :=
  let '(x, y, z) := Drone.position (drone e) in
  let '(tx, ty, tz) := target_position e in
  let o := obstacles e in
  StateDict.mk
    (Some (x, y, z))
    (Some (Drone.battery (drone e)))
    (Some (match Drone.cargo (drone e) with Some _ => true | None => false end))
    (Some (inject_Z tx - x, inject_Z ty - y, (tz - z)%Z))
    (Some (_distance_to_target e))
    (Some (Z.of_nat (length (CityObstacles.get_obstacles_in_radius o x y 3))))
    None
    (Some (CityObstacles.is_no_fly_zone o x y))
    (Some (CityObstacles.get_building_height o x y))
    (Some (<["MOVE_NORTH"%string := CityObstacles.get_building_height o x (y - 1)]>
            (<["MOVE_SOUTH"%string := CityObstacles.get_building_height o x (y + 1)]>
              (<["MOVE_EAST"%string := CityObstacles.get_building_height o (x + 1) y]>
                (<["MOVE_WEST"%string := CityObstacles.get_building_height o (x - 1) y]>
                  ∅)))))
    (Some (<["MOVE_NORTH"%string := CityObstacles.is_no_fly_zone o x (y - 1)]>
            (<["MOVE_SOUTH"%string := CityObstacles.is_no_fly_zone o x (y + 1)]>
              (<["MOVE_EAST"%string := CityObstacles.is_no_fly_zone o (x + 1) y]>
                (<["MOVE_WEST"%string := CityObstacles.is_no_fly_zone o (x - 1) y]>
                  ∅)))))
    (Some (WeatherSystem.wind_speed (weather e)))
    (Some (WeatherSystem.is_safe_to_fly (weather e)))
    (Some (current_step e))
    (Some false)
    (Some false).

(** [reset()], after construction with the given city and weather; [i]
    and [j] are the indices drawn for the hospital and the lab. *)
Definition reset (e : t) (i j : nat) : t * StateDict.t :=
  let o := obstacles e in
  let '(sx, sy) := CityObstacles.get_random_hospital o i in
  let '(tx, ty) := CityObstacles.get_random_lab o j in
  let start_alt :=
    CityObstacles.get_min_safe_altitude o (inject_Z sx) (inject_Z sy) in
  let target_alt :=
    CityObstacles.get_min_safe_altitude o (inject_Z tx) (inject_Z ty) in
  let start := (sx, sy, start_alt) in
  let d := snd (Drone.pickup_cargo (Drone.init start) "blood_sample" (sx, sy)) in
  let e' :=
    mk (grid_size e) o (weather e) (mission_id e + 1)%Z start
       (tx, ty, target_alt) d 0%Z IN_PROGRESS 0 0%Z 0%Z 0%Z 0%Z 0%Z in
  (e', _get_state e').

(** A freshly constructed environment, reset once. *)
Definition create (o : CityObstacles.t) (w : WeatherSystem.t) (i j : nat)
  : t * StateDict.t :=
  reset (mk (CityObstacles.grid_size o) o w 0%Z (0, 0, 0)%Z (0, 0, 0)%Z
            (Drone.init (0, 0, 0)%Z) 0%Z IN_PROGRESS 0 0%Z 0%Z 0%Z 0%Z 0%Z)
        i j.

(** The [info] dict: the short form of the two early returns, and the
    full form built at the end of [step]. *)
Record FullInfo := mk_info {
  info_mission_id : Z;
  info_step : Z;
  info_position : Q * Q * Z;
  info_battery : Q;
  info_distance_to_target : Q;
  info_mission_status : MissionStatus;
  info_violations : Z;
  info_collisions : Z;
  info_interceptions : Z;
  info_storm_crashes : Z;
  info_payload_spoilages : Z;
  info_weather : string;
  info_payload_condition : Drone.PayloadCondition;
  info_time_since_pickup : Q;
  info_crash_reason : option string
}.

Inductive Info :=
| InfoEarly (status : MissionStatus) (reason : string)
| InfoFull (i : FullInfo).

Definition status_of (i : Info) : MissionStatus :=
  match i with
  | InfoEarly s _ => s
  | InfoFull f => info_mission_status f
  end.

(** The local variables [reward] and [done] of [step], together with the
    environment being mutated. *)
Record tick := mk_tick { env : t; reward : Q; done : bool }.

(** Assigning [reward], [done = True] and [self.mission_status]. *)
Definition terminal (r : Q) (s : MissionStatus) (e : t) : tick :=
  mk_tick (set_mission_status s e) r true.

(** [success = self.drone.move(action, wind_effect)] and the
    [if not success] block. *)
Definition execute_action (action : string) (wind_effect : Q * Q) (k : tick)
  : tick :=
  let '(success, d) := Drone.move (drone (env k)) action wind_effect in
  let e := set_drone d (env k) in
  if negb success then
    if Drone.is_crashed d then
      if bool_decide (Drone.crash_reason d = Some "battery_depleted"%string)
      then terminal REWARD_BATTERY_DEPLETED FAILED_BATTERY e
      else terminal REWARD_COLLISION FAILED_COLLISION e
    else mk_tick e (reward k) (done k)
  else mk_tick e (reward k) (done k).

(** CHECK 3: structural collision at the position read after the move. *)
Definition check_collision (pos : Q * Q * Z) (k : tick) : tick :=
  let '(x, y, z) := pos in
  let e := env k in
  if CityObstacles.is_collision (obstacles e) x y z then
    let e1 := set_drone (Drone.crash (drone e) "collision") e in
    let k1 := terminal REWARD_COLLISION FAILED_COLLISION e1 in
    mk_tick (set_collisions (collisions (env k1) + 1) (env k1))
            (reward k1) (done k1)
  else k.

(** CHECK 4: no-fly zone interception. *)
Definition check_no_fly (pos : Q * Q * Z) (k : tick) : tick :=
  let '(x, y, z) := pos in
  let e := env k in
  if CityObstacles.is_no_fly_zone (obstacles e) x y then
    let e1 := set_drone (Drone.crash (drone e) "no_fly_interception") e in
    let k1 := terminal REWARD_NO_FLY_INTERCEPTION FAILED_INTERCEPTION e1 in
    mk_tick (set_interceptions (interceptions (env k1) + 1) (env k1))
            (reward k1) (done k1)
  else k.

(** CHECK 5: storm damage. *)
Definition check_storm (k : tick) : tick :=
  let e := env k in
  if existsb (String.eqb (WeatherSystem.value
                            (WeatherSystem.condition (weather e))))
             ["storm"; "thunderstorm"]%string
  then
    let d1 := Drone.set_steps_in_storm
                (Drone.steps_in_storm (drone e) + 1) (drone e) in
    let e1 := set_drone d1 e in
    if (STORM_DAMAGE_THRESHOLD <=? Drone.steps_in_storm d1)%Z then
      let e2 := set_drone (Drone.crash d1 "storm_damage") e1 in
      let k1 := terminal REWARD_STORM_CRASH FAILED_STORM e2 in
      mk_tick (set_storm_crashes (storm_crashes (env k1) + 1) (env k1))
              (reward k1) (done k1)
    else mk_tick e1 (reward k) (done k)
  else
    mk_tick (set_drone (Drone.set_steps_in_storm 0 (drone e)) e)
            (reward k) (done k).

(** Truth value of the result of [deliver_cargo]. *)
Definition truthy (delivered : option string) : bool :=
  match delivered with
  | Some s => negb (String.eqb s EmptyString)
  | None => false
  end.

(** The target-arrival block. *)
Definition check_target (k : tick) : tick :=
  let e := env k in
  if _is_at_target e then
    let '(tx, ty, _) := target_position e in
    let '(delivered, d1) := Drone.deliver_cargo (drone e) (tx, ty) in
    let e1 := set_drone d1 e in
    if truthy delivered then
      let delivery_time := current_step e1 in
      let r0 := REWARD_DELIVERY_SUCCESS in
      let time_ratio :=
        inject_Z delivery_time / inject_Z MAX_STEPS_PER_EPISODE in
      let time_bonus := REWARD_FAST_DELIVERY_BONUS * (1 - time_ratio) in
      let r1 := r0 + time_bonus in
      let battery_bonus :=
        REWARD_BATTERY_EFFICIENT * (Drone.battery d1 / 100) in
      let r2 := r1 + battery_bonus in
      terminal r2 SUCCESS e1
    else mk_tick e1 (reward k) (done k)
  else k.

(** [if not done: reward += REWARD_TIME_PENALTY]. *)
Definition time_penalty (k : tick) : tick :=
  if negb (done k)
  then mk_tick (env k) (reward k + REWARD_TIME_PENALTY) (done k)
  else k.

(** [if action == 'CHARGE': reward += REWARD_CHARGING]. *)
Definition charging_penalty (action : string) (k : tick) : tick :=
  if String.eqb action "CHARGE"
  then mk_tick (env k) (reward k + REWARD_CHARGING) (done k)
  else k.

(** The timeout block. *)
Definition check_timeout (k : tick) : tick :=
  if (MAX_STEPS_PER_EPISODE <=? current_step (env k))%Z
  then terminal REWARD_COLLISION FAILED_TIMEOUT (env k)
  else k.

Definition full_info (e : t) : FullInfo :=
  mk_info (mission_id e) (current_step e) (Drone.position (drone e))
    (Drone.battery (drone e)) (_distance_to_target e) (mission_status e)
    (violations e) (collisions e) (interceptions e) (storm_crashes e)
    (payload_spoilages e)
    (WeatherSystem.value (WeatherSystem.condition (weather e)))
    (Drone.payload_condition (drone e))
    (Drone.time_since_pickup (drone e))
    (if Drone.is_crashed (drone e) then Drone.crash_reason (drone e)
     else None).

(** Components of what [step] returns. *)
Definition StepResult : Type := t * (StateDict.t * Q * bool * Info).
Definition env_of (res : StepResult) : t := fst res.
Definition state_of (res : StepResult) : StateDict.t :=
  fst (fst (fst (snd res))).
Definition reward_of (res : StepResult) : Q := snd (fst (fst (snd res))).
Definition done_of (res : StepResult) : bool := snd (fst (snd res)).
Definition info_of (res : StepResult) : Info := snd (snd res).

(** [step(action)]; [r] holds the random draws of the weather update.
    The result is the mutated environment and the returned tuple
    [(state, reward, done, info)]. *)
Definition step (e : t) (action : string) (r : WeatherSystem.draw)
  : StepResult :=
  let e1 := set_current_step (current_step e + 1) e in
  let e2 := set_weather (WeatherSystem.update (weather e1) r) e1 in
  let e3 := set_drone (Drone.update_payload_condition (drone e2) 1) e2 in
  let wind_effect := WeatherSystem.get_wind_effect (weather e3) in
  if Drone.is_payload_spoiled (drone e3) then
    let k := terminal REWARD_PAYLOAD_SPOILED FAILED_PAYLOAD_SPOILED e3 in
    let e4 := set_payload_spoilages (payload_spoilages (env k) + 1) (env k) in
    (e4, (_get_state e4, reward k, done k,
          InfoEarly (mission_status e4) "payload_spoiled"))
  else if Qle_bool EXTREME_WIND_SPEED (WeatherSystem.wind_speed (weather e3))
  then
    let e4 := set_drone (Drone.crash (drone e3) "storm_damage") e3 in
    let k := terminal REWARD_STORM_CRASH FAILED_STORM e4 in
    let e5 := set_storm_crashes (storm_crashes (env k) + 1) (env k) in
    (e5, (_get_state e5, reward k, done k,
          InfoEarly (mission_status e5) "extreme_weather"))
  else
    let k1 := execute_action action wind_effect (mk_tick e3 0 false) in
    let pos := Drone.position (drone (env k1)) in
    let k2 := check_collision pos k1 in
    let k3 := check_no_fly pos k2 in
    let k4 := check_storm k3 in
    let k5 := check_target k4 in
    let k6 := time_penalty k5 in
    let k7 := charging_penalty action k6 in
    let k8 := check_timeout k7 in
    let e9 := set_total_reward (total_reward (env k8) + reward k8) (env k8) in
    (e9, (_get_state e9, reward k8, done k8, InfoFull (full_info e9))).

(** Running a list of [(action, draws)] ticks, whatever [done] says. *)
Definition run (e : t) (ticks : list (string * WeatherSystem.draw)) : t :=
  fold_left (fun e ar => fst (step e (fst ar) (snd ar))) ticks e.

(** Environments reachable by [reset] and [step] from a constructed
    one. *)
Inductive reachable (o : CityObstacles.t) : t -> Prop :=
| reach_create w i j : reachable o (fst (create o w i j))
| reach_reset e i j : reachable o e -> reachable o (fst (reset e i j))
| reach_step e a r : reachable o e -> reachable o (fst (step e a r)).

(** Whether a coordinate is a whole grid cell. *)
Definition integral (q : Q) : Prop := exists n : Z, q == inject_Z n.

Definition grid_cell_position (s : StateDict.t) : Prop :=
  match StateDict.position s with
  | Some (x, y, z) =>
    integral x /\ integral y /\ (0 <= z < MAX_ALTITUDE)%Z
  | None => False
  end.

(** *** Example worlds *)

(** A hospital at (5,5), a tall building east of it inside a no-fly
    zone, and a lab far away. *)
Definition guarded_city : CityObstacles.t :=
  CityObstacles.mk 50
    (fun row col =>
       if (row =? 5)%Z && (col =? 5)%Z then 2%Z
       else if (row =? 5)%Z && (col =? 6)%Z then 8%Z
       else if (row =? 40)%Z && (col =? 40)%Z then 2%Z
       else 0%Z)
    [(5, 5)%Z] [(40, 40)%Z] []
    [CityObstacles.mk_zone (8, 5)%Z 2 "government"].

(** Clear weather, 5 km/h wind blowing east, and draws that keep it. *)
Definition east_breeze : WeatherSystem.t :=
  WeatherSystem.mk WeatherSystem.CLEAR 5 1 0.
Definition steady : WeatherSystem.draw :=
  WeatherSystem.mk_draw None 0 1 0.

(** The guarded mission right after construction and [reset]. *)
Definition guarded_start : t := fst (create guarded_city east_breeze 0 0).

(** A hospital in the corner (0,0) and a lab two cells east of it. *)
Definition corner_city : CityObstacles.t :=
  CityObstacles.mk 50
    (fun row col =>
       if (row =? 0)%Z && ((col =? 0)%Z || (col =? 2)%Z) then 2%Z else 0%Z)
    [(0, 0)%Z] [(2, 0)%Z] [] [].

(** Wind blowing west and dying down by 2 km/h per tick. *)
Definition west_breeze : WeatherSystem.t :=
  WeatherSystem.mk WeatherSystem.CLEAR 5 (-1) 0.
Definition dying : WeatherSystem.draw :=
  WeatherSystem.mk_draw None (-2) (-1) 0.

(** The corner mission after 999 ticks of hovering. *)
Definition last_tick : t :=
  run (fst (create corner_city west_breeze 0 0))
      (repeat ("HOVER"%string, dying) 999).

(** The local state of [step] right after the target-arrival block. *)
Definition after_target_block (e : t) (action : string)
    (r : WeatherSystem.draw) : tick :=
  let e1 := set_current_step (current_step e + 1) e in
  let e2 := set_weather (WeatherSystem.update (weather e1) r) e1 in
  let e3 := set_drone (Drone.update_payload_condition (drone e2) 1) e2 in
  let k1 := execute_action action (WeatherSystem.get_wind_effect (weather e3))
              (mk_tick e3 0 false) in
  let pos := Drone.position (drone (env k1)) in
  check_target (check_storm (check_no_fly pos (check_collision pos k1))).

(** The corner mission right after construction and [reset], in an
    east breeze. *)
Definition corner_start : t := fst (create corner_city east_breeze 0 0).

(** Draws that turn the weather into a thunderstorm with 60 km/h wind. *)
Definition squall : WeatherSystem.draw :=
  WeatherSystem.mk_draw (Some (WeatherSystem.THUNDERSTORM, 60)) 0 1 0.

(** Draws that bring a storm with 45 km/h wind from the south, and the
    guarded mission after one tick of it. *)
Definition gale : WeatherSystem.draw :=
  WeatherSystem.mk_draw (Some (WeatherSystem.STORM, 45)) 0 0 1.
Definition storm_run : t := run guarded_start [("HOVER"%string, gale)].

(** What one tick keeps: the city, and the vehicle position produced by
    the motion step. *)
Definition same_place (k k' : tick) : Prop :=
  obstacles (env k') = obstacles (env k)
  /\ Drone.position (drone (env k')) = Drone.position (drone (env k)).

(** The environment after the first three statements of [step]: step
    counter, weather update, payload ageing. *)
Definition pre_flight (e : t) (r : WeatherSystem.draw) : t :=
  let e1 := set_current_step (current_step e + 1) e in
  let e2 := set_weather (WeatherSystem.update (weather e1) r) e1 in
  set_drone (Drone.update_payload_condition (drone e2) 1) e2.

(** The local state of [step] right after the storm-damage block. *)
Definition after_storm_block (e : t) (action : string)
    (r : WeatherSystem.draw) : tick :=
  let e3 := pre_flight e r in
  let k1 := execute_action action (WeatherSystem.get_wind_effect (weather e3))
              (mk_tick e3 0 false) in
  let pos := Drone.position (drone (env k1)) in
  check_storm (check_no_fly pos (check_collision pos k1)).

(** The local state of [step] right after the timeout block. *)
Definition last_block (e : t) (action : string) (r : WeatherSystem.draw)
  : tick :=
  check_timeout (charging_penalty action (time_penalty
    (check_target (after_storm_block e action r)))).

(** What a block of [step] leaves in the local state: either nothing
    terminal yet (status as before the tick, reward still 0), or a
    terminal status among [allowed]. *)
Definition outcome_in (s0 : MissionStatus) (allowed : list MissionStatus)
    (k : tick) : Prop :=
  (done k = false /\ mission_status (env k) = s0 /\ reward k = 0)
  \/ (done k = true /\ In (mission_status (env k)) allowed).

(** The attributes no block of [step] writes after the pre-flight
    part, and the failure counters, which only grow. *)
Definition same_mission (e e' : t) : Prop :=
  current_step e' = current_step e /\ mission_id e' = mission_id e
  /\ obstacles e' = obstacles e /\ weather e' = weather e
  /\ target_position e' = target_position e
  /\ start_position e' = start_position e
  /\ grid_size e' = grid_size e /\ violations e' = violations e
  /\ payload_spoilages e' = payload_spoilages e
  /\ total_reward e' = total_reward e
  /\ (collisions e <= collisions e')%Z
  /\ (interceptions e <= interceptions e')%Z
  /\ (storm_crashes e <= storm_crashes e')%Z.

Definition is_stormy (w : WeatherSystem.t) : bool :=
  existsb (String.eqb (WeatherSystem.value (WeatherSystem.condition w)))
          ["storm"; "thunderstorm"]%string.

(** [self.actions]. *)
Definition actions : list string :=
  ["MOVE_NORTH"; "MOVE_SOUTH"; "MOVE_EAST"; "MOVE_WEST";
   "MOVE_UP"; "MOVE_DOWN"; "HOVER"; "CHARGE"]%string.

(** The [if]/[elif] chain of [get_valid_actions] for one action. *)
Definition action_allowed (e : t)
    (zone_map : Z -> Z -> CityObstacles.ZoneType) (action : string) : bool :=
  let '(x, y, z) := Drone.position (drone e) in
  if String.eqb action "MOVE_NORTH" && Qlt_bool 0 y then true
  else if String.eqb action "MOVE_SOUTH"
          && Qlt_bool y (inject_Z (grid_size e - 1)) then true
  else if String.eqb action "MOVE_EAST"
          && Qlt_bool x (inject_Z (grid_size e - 1)) then true
  else if String.eqb action "MOVE_WEST" && Qlt_bool 0 x then true
  else if String.eqb action "MOVE_UP" && (z <? MAX_ALTITUDE - 1)%Z then true
  else if String.eqb action "MOVE_DOWN" && (0 <? z)%Z then true
  else if String.eqb action "HOVER" then true
  else if String.eqb action "CHARGE" then
    match CityObstacles.get_zone_type (obstacles e) zone_map x y with
    | CityObstacles.CHARGING_STATION => true
    | _ => false
    end
  else false.

(** [get_valid_actions()], for the city's zone-type grid. *)
Definition get_valid_actions (e : t)
    (zone_map : Z -> Z -> CityObstacles.ZoneType) : list string :=
  match List.filter (action_allowed e zone_map) actions with
  | [] => ["HOVER"%string]
  | valid => valid
  end.

(** The altitude invariant of a mission over city [o]. *)
Definition altitude_ok (o : CityObstacles.t) (e : t) : Prop :=
  obstacles e = o
  /\ (0 <= snd (Drone.position (drone e)) < MAX_ALTITUDE)%Z.
End CityEnvironment.

(** ** ai/logic_engine.py *)
Module LogicEngine.
Import Config.
Local Open Scope string_scope.

Inductive RuleType := SAFETY | EFFICIENCY | MISSION.

Definition RuleType_eqb (a b : RuleType) : bool :=
  match a, b with
  | SAFETY, SAFETY | EFFICIENCY, EFFICIENCY | MISSION, MISSION => true
  | _, _ => false
  end.

(** A rule.  [condition] is any callable on the observation dict; it
    yields [None] when the call raises. *)
Record Rule := mk_rule {
  name : string;
  rule_type : RuleType;
  condition : StateDict.t -> option bool;
  action : string;
  priority : Z;
  description : string
}.

(** Python [a and b] and [a or b] on predicates that may raise: the
    right operand is evaluated only when the left one does not decide. *)
Definition py_and (a b : option bool) : option bool :=
  match a with
  | Some true => b
  | Some false => Some false
  | None => None
  end.
Definition py_or (a b : option bool) : option bool :=
  match a with
  | Some true => Some true
  | Some false => b
  | None => None
  end.
Definition py_not (a : option bool) : option bool := negb <$> a.

(** [_load_safety_rules]. *)
Definition critical_battery : Rule :=
  mk_rule "critical_battery" SAFETY
    (fun state =>
       b ← StateDict.battery state; Some (Qle_bool b MIN_BATTERY_EMERGENCY))
    "HOVER" 100 "emergency landing on critically low battery".

Definition return_to_base : Rule :=
  mk_rule "return_to_base" SAFETY
    (fun state =>
       py_and (b ← StateDict.battery state;
               Some (Qle_bool b MIN_BATTERY_RETURN))
              (py_not (StateDict.has_cargo state)))
    "return_to_base" 90 "return to base on low battery".

Definition bad_weather : Rule :=
  mk_rule "bad_weather" SAFETY
    (fun state => py_not (StateDict.safe_to_fly state))
    "HOVER" 95 "stop or land in bad weather".

Definition no_fly_zone : Rule :=
  mk_rule "no_fly_zone" SAFETY
    (fun state => StateDict.in_no_fly_zone state)
    "avoid_area" 85 "avoid restricted areas".

Definition safe_altitude : Rule :=
  mk_rule "safe_altitude" SAFETY
    (fun state =>
       p ← StateDict.position state;
       let z := snd p in
       Some ((SAFETY_MAX_ALTITUDE_M <? z * ALTITUDE_STEP)%Z
             || (z * ALTITUDE_STEP <? SAFETY_MIN_ALTITUDE_M)%Z))
    "adjust_altitude" 80 "keep a safe altitude".

Definition avoid_obstacles : Rule :=
  mk_rule "avoid_obstacles" SAFETY
    (fun state =>
       Some ((0 <? default 0%Z (StateDict.nearby_obstacles state))%Z
             || default false (StateDict.obstacle_nearby state)))
    "evade" 88 "avoid buildings and nearby obstacles".

(** [_load_efficiency_rules]. *)
Definition direct_path : Rule :=
  mk_rule "direct_path" EFFICIENCY
    (fun state =>
       py_and (b ← StateDict.battery state; Some (Qlt_bool 50 b))
         (py_and (n ← StateDict.nearby_obstacles state; Some (n =? 0)%Z)
                 (StateDict.safe_to_fly state)))
    "move_direct" 30 "fly straight to the target when safe".

Definition conserve_energy : Rule :=
  mk_rule "conserve_energy" EFFICIENCY
    (fun state => b ← StateDict.battery state; Some (Qlt_bool b 40))
    "conserve_energy" 40 "save energy on low battery".

Definition optimal_altitude : Rule :=
  mk_rule "optimal_altitude" EFFICIENCY
    (fun state =>
       py_and (Some (Qlt_bool 15 (default 0%Q (StateDict.wind_speed state))))
              (p ← StateDict.position state; Some (snd p <? 80)%Z))
    "climb_higher" 25 "climb to escape strong wind".

(** [_load_mission_rules]. *)
Definition pickup_cargo : Rule :=
  mk_rule "pickup_cargo" MISSION
    (fun state =>
       py_and (py_not (StateDict.has_cargo state))
         (py_and (StateDict.at_pickup_location state)
                 (b ← StateDict.battery state;
                  Some (Qlt_bool (MIN_BATTERY_RETURN + 20) b))))
    "pickup" 60 "pick the cargo up at the pickup location".

Definition deliver_cargo : Rule :=
  mk_rule "deliver_cargo" MISSION
    (fun state =>
       py_and (StateDict.has_cargo state)
              (StateDict.at_delivery_location state))
    "deliver" 65 "deliver the cargo at the delivery location".

Definition go_to_pickup : Rule :=
  mk_rule "go_to_pickup" MISSION
    (fun state =>
       py_and (py_not (StateDict.has_cargo state))
         (py_and (py_not (StateDict.at_pickup_location state))
                 (b ← StateDict.battery state;
                  Some (Qlt_bool (MIN_BATTERY_RETURN + 30) b))))
    "move_to_pickup" 50 "head for the pickup location".

Definition go_to_delivery : Rule :=
  mk_rule "go_to_delivery" MISSION
    (fun state =>
       py_and (StateDict.has_cargo state)
              (py_not (StateDict.at_delivery_location state)))
    "move_to_delivery" 55 "head for the delivery location".

(** [list.sort(key=priority, reverse=True)]: a stable sort by
    descending priority. *)
Fixpoint insert_by_priority (r : Rule) (l : list Rule) : list Rule :=
  match l with
  | [] => [r]
  | x :: l' =>
    if (priority x <=? priority r)%Z then r :: x :: l'
    else x :: insert_by_priority r l'
  end.

Definition sort_by_priority (l : list Rule) : list Rule :=
  fold_right insert_by_priority [] l.

(** [add_rule(rule)]. *)
Definition add_rule (rules : list Rule) (rule : Rule) : list Rule :=
  sort_by_priority (rules ++ [rule]).

Definition _load_safety_rules (rules : list Rule) : list Rule :=
  fold_left add_rule
    [critical_battery; return_to_base; bad_weather; no_fly_zone;
     safe_altitude; avoid_obstacles] rules.

Definition _load_efficiency_rules (rules : list Rule) : list Rule :=
  fold_left add_rule [direct_path; conserve_energy; optimal_altitude] rules.

Definition _load_mission_rules (rules : list Rule) : list Rule :=
  fold_left add_rule
    [pickup_cargo; deliver_cargo; go_to_pickup; go_to_delivery] rules.

(** [LogicEngine()]: the rule list after construction. *)
Definition init : list Rule :=
  _load_mission_rules (_load_efficiency_rules (_load_safety_rules [])).

(** [evaluate_rules(state)]: a raising predicate is caught and counts as
    not triggered. *)
Definition evaluate_rules (rules : list Rule) (state : StateDict.t)
  : list (Rule * bool) :=
  map (fun rule =>
         match condition rule state with
         | Some is_triggered => (rule, is_triggered)
         | None => (rule, false)
         end)
      rules.

(** [get_triggered_rules(state)]. *)
Definition get_triggered_rules (rules : list Rule) (state : StateDict.t)
  : list Rule :=
  map fst (filter (fun p => snd p = true) (evaluate_rules rules state)).

(** [get_recommended_action(state)]. *)
Definition get_recommended_action (rules : list Rule) (state : StateDict.t)
  : string * option Rule :=
  match get_triggered_rules rules state with
  | top_rule :: _ => (action top_rule, Some top_rule)
  | [] => ("continue", None)
  end.

Definition mem (a : string) (l : list string) : bool :=
  existsb (String.eqb a) l.

(** The actions the first test of [_action_violates_rule] exempts. *)
Definition is_exempt (act : string) : bool :=
  mem act ["HOVER"; "CHARGE"; "wait"].

(** The static violation table. *)
Definition violations (rule_name : string) : list string :=
  if String.eqb rule_name "critical_battery" then
    ["MOVE_UP"; "HOVER"; "MOVE_NORTH"; "MOVE_SOUTH"; "MOVE_EAST"; "MOVE_WEST"]
  else if String.eqb rule_name "bad_weather" then
    ["MOVE_UP"; "MOVE_NORTH"; "MOVE_SOUTH"; "MOVE_EAST"; "MOVE_WEST"]
  else [].

(** [_action_violates_rule(action, rule, state)]. *)
Definition _action_violates_rule (act : string) (rule : Rule)
    (state : StateDict.t) : bool :=
  if is_exempt act then false
  else if String.eqb (name rule) "no_fly_zone"
          && default false
               (default ∅ (StateDict.neighbor_no_fly state) !! act)
  then true
  else
    let next_building_height :=
      default 0%Z (default ∅ (StateDict.neighbor_buildings state) !! act) in
    let curr_z :=
      snd (default (0%Q, 0%Q, 0%Z) (StateDict.position state)) in
    if String.eqb (name rule) "avoid_obstacles"
       && mem act ["MOVE_NORTH"; "MOVE_SOUTH"; "MOVE_EAST"; "MOVE_WEST"]
       && (curr_z <=? next_building_height)%Z
    then true
    else if String.eqb (name rule) "avoid_obstacles"
            && String.eqb act "MOVE_DOWN"
            && (curr_z - 1 <=? default 0%Z (StateDict.building_height state))%Z
    then true
    else mem act (violations (name rule)).

(** The loop of [is_action_safe]: the rule predicates are called without
    a handler, so a raising one aborts the call ([None]). *)
Fixpoint violated_rules (safety_rules : list Rule) (state : StateDict.t)
    (act : string) : option (list Rule) :=
  match safety_rules with
  | [] => Some []
  | rule :: rest =>
    triggered ← condition rule state;
    later ← violated_rules rest state act;
    Some (if triggered && _action_violates_rule act rule state
          then rule :: later else later)
  end.

(** [is_action_safe(state, action)]. *)
Definition is_action_safe (rules : list Rule) (state : StateDict.t)
    (act : string) : option (bool * list Rule) :=
  let safety_rules :=
    filter (fun r => RuleType_eqb (rule_type r) SAFETY = true) rules in
  violated ← violated_rules safety_rules state act;
  Some (match violated with [] => true | _ => false end, violated).

(** The loop of [get_valid_actions]. *)
Fixpoint safe_subset (rules : list Rule) (state : StateDict.t)
    (all_actions : list string) : option (list string) :=
  match all_actions with
  | [] => Some []
  | act :: rest =>
    '(is_safe, _) ← is_action_safe rules state act;
    later ← safe_subset rules state rest;
    Some (if is_safe : bool then act :: later else later)
  end.

(** [get_valid_actions(state, all_actions)]. *)
Definition get_valid_actions (rules : list Rule) (state : StateDict.t)
    (all_actions : list string) : option (list string) :=
  valid_actions ← safe_subset rules state all_actions;
  Some (match valid_actions with
        | [] => if mem "wait" all_actions then ["wait"] else []
        | _ => valid_actions
        end).

(** The order [add_rule] keeps the rule list in: higher priority
    first. *)
Definition higher_first (a b : Rule) : Prop := (priority b <= priority a)%Z.

(** Whether [is_action_safe] returns and accepts the action. *)
Definition passes (rules : list Rule) (state : StateDict.t) (act : string)
  : bool :=
  match is_action_safe rules state act with
  | Some (true, _) => true
  | _ => false
  end.

(** *** Example observations and rules *)

(** A laden vehicle at (5,5,3) with 3% battery in flyable weather. *)
Definition critical_state : StateDict.t :=
  StateDict.mk (Some (5%Q, 5%Q, 3%Z)) (Some 3%Q) (Some true)
    (Some (10%Q, (-5)%Q, 0%Z)) (Some 15%Q) (Some 0%Z) None (Some false)
    (Some 0%Z) None None (Some 10%Q) (Some true) (Some 12%Z)
    (Some false) (Some false).

(** The observation of the repository's rule-engine test, with the
    relative target added. *)
Definition test_state : StateDict.t :=
  StateDict.mk (Some (50%Q, 50%Q, 20%Z)) (Some 15%Q) (Some false)
    (Some (10%Q, 10%Q, 0%Z)) None (Some 0%Z) None (Some false)
    None None None None (Some true) None (Some false) (Some false).



(** A user-registered safety rule whose predicate divides by the
    obstacle count, and so raises [ZeroDivisionError] when no obstacle
    is near. *)
Definition clearance_margin : Rule :=
  mk_rule "clearance_margin" SAFETY
    (fun state =>
       b ← StateDict.battery state;
       n ← StateDict.nearby_obstacles state;
       if (n =? 0)%Z then None
       else Some (Qlt_bool (b / inject_Z n) 10))
    "HOVER" 70 "keep battery per nearby obstacle above a margin".
End LogicEngine.

(** ** ai/q_learning.py *)
Module QLearningAgent.
Import Config.
Local Open Scope Q_scope.

(** The agent.  The Q-table is a [defaultdict] of [defaultdict(float)]:
    state key -> action -> value. *)
Record t := mk {
  actions : list string;
  learning_rate : Q;
  discount_factor : Q;
  q_table : gmap (Z * Z * Z * Z * Z * Z * Z) (gmap string Q);
  epsilon : Q;
  epsilon_min : Q;
  epsilon_decay : Q;
  total_updates : Z;
  episodes_trained : Z
}.

(** [QLearningAgent(actions)]. *)
Definition init (acts : list string) : t :=
  mk acts LEARNING_RATE DISCOUNT_FACTOR ∅ EPSILON_START EPSILON_END
     EPSILON_DECAY 0 0.

Definition set_q_table
    (tbl : gmap (Z * Z * Z * Z * Z * Z * Z) (gmap string Q)) (a : t) : t :=
  mk (actions a) (learning_rate a) (discount_factor a) tbl (epsilon a)
     (epsilon_min a) (epsilon_decay a) (total_updates a)
     (episodes_trained a).

(** [get_state_key(state)]; [None] when a key is missing. *)
Definition get_state_key (state : StateDict.t)
  : option (Z * Z * Z * Z * Z * Z * Z) :=
  '(dx, dy, dz) ← StateDict.relative_target state;
  battery ← StateDict.battery state;
  has_cargo ← StateDict.has_cargo state;
  safe_to_fly ← StateDict.safe_to_fly state;
  nearby ← StateDict.nearby_obstacles state;
  no_fly ← StateDict.in_no_fly_zone state;
  let distance_bin := Z.min (Qfloor (Qabs dx + Qabs dy) / 5) 10 in
  let battery_bin := Qfloor (battery / 10) in
  let has_package := if has_cargo : bool then 1%Z else 0%Z in
  let weather_safe := if safe_to_fly : bool then 1%Z else 0%Z in
  let direction :=
    if Qlt_bool (Qabs dy) (Qabs dx)
    then (if Qlt_bool 0 dx then 0%Z else 4%Z)
    else (if Qlt_bool 0 dy then 2%Z else 6%Z) in
  let obstacles_nearby := Z.min nearby 5 in
  let in_no_fly := if no_fly : bool then 1%Z else 0%Z in
  Some (distance_bin, battery_bin, has_package, weather_safe, direction,
        obstacles_nearby, in_no_fly).

(** [self.q_table[state_key]]: reading a missing key of a [defaultdict]
    stores the default (an empty row) under it. *)
Definition touch_row
    (tbl : gmap (Z * Z * Z * Z * Z * Z * Z) (gmap string Q))
    (key : Z * Z * Z * Z * Z * Z * Z)
  : gmap string Q * gmap (Z * Z * Z * Z * Z * Z * Z) (gmap string Q) :=
  match tbl !! key with
  | Some row => (row, tbl)
  | None => (∅, <[key := ∅]> tbl)
  end.

(** [self.q_table[state_key][action]]: the same for the inner
    [defaultdict(float)], whose default is [0.0]. *)
Definition touch
    (tbl : gmap (Z * Z * Z * Z * Z * Z * Z) (gmap string Q))
    (key : Z * Z * Z * Z * Z * Z * Z) (action : string)
  : Q * gmap (Z * Z * Z * Z * Z * Z * Z) (gmap string Q) :=
  let '(row, tbl1) := touch_row tbl key in
  match row !! action with
  | Some v => (v, tbl1)
  | None => (0, <[key := <[action := 0]> row]> tbl1)
  end.

(** [get_q_value(state, action)]: the value and the agent after the
    call. *)
Definition get_q_value (a : t) (state : StateDict.t) (action : string)
  : option (Q * t) :=
  state_key ← get_state_key state;
  let '(v, tbl) := touch (q_table a) state_key action in
  Some (v, set_q_table tbl a).

(** The dict comprehension of [_get_best_action], in iteration order. *)
Fixpoint q_values_of
    (tbl : gmap (Z * Z * Z * Z * Z * Z * Z) (gmap string Q))
    (key : Z * Z * Z * Z * Z * Z * Z) (valid_actions : list string)
  : list (string * Q) * gmap (Z * Z * Z * Z * Z * Z * Z) (gmap string Q) :=
  match valid_actions with
  | [] => ([], tbl)
  | action :: rest =>
    let '(v, tbl1) := touch tbl key action in
    let '(later, tbl2) := q_values_of tbl1 key rest in
    ((action, v) :: later, tbl2)
  end.

(** [max(q_values, key=q_values.get)]: the first key of maximal value. *)
Fixpoint argmax (best : string * Q) (l : list (string * Q)) : string :=
  match l with
  | [] => fst best
  | x :: l' => if Qlt_bool (snd best) (snd x) then argmax x l'
               else argmax best l'
  end.

(** [_get_best_action(state, valid_actions)]; with no candidate,
    [np.random.choice] of an empty list raises. *)
Definition _get_best_action (a : t) (state : StateDict.t)
    (valid_actions : list string) : option (string * t) :=
  state_key ← get_state_key state;
  let '(q_values, tbl) := q_values_of (q_table a) state_key valid_actions in
  match q_values with
  | [] => None
  | first :: others => Some (argmax first others, set_q_table tbl a)
  end.

(** [get_best_action_greedy(state, valid_actions)]. *)
Definition get_best_action_greedy (a : t) (state : StateDict.t)
    (valid_actions : option (list string)) : option (string * t) :=
  _get_best_action a state (default (actions a) valid_actions).

(** [choose_action(state, valid_actions)], with the uniform draw [u] and
    the index [i] drawn by [np.random.choice]. *)
Definition choose_action (a : t) (state : StateDict.t)
    (valid_actions : option (list string)) (u : Q) (i : nat)
  : option (string * t) :=
  let candidates := default (actions a) valid_actions in
  if Qlt_bool u (epsilon a) then
    match candidates with
    | [] => None
    | c :: _ => Some (nth (i mod length candidates) candidates c, a)
    end
  else _get_best_action a state candidates.

(** [max(next_q_values.values()) if next_q_values else 0]. *)
Definition max_value (row : gmap string Q) : Q :=
  match map_to_list row with
  | [] => 0
  | (_, v) :: rest => fold_left (fun m kv => py_max m (snd kv)) rest v
  end.

(** [update(state, action, reward, next_state, done)]. *)
Definition update (a : t) (state : StateDict.t) (action : string)
    (reward : Q) (next_state : StateDict.t) (done : bool) : option t :=
  state_key ← get_state_key state;
  next_state_key ← get_state_key next_state;
  let '(current_q, tbl1) := touch (q_table a) state_key action in
  let '(max_next_q, tbl2) :=
    if done then (0, tbl1)
    else let '(next_q_values, tbl) := touch_row tbl1 next_state_key in
         (max_value next_q_values, tbl) in
  let new_q :=
    current_q
    + learning_rate a * (reward + discount_factor a * max_next_q - current_q)
  in
  let '(row, tbl3) := touch_row tbl2 state_key in
  Some (mk (actions a) (learning_rate a) (discount_factor a)
           (<[state_key := <[action := new_q]> row]> tbl3)
           (epsilon a) (epsilon_min a) (epsilon_decay a)
           (total_updates a + 1) (episodes_trained a)).

(** [decay_epsilon()]. *)
Definition decay_epsilon (a : t) : t :=
  mk (actions a) (learning_rate a) (discount_factor a) (q_table a)
     (py_max (epsilon_min a) (epsilon a * epsilon_decay a))
     (epsilon_min a) (epsilon_decay a) (total_updates a)
     (episodes_trained a).

(** The value the table holds for a state key and an action: the stored
    one, or the [0.0] a [defaultdict] read would give. *)
Definition value_of
    (tbl : gmap (Z * Z * Z * Z * Z * Z * Z) (gmap string Q))
    (key : Z * Z * Z * Z * Z * Z * Z) (action : string) : Q :=
  match tbl !! key with
  | Some row => default 0 (row !! action)
  | None => 0
  end.

(** What [save] pickles: [dict(self.q_table)] and the scalars. *)
Definition save (a : t)
  : gmap (Z * Z * Z * Z * Z * Z * Z) (gmap string Q) * Q * Z * Z :=
  (q_table a, epsilon a, episodes_trained a, total_updates a).
End QLearningAgent.

(** ** ai/hybrid_controller.py *)
Module HybridController.
Import Config.
Local Open Scope string_scope.

Inductive DecisionType :=
| safety_critical | goal_oriented_heuristic | hybrid_greedy | emergency.

Record t := mk {
  actions : list string;
  q_agent : QLearningAgent.t;
  logic_engine : list LogicEngine.Rule;
  decisions_made : Z;
  safety_overrides : Z;
  logic_suggestions : Z
}.

(** [HybridController(actions)]. *)
Definition init (acts : list string) : t :=
  mk acts (QLearningAgent.init acts) LogicEngine.init 0 0 0.

(** The [decision_info] dict; [violated_rules] is set by the post-hoc
    veto only. *)
Record DecisionInfo := mk_info {
  triggered_rules : nat;
  top_rule : option string;
  safe_actions_count : nat;
  recommended_action : string;
  decision_type : DecisionType;
  q_values : gmap string Q;
  safety_override : bool;
  violated_rules : option (list string)
}.

(** Truth value of a string. *)
Definition nonempty (s : string) : bool := negb (String.eqb s EmptyString).

Definition unit_delta (action : string) : Z * Z * Z :=
  if String.eqb action "MOVE_NORTH" then (0, -1, 0)%Z
  else if String.eqb action "MOVE_SOUTH" then (0, 1, 0)%Z
  else if String.eqb action "MOVE_EAST" then (1, 0, 0)%Z
  else if String.eqb action "MOVE_WEST" then (-1, 0, 0)%Z
  else if String.eqb action "MOVE_UP" then (0, 0, 1)%Z
  else if String.eqb action "MOVE_DOWN" then (0, 0, -1)%Z
  else (0, 0, 0)%Z.

(** [_get_goal_oriented_action(state, safe_actions)]; the running
    minimum starts at infinity ([None]). *)
Definition _get_goal_oriented_action (state : StateDict.t)
    (safe_actions : list string) : option string :=
  match StateDict.relative_target state with
  | None => None
  | Some (dx, dy, dz) =>
    let scan (acc : option string * option Q) (action : string) :=
      let '(adx, ady, adz) := unit_delta action in
      let new_dist :=
        (Qabs (dx - inject_Z adx) + Qabs (dy - inject_Z ady)
         + inject_Z (Z.abs (dz - adz)))%Q in
      match snd acc with
      | None => (Some action, Some new_dist)
      | Some min_dist =>
        if Qlt_bool new_dist min_dist then (Some action, Some new_dist)
        else acc
      end in
    let '(best_action, min_dist) := fold_left scan safe_actions (None, None) in
    let current_dist := (Qabs dx + Qabs dy + inject_Z (Z.abs dz))%Q in
    match min_dist with
    | Some m => if Qlt_bool m current_dist then best_action else None
    | None => None
    end
  end.

(** Manhattan distance to the target, from the relative target: now,
    and after moving one cell by [action]. *)
Definition current_distance (rel : Q * Q * Z) : Q :=
  let '(dx, dy, dz) := rel in
  (Qabs dx + Qabs dy + inject_Z (Z.abs dz))%Q.

Definition distance_after (rel : Q * Q * Z) (action : string) : Q :=
  let '(dx, dy, dz) := rel in
  let '(adx, ady, adz) := unit_delta action in
  (Qabs (dx - inject_Z adx) + Qabs (dy - inject_Z ady)
   + inject_Z (Z.abs (dz - adz)))%Q.

(** The loop body of [_get_goal_oriented_action]. *)
Definition closer (rel : Q * Q * Z) (acc : option string * option Q)
    (action : string) : option string * option Q :=
  match snd acc with
  | None => (Some action, Some (distance_after rel action))
  | Some min_dist =>
    if Qlt_bool (distance_after rel action) min_dist
    then (Some action, Some (distance_after rel action))
    else acc
  end.

(** The loop filling [decision_info['q_values']]. *)
Fixpoint record_q_values (agent : QLearningAgent.t) (state : StateDict.t)
    (safe_actions : list string) (acc : gmap string Q)
  : option (gmap string Q * QLearningAgent.t) :=
  match safe_actions with
  | [] => Some (acc, agent)
  | safe_action :: rest =>
    '(v, agent1) ← QLearningAgent.get_q_value agent state safe_action;
    record_q_values agent1 state rest (<[safe_action := v]> acc)
  end.

Definition is_critical (r : LogicEngine.Rule) : bool :=
  LogicEngine.RuleType_eqb (LogicEngine.rule_type r) LogicEngine.SAFETY
  && (90 <=? LogicEngine.priority r)%Z.

(** Step 4 of [choose_action]: the action, the decision type, the
    recorded Q-values, the override flag, the agent and the override
    counter after the three-way branch. *)
Definition decide (c : t) (state : StateDict.t) (training : bool)
    (triggered : list LogicEngine.Rule) (safe_actions : list string)
  : option (string * DecisionType * gmap string Q * bool
            * QLearningAgent.t * Z) :=
  let critical_rules := filter (fun r => is_critical r = true) triggered in
  match critical_rules with
  | rule :: _ =>
    Some (LogicEngine.action rule, safety_critical, ∅, true, q_agent c,
          (safety_overrides c + 1)%Z)
  | [] =>
    match safe_actions with
    | _ :: _ =>
      '(best_q_action, agent1) ←
        QLearningAgent.get_best_action_greedy (q_agent c) state
          (Some safe_actions);
      '(q_val, agent2) ←
        QLearningAgent.get_q_value agent1 state best_q_action;
      let '(action, dtype) :=
        if (training && Qlt_bool (3 # 10) (QLearningAgent.epsilon agent2))
           || Qlt_bool q_val (1 # 10)
        then
          match _get_goal_oriented_action state safe_actions with
          | Some best_move =>
            if nonempty best_move then (best_move, goal_oriented_heuristic)
            else (best_q_action, hybrid_greedy)
          | None => (best_q_action, hybrid_greedy)
          end
        else (best_q_action, hybrid_greedy) in
      '(qv, agent3) ← record_q_values agent2 state safe_actions ∅;
      Some (action, dtype, qv, false, agent3, safety_overrides c)
    | [] =>
      Some ("emergency_land", emergency, ∅, true, q_agent c,
            (safety_overrides c + 1)%Z)
    end
  end.

(** [choose_action(state, training)]: the action, the decision info and
    the controller after the call; [None] when the call raises. *)
Definition choose_action (c : t) (state : StateDict.t) (training : bool)
  : option (string * DecisionInfo * t) :=
  let made := (decisions_made c + 1)%Z in
  let triggered := LogicEngine.get_triggered_rules (logic_engine c) state in
  let '(recommended, top) :=
    LogicEngine.get_recommended_action (logic_engine c) state in
  safe_actions ←
    LogicEngine.get_valid_actions (logic_engine c) state (actions c);
  '(action, dtype, qv, override, agent, overrides) ←
    decide c state training triggered safe_actions;
  '(is_safe, violated) ←
    LogicEngine.is_action_safe (logic_engine c) state action;
  let vetoed :=
    negb is_safe && negb (match dtype with emergency => true | _ => false end)
  in
  let action' := if vetoed then "wait" else action in
  let info :=
    mk_info (length triggered) (LogicEngine.name <$> top)
      (length safe_actions) recommended dtype qv
      (if vetoed then true else override)
      (if vetoed then Some (map LogicEngine.name violated) else None) in
  let overrides' := if vetoed then (overrides + 1)%Z else overrides in
  let suggestions :=
    if nonempty recommended && String.eqb action' recommended
    then (logic_suggestions c + 1)%Z else logic_suggestions c in
  Some (action', info,
        mk (actions c) agent (logic_engine c) made overrides' suggestions).


(** [update(...)]: forwarded to the learning agent. *)
Definition update (c : t) (state : StateDict.t) (action : string)
    (reward : Q) (next_state : StateDict.t) (done : bool) : option t :=
  agent ← QLearningAgent.update (q_agent c) state action reward next_state
            done;
  Some (mk (actions c) agent (logic_engine c) (decisions_made c)
           (safety_overrides c) (logic_suggestions c)).
End HybridController.

(* ===================================================================== *)
(** * Properties *)
(* ===================================================================== *)

Lemma Qle_bool_false (a b : Q) : Qle_bool a b = false <-> (b < a)%Q.
Proof.
  split; intros H.
  - apply Qnot_le_lt. intros Hle. apply Qle_bool_iff in Hle. congruence.
  - destruct (Qle_bool a b) eqn:E; [|reflexivity].
    apply Qle_bool_iff in E. lra.
Qed.

Lemma py_max_spec (a b : Q) :
  ((b <= a)%Q /\ py_max a b = a) \/ ((a < b)%Q /\ py_max a b = b).
Proof.
  unfold py_max. destruct (Qle_bool b a) eqn:E.
  - left. split; [now apply Qle_bool_iff|reflexivity].
  - right. split; [now apply Qle_bool_false|reflexivity].
Qed.

Lemma py_min_spec (a b : Q) :
  ((a <= b)%Q /\ py_min a b = a) \/ ((b < a)%Q /\ py_min a b = b).
Proof.
  unfold py_min. destruct (Qle_bool a b) eqn:E.
  - left. split; [now apply Qle_bool_iff|reflexivity].
  - right. split; [now apply Qle_bool_false|reflexivity].
Qed.

(** ** Vehicle: battery bounds and the charging flag *)
Section DroneFacts.
Import Config Drone.
Local Open Scope Q_scope.

Lemma movement_cost_nonneg d a dx dy dz c :
  movement d a = Some (dx, dy, dz, c) -> 0 <= percent c.
Proof.
  unfold movement, _calculate_movement_energy, percent.
  repeat (destruct (String.eqb a _); [intros [= <- <- <- <-] | ]);
    try (intros [= <- <- <- <-]); try discriminate;
    destruct (has_package d); vm_compute; discriminate.
Qed.

Lemma charge_spec d :
  Qle_bool 100 (battery d) = false ->
  let b := py_min 100 (battery d + percent CHARGING_RATE) in
  fst (_charge d) = true
  /\ battery (snd (_charge d)) = b
  /\ is_charging (snd (_charge d)) = negb (Qle_bool 100 b)
  /\ position (snd (_charge d)) = position d.
Proof.
  intros E b. unfold _charge. rewrite E. cbn.
  fold (percent CHARGING_RATE). fold b.
  destruct (Qle_bool 100 b); cbn; auto.
Qed.

Lemma percent_charging_rate : percent CHARGING_RATE == 10.
Proof. vm_compute. reflexivity. Qed.

Lemma charge_battery_ok d :
  battery_ok d -> is_charging d = false -> battery_ok (snd (_charge d)).
Proof.
  intros [[H0 H100] Hc] Hn.
  destruct (Qle_bool 100 (battery d)) eqn:E.
  - unfold _charge. rewrite E. split; [split|]; assumption.
  - destruct (charge_spec d E) as (_ & Hb & Hch & _).
    pose proof percent_charging_rate as Hp.
    unfold battery_ok. rewrite Hb, Hch.
    destruct (py_min_spec 100 (battery d + percent CHARGING_RATE))
      as [[Hle Heq]|[Hlt Heq]]; rewrite Heq.
    + split; [lra | discriminate].
    + split; [|intros _]; lra.
Qed.

Lemma move_motion d a w dx dy dz c :
  is_crashed d = false -> is_charging d = false ->
  Qle_bool (battery d) 0 = false ->
  movement d a = Some (dx, dy, dz, c) ->
  fst (move d a w) = true
  /\ battery (snd (move d a w)) = py_max 0 (battery d - percent c)
  /\ is_charging (snd (move d a w)) = false
  /\ is_crashed (snd (move d a w)) = false.
Proof.
  intros Hcr Hch Hb Hm. unfold move. rewrite Hcr, Hch, Hb, Hm. cbn [orb].
  destruct (position d) as [[px py] pz].
  destruct (negb (Qeq_bool _ _) || negb (Qeq_bool _ _)); cbn; auto.
Qed.

Lemma move_battery_ok d a w : battery_ok d -> battery_ok (snd (move d a w)).
Proof.
  intros Hok. pose proof Hok as [[H0 H100] Hc].
  destruct (is_crashed d || is_charging d) eqn:Eg.
  { unfold move. rewrite Eg. exact Hok. }
  apply orb_false_iff in Eg as [Hcr Hch].
  destruct (Qle_bool (battery d) 0) eqn:Eb.
  { unfold move. rewrite Hcr, Hch, Eb. split; [split|]; simpl; auto. }
  destruct (movement d a) as [[[[dx dy] dz] c]|] eqn:Em.
  - pose proof (movement_cost_nonneg _ _ _ _ _ _ Em) as Hcost.
    destruct (move_motion d a w _ _ _ _ Hcr Hch Eb Em) as (_ & Hb & Hcf & _).
    unfold battery_ok. rewrite Hb, Hcf. split; [|discriminate].
    destruct (py_max_spec 0 (battery d - percent c))
      as [[Hle Heq]|[Hlt Heq]]; rewrite Heq; lra.
  - unfold move. rewrite Hcr, Hch, Eb, Em. now apply charge_battery_ok.
Qed.

Lemma run_op_battery_ok d o : battery_ok d -> battery_ok (run_op d o).
Proof.
  intros Hok. destruct o; simpl.
  - unfold battery_ok; simpl. split; [lra | discriminate].
  - now apply move_battery_ok.
  - unfold update_payload_condition.
    destruct (negb (has_package d)); [exact Hok|].
    destruct (Qle_bool PAYLOAD_MAX_TIME _); [exact Hok|].
    destruct (Qle_bool PAYLOAD_SPOILAGE_WARNING _); exact Hok.
  - exact Hok.
  - unfold pickup_cargo. destruct (has_package d); exact Hok.
  - unfold deliver_cargo. destruct (negb (has_package d)); exact Hok.
  - exact Hok.
Qed.

Lemma reachable_battery_ok d : reachable d -> battery_ok d.
Proof.
  induction 1 as [start | d o _ IH].
  - unfold battery_ok; simpl. split; [lra | discriminate].
  - now apply run_op_battery_ok.
Qed.

(** C3: in every reachable vehicle state, and after every further
    operation, the battery lies in [0,100]; a motion whose cost exceeds
    the remaining charge leaves exactly 0 (otherwise it subtracts the
    cost), charging never goes past 100, and with the battery at 0 the
    next move attempt moves nothing, fails and leaves the vehicle crashed
    with the battery still at 0, the reason being "battery_depleted"
    unless the vehicle had already crashed before. *)
Theorem battery_stays_within_bounds (d : Drone.t) (Hreach : reachable d) :
  (0 <= battery d <= 100)
  /\ (forall o, 0 <= battery (run_op d o) <= 100)
  /\ (forall a w dx dy dz c,
        is_crashed d = false -> is_charging d = false -> 0 < battery d ->
        movement d a = Some (dx, dy, dz, c) ->
        fst (move d a w) = true
        /\ (battery d <= percent c -> battery (snd (move d a w)) == 0)
        /\ (percent c < battery d ->
             battery (snd (move d a w)) == battery d - percent c))
  /\ (forall w,
        is_crashed d = false -> is_charging d = false -> 0 < battery d ->
        battery d < 100 ->
        fst (move d "CHARGE" w) = true
        /\ (90 <= battery d -> battery (snd (move d "CHARGE" w)) == 100)
        /\ (battery d < 90 ->
             battery (snd (move d "CHARGE" w)) == battery d + 10))
  /\ (forall a w,
        battery d <= 0 ->
        fst (move d a w) = false
        /\ is_crashed (snd (move d a w)) = true
        /\ battery (snd (move d a w)) = battery d
        /\ position (snd (move d a w)) = position d
        /\ battery (snd (move d a w)) == 0
        /\ (is_crashed d = false ->
             crash_reason (snd (move d a w)) = Some "battery_depleted"%string)).
Proof.
  pose proof (reachable_battery_ok d Hreach) as Hok.
  pose proof Hok as [[H0 H100] Hc].
  split; [split; assumption|].
  split; [intros o; apply (run_op_battery_ok d o Hok)|].
  split; [|split].
  - intros a w dx dy dz c Hcr Hch Hpos Hm.
    apply Qle_bool_false in Hpos.
    destruct (move_motion d a w _ _ _ _ Hcr Hch Hpos Hm) as (Hf & Hb & _).
    rewrite Hb. split; [exact Hf|].
    destruct (py_max_spec 0 (battery d - percent c))
      as [[Hle Heq]|[Hlt Heq]]; rewrite Heq; split; intros; lra.
  - intros w Hcr Hch Hpos Hlt.
    assert (E : Qle_bool 100 (battery d) = false)
      by (apply Qle_bool_false; assumption).
    apply Qle_bool_false in Hpos.
    assert (Hmv : move d "CHARGE" w = _charge d)
      by (unfold move; rewrite Hcr, Hch, Hpos; reflexivity).
    rewrite Hmv. destruct (charge_spec d E) as (Hf & Hb & _).
    pose proof percent_charging_rate as Hp. rewrite Hb.
    split; [exact Hf|].
    destruct (py_min_spec 100 (battery d + percent CHARGING_RATE))
      as [[Hle Heq]|[Hlt' Heq]]; rewrite Heq; split; intros; lra.
  - intros a w Hle. unfold move.
    destruct (is_crashed d) eqn:Hcr; simpl.
    + repeat split; auto; try lra; try discriminate.
    + destruct (is_charging d) eqn:Hch; simpl.
      * specialize (Hc eq_refl). lra.
      * assert (E : Qle_bool (battery d) 0 = true)
          by (apply Qle_bool_iff; assumption).
        rewrite E. simpl. repeat split; auto; lra.
Qed.

Lemma reachable_run_ops d os : reachable d -> reachable (run_ops d os).
Proof.
  revert d. induction os as [|o os IH]; intros d Hd; [exact Hd|].
  apply IH. now apply reach_op.
Qed.

Lemma battery_stays_within_bounds_witness :
  reachable exhausted
  /\ battery exhausted == 0
  /\ is_crashed exhausted = false
  /\ (forall a w,
        fst (move exhausted a w) = false
        /\ battery (snd (move exhausted a w)) == 0
        /\ crash_reason (snd (move exhausted a w))
            = Some "battery_depleted"%string).
Proof.
  assert (Hr : reachable exhausted)
    by (apply reachable_run_ops, reach_init).
  assert (Hb : battery exhausted == 0) by (vm_compute; reflexivity).
  assert (Hle : battery exhausted <= 0) by (vm_compute; discriminate).
  assert (Hc : is_crashed exhausted = false) by (vm_compute; reflexivity).
  split; [exact Hr|]. split; [exact Hb|]. split; [exact Hc|].
  intros a w.
  destruct (battery_stays_within_bounds exhausted Hr)
    as (_ & _ & _ & _ & Hdep).
  destruct (Hdep a w Hle) as (Hf & _ & _ & _ & H0 & Hreason).
  split; [exact Hf|]. split; [exact H0|]. exact (Hreason Hc).
Defined.

Lemma charging_blocks_op d o :
  is_charging d = true -> is_reset o = false ->
  is_charging (run_op d o) = true
  /\ position (run_op d o) = position d
  /\ battery (run_op d o) = battery d.
Proof.
  intros Hch Hnr. destruct o; try discriminate; cbn.
  - unfold move. rewrite Hch, orb_true_r. auto.
  - unfold update_payload_condition.
    destruct (negb (has_package d)); [auto|].
    destruct (Qle_bool PAYLOAD_MAX_TIME _); [auto|].
    destruct (Qle_bool PAYLOAD_SPOILAGE_WARNING _); auto.
  - auto.
  - unfold pickup_cargo. destruct (has_package d); auto.
  - unfold deliver_cargo. destruct (negb (has_package d)); auto.
  - auto.
Qed.

Lemma charging_blocks_ops d os :
  is_charging d = true -> existsb is_reset os = false ->
  is_charging (run_ops d os) = true
  /\ position (run_ops d os) = position d
  /\ battery (run_ops d os) = battery d.
Proof.
  revert d. induction os as [|o os IH]; intros d Hch Hnr; [auto|].
  cbn in Hnr. apply orb_false_iff in Hnr as [Ho Hos].
  destruct (charging_blocks_op d o Hch Ho) as (H1 & H2 & H3).
  destruct (IH (run_op d o) H1 Hos) as (H4 & H5 & H6).
  change (run_ops d (o :: os)) with (run_ops (run_op d o) os).
  rewrite H4, H5, H6, H2, H3. auto.
Qed.

(** C10: when CHARGE is executed (vehicle neither crashed nor charging,
    battery above 0) and the increment leaves the battery below 100, the
    charging flag is set, and after any sequence of later operations
    without a reset it is still set, position and battery are what they
    were right after that charge, and every move call, CHARGE included,
    returns false and changes nothing. *)
Theorem charging_flag_never_cleared (d : Drone.t) (w : Q * Q)
    (Hcr : is_crashed d = false) (Hch : is_charging d = false)
    (Hpos : 0 < battery d) (Hroom : battery d + 10 < 100) :
  let d1 := snd (move d "CHARGE" w) in
  fst (move d "CHARGE" w) = true
  /\ is_charging d1 = true
  /\ position d1 = position d
  /\ battery d1 == battery d + 10
  /\ forall os, existsb is_reset os = false ->
       let d2 := run_ops d1 os in
       is_charging d2 = true
       /\ position d2 = position d1
       /\ battery d2 = battery d1
       /\ forall a w', move d2 a w' = (false, d2).
Proof.
  intros d1.
  assert (E : Qle_bool 100 (battery d) = false)
    by (apply Qle_bool_false; lra).
  apply Qle_bool_false in Hpos.
  assert (Hmv : move d "CHARGE" w = _charge d)
    by (unfold move; rewrite Hcr, Hch, Hpos; reflexivity).
  subst d1. rewrite Hmv.
  destruct (charge_spec d E) as (Hf & Hb & Hc & Hp).
  pose proof percent_charging_rate as Hpc.
  assert (Hmin : py_min 100 (battery d + percent CHARGING_RATE)
                 = battery d + percent CHARGING_RATE).
  { destruct (py_min_spec 100 (battery d + percent CHARGING_RATE))
      as [[Hle _]|[_ Heq]]; [lra | exact Heq]. }
  rewrite Hmin in Hb, Hc.
  assert (Hc' : is_charging (snd (_charge d)) = true).
  { rewrite Hc. apply negb_true_iff, Qle_bool_false. lra. }
  split; [exact Hf|]. split; [exact Hc'|]. split; [exact Hp|].
  split; [rewrite Hb; lra|].
  intros os Hos d2.
  destruct (charging_blocks_ops _ os Hc' Hos) as (H1 & H2 & H3).
  split; [exact H1|]. split; [exact H2|]. split; [exact H3|].
  intros a w'. unfold move. subst d2. rewrite H1, orb_true_r. reflexivity.
Qed.

Lemma charging_flag_never_cleared_witness :
  let d1 := snd (move half_charged "CHARGE" (0, 0)) in
  let d2 := run_ops d1 [OpMove "MOVE_NORTH" (0, 0); OpUpdatePayload 1;
                        OpMove "CHARGE" (0, 0); OpMove "HOVER" (1 # 4, 0)] in
  is_charging d1 = true
  /\ is_charging d2 = true
  /\ position d2 = position half_charged
  /\ battery d2 == 60
  /\ move d2 "CHARGE" (0, 0) = (false, d2).
Proof.
  intros d1 d2.
  assert (Hcr : is_crashed half_charged = false) by reflexivity.
  assert (Hch : is_charging half_charged = false) by reflexivity.
  assert (Hpos : 0 < battery half_charged) by (vm_compute; reflexivity).
  assert (Hroom : battery half_charged + 10 < 100)
    by (vm_compute; reflexivity).
  destruct (charging_flag_never_cleared half_charged (0, 0)
              Hcr Hch Hpos Hroom) as (_ & H1 & Hp & Hb & Hlater).
  destruct (Hlater [OpMove "MOVE_NORTH" (0, 0); OpUpdatePayload 1;
                    OpMove "CHARGE" (0, 0); OpMove "HOVER" (1 # 4, 0)]
              eq_refl) as (H2 & H3 & H4 & Hmv).
  split; [exact H1|]. split; [exact H2|].
  split; [subst d2 d1; rewrite H3; exact Hp|].
  split; [subst d2 d1; rewrite H4, Hb; vm_compute; reflexivity|].
  apply Hmv.
Defined.
End DroneFacts.

(** ** Environment: the step pipeline *)
Section EnvironmentFacts.
Import Config CityEnvironment.
Local Open Scope Q_scope.

Lemma reachable_run o e ticks : reachable o e -> reachable o (run e ticks).
Proof.
  revert e. induction ticks as [|[a r] ticks IH]; intros e He; [exact He|].
  apply IH. now apply reach_step.
Qed.

(** The timeout block has no [done] guard: at the episode cap it rewrites
    status and reward whatever the earlier checks decided. *)
Lemma check_timeout_ignores_done k :
  (MAX_STEPS_PER_EPISODE <= current_step (env k))%Z ->
  mission_status (env (check_timeout k)) = FAILED_TIMEOUT
  /\ reward (check_timeout k) = REWARD_COLLISION
  /\ done (check_timeout k) = true.
Proof.
  intros H. unfold check_timeout.
  destruct (Z.leb_spec MAX_STEPS_PER_EPISODE (current_step (env k)));
    [cbn; auto | lia].
Qed.

(** C1 (the code departs from the claim).  In the corner mission the
    vehicle hovers for 999 ticks and flies east on tick 1000, arriving
    within one cell of the lab with its cargo: right after the
    target-arrival block the tick is terminal with status SUCCESS and
    reward 1000, the cargo is delivered, and yet [step] returns
    FAILED_TIMEOUT with reward -500, the timeout block having replaced
    both. *)
Theorem timeout_overwrites_success :
  reachable corner_city last_tick
  /\ current_step last_tick = 999%Z
  /\ mission_status last_tick = IN_PROGRESS
  /\ (let k := after_target_block last_tick "MOVE_EAST" dying in
      mission_status (env k) = SUCCESS /\ done k = true
      /\ reward k == 1000
      /\ Drone.cargo (drone (env k)) = None)
  /\ (let res := step last_tick "MOVE_EAST" dying in
      mission_status (env_of res) = FAILED_TIMEOUT
      /\ status_of (info_of res) = FAILED_TIMEOUT
      /\ done_of res = true /\ reward_of res == -500
      /\ Drone.cargo (drone (env_of res)) = None).
Proof.
  split; [apply reachable_run, reach_create|].
  vm_compute. repeat split; reflexivity.
Qed.

(** C1, second instance.  On the first tick of the guarded mission the
    vehicle flies east into a building that stands inside a no-fly zone:
    the collision check fires (its counter goes to 1) and sets
    FAILED_COLLISION, then the no-fly check of the same tick replaces
    status and reward by FAILED_INTERCEPTION and -800. *)
Lemma interception_overwrites_collision :
  reachable guarded_city guarded_start
  /\ (let res := step guarded_start "MOVE_EAST" steady in
      collisions (env_of res) = 1%Z /\ interceptions (env_of res) = 1%Z
      /\ mission_status (env_of res) = FAILED_INTERCEPTION
      /\ status_of (info_of res) = FAILED_INTERCEPTION
      /\ done_of res = true /\ reward_of res == -800).
Proof.
  split; [apply reach_create|].
  vm_compute. repeat split; reflexivity.
Qed.

(** C7: when cargo is held and more than 1800 s have passed since pickup,
    [step] ends the mission whatever the action and the weather draws:
    it returns done with the fixed spoilage reward -400 and status
    FAILED_PAYLOAD_SPOILED, and nothing after the spoilage check has
    run: the vehicle has not moved, spent energy, crashed or delivered,
    the storm counter and the other failure counters are untouched and
    the reward is not added to the mission total. *)
Theorem spoiled_payload_ends_mission (e : CityEnvironment.t)
    (action : string) (r : WeatherSystem.draw)
    (Hcargo : Drone.has_package (drone e) = true)
    (Hold : 1800 < Drone.time_since_pickup (drone e)) :
  let res := step e action r in
  let e' := env_of res in
  done_of res = true
  /\ reward_of res = REWARD_PAYLOAD_SPOILED /\ reward_of res == -400
  /\ mission_status e' = FAILED_PAYLOAD_SPOILED
  /\ info_of res = InfoEarly FAILED_PAYLOAD_SPOILED "payload_spoiled"
  /\ state_of res = _get_state e'
  /\ payload_spoilages e' = (payload_spoilages e + 1)%Z
  /\ current_step e' = (current_step e + 1)%Z
  /\ Drone.position (drone e') = Drone.position (drone e)
  /\ Drone.battery (drone e') = Drone.battery (drone e)
  /\ Drone.is_crashed (drone e') = Drone.is_crashed (drone e)
  /\ Drone.is_charging (drone e') = Drone.is_charging (drone e)
  /\ Drone.cargo (drone e') = Drone.cargo (drone e)
  /\ Drone.has_package (drone e') = true
  /\ Drone.steps_in_storm (drone e') = Drone.steps_in_storm (drone e)
  /\ total_reward e' = total_reward e
  /\ collisions e' = collisions e
  /\ interceptions e' = interceptions e
  /\ storm_crashes e' = storm_crashes e.
Proof.
  unfold env_of, state_of, reward_of, done_of, info_of, step.
  cbn [drone set_current_step set_weather set_drone].
  unfold Drone.update_payload_condition. rewrite Hcargo. cbn [negb].
  assert (E : Qle_bool PAYLOAD_MAX_TIME
                (Drone.time_since_pickup (drone e) + 1) = true).
  { apply Qle_bool_iff. unfold PAYLOAD_MAX_TIME. lra. }
  rewrite E. cbn. rewrite Hcargo. repeat split; reflexivity.
Qed.

Lemma spoiled_payload_ends_mission_witness :
  let e := set_drone
             (Drone.set_payload Drone.Warning 1850 (drone guarded_start))
             guarded_start in
  Drone.has_package (drone e) = true
  /\ 1800 < Drone.time_since_pickup (drone e)
  /\ mission_status (env_of (step e "MOVE_EAST" steady))
     = FAILED_PAYLOAD_SPOILED
  /\ reward_of (step e "MOVE_EAST" steady) == -400
  /\ done_of (step e "MOVE_EAST" steady) = true
  /\ Drone.position (drone (env_of (step e "MOVE_EAST" steady)))
     = Drone.position (drone e).
Proof.
  intros e.
  assert (Hcargo : Drone.has_package (drone e) = true) by reflexivity.
  assert (Hold : 1800 < Drone.time_since_pickup (drone e))
    by (vm_compute; reflexivity).
  destruct (spoiled_payload_ends_mission e "MOVE_EAST" steady Hcargo Hold)
    as (Hd & _ & Hr & Hs & _ & _ & _ & _ & Hp & _).
  repeat split; assumption.
Defined.

(** *** Altitude of the observed position *)

Lemma move_altitude d a w :
  (0 <= snd (Drone.position d) < MAX_ALTITUDE)%Z ->
  (0 <= snd (Drone.position (snd (Drone.move d a w))) < MAX_ALTITUDE)%Z.
Proof.
  intros Hz. unfold Drone.move.
  destruct (Drone.is_crashed d || Drone.is_charging d); [exact Hz|].
  destruct (Qle_bool (Drone.battery d) 0); [exact Hz|].
  destruct (Drone.movement d a) as [[[[dx dy] dz] c]|].
  - destruct (Drone.position d) as [[px py] pz]. cbn [snd] in Hz.
    match goal with
    | |- (_ <= snd (Drone.position (snd (true, ?d'))) < _)%Z =>
      assert (Hp : snd (Drone.position d')
                   = Z.max 0 (Z.min (MAX_ALTITUDE - 1) (pz + dz)))
        by (destruct (negb (Qeq_bool _ _) || negb (Qeq_bool _ _));
            reflexivity)
    end.
    cbn [snd] in Hp |- *. rewrite Hp. unfold MAX_ALTITUDE in *. lia.
  - unfold Drone._charge.
    destruct (Qle_bool 100 (Drone.battery d)); [exact Hz|].
    cbn. destruct (Qle_bool 100 _); exact Hz.
Qed.

Lemma move_lateral_bounds d a w dx dy dz c :
  Drone.is_crashed d = false -> Drone.is_charging d = false ->
  0 < Drone.battery d ->
  Drone.movement d a = Some (dx, dy, dz, c) ->
  let '(x, y, _) := Drone.position (snd (Drone.move d a w)) in
  0 <= x <= inject_Z (GRID_SIZE - 1) /\ 0 <= y <= inject_Z (GRID_SIZE - 1).
Proof.
  intros Hcr Hch Hb Hm. apply Qle_bool_false in Hb.
  unfold Drone.move. rewrite Hcr, Hch, Hb, Hm. cbn [orb].
  destruct (Drone.position d) as [[px py] pz].
  assert (Hclamp : forall v,
    0 <= py_max 0 (py_min (inject_Z (GRID_SIZE - 1)) v)
         <= inject_Z (GRID_SIZE - 1)).
  { intros v. assert (Hg : inject_Z (GRID_SIZE - 1) == 49) by reflexivity.
    destruct (py_min_spec (inject_Z (GRID_SIZE - 1)) v)
      as [[H1 E1]|[H1 E1]]; rewrite E1;
    match goal with |- _ <= py_max 0 ?u <= _ =>
      destruct (py_max_spec 0 u) as [[H2 E2]|[H2 E2]]; rewrite E2
    end; lra. }
  destruct (negb (Qeq_bool _ _) || negb (Qeq_bool _ _)); cbn;
    split; apply Hclamp.
Qed.

Lemma check_collision_place pos k : same_place k (check_collision pos k).
Proof.
  unfold check_collision, same_place. destruct pos as [[x y] z].
  destruct (CityObstacles.is_collision _ _ _ _); cbn; auto.
Qed.

Lemma check_no_fly_place pos k : same_place k (check_no_fly pos k).
Proof.
  unfold check_no_fly, same_place. destruct pos as [[x y] z].
  destruct (CityObstacles.is_no_fly_zone _ _ _); cbn; auto.
Qed.

Lemma check_storm_place k : same_place k (check_storm k).
Proof.
  unfold check_storm, same_place.
  destruct (existsb _ _); cbn; [|auto].
  destruct (_ <=? _)%Z; cbn; auto.
Qed.

Lemma check_target_place k : same_place k (check_target k).
Proof.
  unfold check_target, same_place.
  destruct (_is_at_target (env k)); [|auto].
  destruct (target_position (env k)) as [[tx ty] tz].
  unfold Drone.deliver_cargo.
  destruct (negb (Drone.has_package (drone (env k)))); cbn.
  - auto.
  - destruct (truthy _); cbn; auto.
Qed.

Lemma time_penalty_place k : same_place k (time_penalty k).
Proof. unfold time_penalty, same_place. destruct (negb _); cbn; auto. Qed.

Lemma charging_penalty_place a k : same_place k (charging_penalty a k).
Proof.
  unfold charging_penalty, same_place. destruct (String.eqb _ _); cbn; auto.
Qed.

Lemma check_timeout_place k : same_place k (check_timeout k).
Proof.
  unfold check_timeout, same_place. destruct (_ <=? _)%Z; cbn; auto.
Qed.

Lemma same_place_trans k1 k2 k3 :
  same_place k1 k2 -> same_place k2 k3 -> same_place k1 k3.
Proof. intros [A B] [C D]. split; congruence. Qed.

Lemma execute_action_place a w k :
  obstacles (env (execute_action a w k)) = obstacles (env k)
  /\ Drone.position (drone (env (execute_action a w k)))
     = Drone.position (snd (Drone.move (drone (env k)) a w)).
Proof.
  unfold execute_action.
  destruct (Drone.move (drone (env k)) a w) as [success d]. cbn [snd].
  destruct (negb success); [|cbn; auto].
  destruct (Drone.is_crashed d); [|cbn; auto].
  destruct (bool_decide _); cbn; auto.
Qed.

Lemma update_payload_position d dt :
  Drone.position (Drone.update_payload_condition d dt) = Drone.position d.
Proof.
  unfold Drone.update_payload_condition.
  destruct (negb (Drone.has_package d)); [reflexivity|].
  destruct (Qle_bool PAYLOAD_MAX_TIME _); [reflexivity|].
  destruct (Qle_bool PAYLOAD_SPOILAGE_WARNING _); reflexivity.
Qed.

(** The observation returned by [step] is the one of the new
    environment. *)
Lemma step_returns_state e a r :
  state_of (step e a r) = _get_state (env_of (step e a r)).
Proof.
  unfold state_of, env_of, step.
  destruct (Drone.is_payload_spoiled _); [reflexivity|].
  destruct (Qle_bool EXTREME_WIND_SPEED _); reflexivity.
Qed.

Lemma step_place e a r :
  obstacles (fst (step e a r)) = obstacles e
  /\ (Drone.position (drone (fst (step e a r))) = Drone.position (drone e)
      \/ exists w,
           Drone.position (drone (fst (step e a r)))
           = Drone.position
               (snd (Drone.move
                       (Drone.update_payload_condition (drone e) 1) a w))).
Proof.
  unfold step.
  destruct (Drone.is_payload_spoiled _).
  { cbn. split; [reflexivity|]. left. apply update_payload_position. }
  destruct (Qle_bool EXTREME_WIND_SPEED _).
  { cbn. split; [reflexivity|]. left. apply update_payload_position. }
  cbn [fst].
  match goal with
  | |- context [execute_action a ?w ?k] =>
    pose proof (execute_action_place a w k) as [Ho Hp];
    set (k1 := execute_action a w k) in *
  end.
  set (pos := Drone.position (drone (env k1))) in *.
  assert (Hs : same_place k1
            (check_timeout (charging_penalty a (time_penalty
              (check_target (check_storm (check_no_fly pos
                (check_collision pos k1)))))))).
  { eapply same_place_trans; [apply check_collision_place|].
    eapply same_place_trans; [apply check_no_fly_place|].
    eapply same_place_trans; [apply check_storm_place|].
    eapply same_place_trans; [apply check_target_place|].
    eapply same_place_trans; [apply time_penalty_place|].
    eapply same_place_trans; [apply charging_penalty_place|].
    apply check_timeout_place. }
  destruct Hs as [Hso Hsp]. cbn [obstacles drone set_total_reward].
  rewrite Hso, Hsp, Ho. split; [reflexivity|].
  right. eexists. exact Hp.
Qed.

Lemma reset_altitude_ok o e i j :
  CityObstacles.heights_bounded o -> obstacles e = o ->
  altitude_ok o (fst (reset e i j)).
Proof.
  intros Hb Ho. unfold reset. rewrite Ho.
  destruct (CityObstacles.get_random_hospital o i) as [sx sy].
  destruct (CityObstacles.get_random_lab o j) as [tx ty].
  split; [reflexivity|]. cbn.
  unfold CityObstacles.get_min_safe_altitude,
    CityObstacles.get_building_height.
  destruct (CityObstacles.in_grid o _ _).
  - specialize (Hb (Qfloor (inject_Z sy)) (Qfloor (inject_Z sx))).
    unfold MAX_BUILDING_HEIGHT, MAX_ALTITUDE in *. lia.
  - unfold MAX_ALTITUDE. lia.
Qed.

Lemma step_altitude_ok o e a r :
  altitude_ok o e -> altitude_ok o (fst (step e a r)).
Proof.
  intros [Ho Hz]. destruct (step_place e a r) as [Ho' [Hp|[w Hp]]].
  - split; [congruence|]. rewrite Hp. exact Hz.
  - split; [congruence|]. rewrite Hp. apply move_altitude.
    rewrite update_payload_position. exact Hz.
Qed.

Lemma reachable_altitude_ok o e :
  CityObstacles.heights_bounded o -> reachable o e -> altitude_ok o e.
Proof.
  intros Hb. induction 1 as [w i j | e i j _ [Ho _] | e a r _ IH].
  - unfold create. now apply reset_altitude_ok.
  - now apply reset_altitude_ok.
  - now apply step_altitude_ok.
Qed.

Lemma guarded_city_heights_bounded :
  CityObstacles.heights_bounded guarded_city.
Proof.
  intros row col. cbn. unfold MAX_BUILDING_HEIGHT.
  repeat (destruct (_ && _); [lia|]). lia.
Qed.

(** C8 as stated does not hold: after one HOVER tick in a 5 km/h east
    wind the observed x is 5 + 1/16, which is no whole grid cell. *)
Lemma drifted_position_not_grid_cell :
  CityObstacles.heights_bounded guarded_city
  /\ reachable guarded_city (fst (step guarded_start "HOVER" steady))
  /\ StateDict.position (state_of (step guarded_start "HOVER" steady))
     = Some (405 # 80, 400 # 80, 3%Z)
  /\ ~ grid_cell_position (state_of (step guarded_start "HOVER" steady)).
Proof.
  split; [exact guarded_city_heights_bounded|].
  split; [apply reach_step, reach_create|].
  assert (Hpos : StateDict.position
                   (state_of (step guarded_start "HOVER" steady))
                 = Some (405 # 80, 400 # 80, 3%Z))
    by (vm_compute; reflexivity).
  split; [exact Hpos|].
  unfold grid_cell_position. rewrite Hpos. intros [[n Hn] _].
  unfold Qeq in Hn. cbn [Qnum Qden inject_Z] in Hn. lia.
Qed.

(** C8, amended: in every observation returned by [reset] or [step] the
    altitude is an integer level in [0, MAX_ALTITUDE); x and y are
    rationals, which after a motion lie in [0, GRID_SIZE - 1] (the wind
    vector is added to the intended delta before clamping, and its
    fractional part is kept). *)
Theorem observed_altitude_in_range (o : CityObstacles.t)
    (e : CityEnvironment.t)
    (Hcity : CityObstacles.heights_bounded o) (Hreach : reachable o e) :
  (exists x y z,
      StateDict.position (_get_state e) = Some (x, y, z)
      /\ Drone.position (drone e) = (x, y, z)
      /\ (0 <= z < MAX_ALTITUDE)%Z)
  /\ (forall a r,
        state_of (step e a r) = _get_state (env_of (step e a r)))
  /\ (forall i j, snd (reset e i j) = _get_state (fst (reset e i j)))
  /\ (forall d a w dx dy dz c,
        Drone.is_crashed d = false -> Drone.is_charging d = false ->
        0 < Drone.battery d ->
        Drone.movement d a = Some (dx, dy, dz, c) ->
        let '(x, y, _) := Drone.position (snd (Drone.move d a w)) in
        0 <= x <= inject_Z (GRID_SIZE - 1)
        /\ 0 <= y <= inject_Z (GRID_SIZE - 1)).
Proof.
  destruct (reachable_altitude_ok o e Hcity Hreach) as [_ Hz].
  split; [|split; [|split]].
  - unfold _get_state.
    destruct (Drone.position (drone e)) as [[x y] z].
    destruct (target_position e) as [[tx ty] tz].
    exists x, y, z. cbn. auto.
  - intros a r. apply step_returns_state.
  - intros i j. unfold reset.
    destruct (CityObstacles.get_random_hospital _ i) as [sx sy].
    destruct (CityObstacles.get_random_lab _ j) as [tx ty]. reflexivity.
  - intros d a w dx dy dz c Hcr Hch Hb Hm.
    exact (move_lateral_bounds d a w dx dy dz c Hcr Hch Hb Hm).
Qed.

Lemma observed_altitude_in_range_witness :
  let e := env_of (step guarded_start "MOVE_UP" steady) in
  CityObstacles.heights_bounded guarded_city
  /\ reachable guarded_city e
  /\ StateDict.position (_get_state e) = Some (405 # 80, 400 # 80, 4%Z)
  /\ exists x y z,
       StateDict.position (_get_state e) = Some (x, y, z)
       /\ (0 <= z < MAX_ALTITUDE)%Z.
Proof.
  intros e.
  assert (Hr : reachable guarded_city e)
    by (apply reach_step, reach_create).
  split; [exact guarded_city_heights_bounded|]. split; [exact Hr|].
  split; [vm_compute; reflexivity|].
  destruct (observed_altitude_in_range guarded_city e
              guarded_city_heights_bounded Hr)
    as ((x & y & z & Hpos & _ & Hz) & _).
  exists x, y, z. split; [exact Hpos | exact Hz].
Defined.
End EnvironmentFacts.

(** ** Rule engine *)

(** Membership of a literal in a literal list. *)
Ltac in_list :=
  repeat (first [apply list_elem_of_here | apply list_elem_of_further]).

Section LogicFacts.
Import Config LogicEngine.
Local Open Scope string_scope.

Lemma exempt_never_violates act rule state :
  is_exempt act = true -> _action_violates_rule act rule state = false.
Proof. intros H. unfold _action_violates_rule. now rewrite H. Qed.

Lemma violated_rules_exempt rs state act l :
  is_exempt act = true -> violated_rules rs state act = Some l -> l = [].
Proof.
  intros He. revert l. induction rs as [|r rs IH]; intros l; cbn.
  - now intros [= <-].
  - destruct (condition r state) as [tr|]; [cbn|discriminate].
    destruct (violated_rules rs state act) as [later|]; [cbn|discriminate].
    rewrite (exempt_never_violates _ _ _ He), andb_false_r.
    intros [= <-]. now apply IH.
Qed.

Lemma is_action_safe_exempt rules state act v :
  is_exempt act = true -> is_action_safe rules state act = Some v -> v = (true, []).
Proof.
  intros He. unfold is_action_safe.
  destruct (violated_rules _ state act) as [l|] eqn:E; [cbn|discriminate].
  apply (violated_rules_exempt _ _ _ _ He) in E. subst l. now intros [= <-].
Qed.

Lemma violated_rules_total rs state act :
  (forall r, r ∈ rs -> is_Some (condition r state)) ->
  is_Some (violated_rules rs state act).
Proof.
  induction rs as [|r rs IH]; intros H; cbn; [eauto|].
  destruct (H r) as [tr ->]; [left|]. cbn.
  destruct IH as [later ->]; [intros r' Hr'; apply H; now right|].
  cbn. eauto.
Qed.

Lemma violated_rules_raises rs state act r :
  r ∈ rs -> condition r state = None ->
  violated_rules rs state act = None.
Proof.
  induction rs as [|x rs IH]; intros Hin Hc; [inversion Hin|].
  cbn. apply elem_of_cons in Hin as [->|Hin].
  - now rewrite Hc.
  - destruct (condition x state); [cbn|reflexivity].
    now rewrite (IH Hin Hc).
Qed.

Lemma violated_rules_elem rs state act l r :
  violated_rules rs state act = Some l ->
  (r ∈ l <->
   r ∈ rs /\ condition r state = Some true
   /\ _action_violates_rule act r state = true).
Proof.
  revert l. induction rs as [|x rs IH]; intros l; cbn.
  - intros [= <-]. split; [inversion 1 | intros [H _]; inversion H].
  - destruct (condition x state) as [tr|] eqn:Ec; [cbn|discriminate].
    destruct (violated_rules rs state act) as [later|]; [cbn|discriminate].
    specialize (IH later eq_refl). intros [= <-].
    destruct (tr && _action_violates_rule act x state) eqn:E.
    + apply andb_true_iff in E as [-> Ev].
      rewrite !elem_of_cons, IH. split.
      * intros [->|(H1 & H2 & H3)]; auto.
      * intros ([->|H1] & H2 & H3); auto.
    + rewrite IH, elem_of_cons. split.
      * intros (H1 & H2 & H3); auto.
      * intros ([->|H1] & H2 & H3); auto.
        rewrite Ec in H2. injection H2 as ->. cbn in E. congruence.
Qed.

Lemma safe_subset_elem rules state all l act :
  safe_subset rules state all = Some l ->
  (act ∈ l <->
   act ∈ all /\ exists v, is_action_safe rules state act = Some (true, v)).
Proof.
  revert l. induction all as [|x all IH]; intros l; cbn.
  - intros [= <-]. split; [inversion 1 | intros [H _]; inversion H].
  - destruct (is_action_safe rules state x) as [[is_safe v]|] eqn:Es;
      [cbn|discriminate].
    destruct (safe_subset rules state all) as [later|]; [cbn|discriminate].
    specialize (IH later eq_refl). intros [= <-].
    destruct is_safe.
    + rewrite !elem_of_cons, IH. split.
      * intros [->|(H1 & H2)]; eauto.
      * intros ([->|H1] & H2); auto.
    + rewrite IH, elem_of_cons. split.
      * intros (H1 & H2); auto.
      * intros ([->|H1] & w & H2); eauto. congruence.
Qed.

Lemma safe_subset_total rules state all :
  (forall act, is_Some (is_action_safe rules state act)) ->
  is_Some (safe_subset rules state all).
Proof.
  intros H. induction all as [|x all [later IH]]; cbn; [eauto|].
  destruct (H x) as [[is_safe v] ->]. cbn. rewrite IH. cbn. eauto.
Qed.

(** The safety rules of a freshly constructed engine, in list order. *)
Lemma init_safety_rules :
  filter (fun r => RuleType_eqb (rule_type r) SAFETY = true) init
  = [critical_battery; bad_weather; return_to_base; avoid_obstacles;
     no_fly_zone; safe_altitude].
Proof. reflexivity. Qed.

Lemma well_formed_fields s :
  StateDict.well_formed s = true ->
  exists p b c n z f,
    StateDict.position s = Some p /\ StateDict.battery s = Some b
    /\ StateDict.has_cargo s = Some c
    /\ StateDict.nearby_obstacles s = Some n
    /\ StateDict.in_no_fly_zone s = Some z
    /\ StateDict.safe_to_fly s = Some f.
Proof.
  unfold StateDict.well_formed. rewrite !andb_true_iff.
  intros ((((((((((Hp & Hb) & Hc) & _) & Hn) & Hz) & Hf) & _) & _) & _) & _).
  destruct (StateDict.position s) as [p|]; [|discriminate].
  destruct (StateDict.battery s) as [b|]; [|discriminate].
  destruct (StateDict.has_cargo s) as [c|]; [|discriminate].
  destruct (StateDict.nearby_obstacles s) as [n|]; [|discriminate].
  destruct (StateDict.in_no_fly_zone s) as [z|]; [|discriminate].
  destruct (StateDict.safe_to_fly s) as [f|]; [|discriminate].
  exists p, b, c, n, z, f. repeat split; reflexivity.
Qed.

(** On a well-formed observation no predicate of the built-in safety
    rules raises, so the safety check returns. *)
Lemma is_action_safe_total s act :
  StateDict.well_formed s = true ->
  is_Some (is_action_safe init s act).
Proof.
  intros Hwf.
  destruct (well_formed_fields s Hwf)
    as (p & b & c & n & z & f & Hp & Hb & Hc & Hn & Hz & Hf).
  unfold is_action_safe. rewrite init_safety_rules.
  destruct (violated_rules_total
              [critical_battery; bad_weather; return_to_base;
               avoid_obstacles; no_fly_zone; safe_altitude] s act)
    as [l ->]; [|cbn; eauto].
  intros r Hr.
  repeat (apply elem_of_cons in Hr as [->|Hr]); [..|inversion Hr]; cbn;
    rewrite ?Hp, ?Hb, ?Hc, ?Hz, ?Hf; cbn; eauto.
  destruct (Qle_bool b MIN_BATTERY_RETURN); eauto.
Qed.

Lemma get_valid_actions_total s all :
  StateDict.well_formed s = true ->
  is_Some (get_valid_actions init s all).
Proof.
  intros Hwf. unfold get_valid_actions.
  destruct (safe_subset_total init s all) as [l ->];
    [intros act; now apply is_action_safe_total | cbn; eauto].
Qed.

Lemma safe_subset_defined rules s all valid act :
  safe_subset rules s all = Some valid -> act ∈ all ->
  is_Some (is_action_safe rules s act).
Proof.
  revert valid. induction all as [|x all IH]; intros valid Es Hin;
    [inversion Hin|].
  cbn in Es.
  destruct (is_action_safe rules s x) as [[is_safe v]|] eqn:Ex;
    [cbn in Es|discriminate].
  destruct (safe_subset rules s all) as [later|]; [|discriminate].
  apply elem_of_cons in Hin as [->|Hin]; [rewrite Ex; eauto|].
  now apply (IH later).
Qed.

Lemma get_valid_actions_keeps_exempt rules s all l act :
  get_valid_actions rules s all = Some l ->
  is_exempt act = true -> act ∈ all -> act ∈ l.
Proof.
  unfold get_valid_actions.
  destruct (safe_subset rules s all) as [valid|] eqn:Es; [cbn|discriminate].
  intros [= <-] He Hin.
  assert (Hv : act ∈ valid).
  { apply (safe_subset_elem _ _ _ _ act Es). split; [exact Hin|].
    destruct (safe_subset_defined _ _ _ _ _ Es Hin) as [v Hv].
    rewrite Hv, (is_action_safe_exempt _ _ _ _ He Hv). eauto. }
  destruct valid; [inversion Hv | exact Hv].
Qed.

(** Observations built by the environment are well formed. *)
Lemma env_observation_well_formed e :
  StateDict.well_formed (CityEnvironment._get_state e) = true.
Proof.
  unfold CityEnvironment._get_state.
  destruct (Drone.position (CityEnvironment.drone e)) as [[x y] z].
  destruct (CityEnvironment.target_position e) as [[tx ty] tz].
  reflexivity.
Qed.



(** C5 as stated does not hold: with 3% battery in flyable weather the
    safety check accepts HOVER, and the valid actions include MOVE_DOWN,
    which is no wait-class action. *)
Lemma critical_battery_keeps_hover_and_descent :
  StateDict.battery critical_state = Some 3%Q
  /\ StateDict.safe_to_fly critical_state = Some true
  /\ is_action_safe init critical_state "HOVER" = Some (true, [])
  /\ get_valid_actions init critical_state ACTIONS
     = Some ["MOVE_DOWN"; "HOVER"; "CHARGE"].
Proof. repeat split; reflexivity. Qed.

(** C5, amended: whenever the battery is at most 5% (3% in particular)
    and the weather is flyable, the critical-battery rule, of priority
    100, is the first triggered rule; the safety check rejects MOVE_UP
    and the four lateral moves, each as a violation of that rule, and
    accepts HOVER and CHARGE, which are exempt; and the valid actions of
    the canonical set contain HOVER and CHARGE and nothing else except
    possibly MOVE_DOWN. *)
Theorem critical_battery_scenario (s : StateDict.t) (b : Q)
    (Hwf : StateDict.well_formed s = true)
    (Hb : StateDict.battery s = Some b) (Hlow : (b <= 5)%Q)
    (Hfly : StateDict.safe_to_fly s = Some true) :
  (exists rest, get_triggered_rules init s = critical_battery :: rest)
  /\ priority critical_battery = 100%Z
  /\ (forall act,
        act ∈ ["MOVE_UP"; "MOVE_NORTH"; "MOVE_SOUTH"; "MOVE_EAST";
               "MOVE_WEST"] ->
        exists v, is_action_safe init s act = Some (false, v)
                  /\ critical_battery ∈ v)
  /\ is_action_safe init s "HOVER" = Some (true, [])
  /\ is_action_safe init s "CHARGE" = Some (true, [])
  /\ (exists l, get_valid_actions init s ACTIONS = Some l
                /\ "HOVER" ∈ l /\ "CHARGE" ∈ l
                /\ forall act, act ∈ l ->
                     act ∈ ["MOVE_DOWN"; "HOVER"; "CHARGE"]).
Proof.
  assert (Hcond : condition critical_battery s = Some true).
  { cbn. rewrite Hb. cbn. f_equal. now apply Qle_bool_iff. }
  assert (Hunsafe : forall act,
    act ∈ ["MOVE_UP"; "MOVE_NORTH"; "MOVE_SOUTH"; "MOVE_EAST"; "MOVE_WEST"] ->
    exists v, is_action_safe init s act = Some (false, v)
              /\ critical_battery ∈ v).
  { intros act Hin.
    destruct (is_action_safe_total s act Hwf) as [[is_safe v] Hv].
    assert (Hcv : critical_battery ∈ v).
    { revert Hv. unfold is_action_safe. rewrite init_safety_rules.
      destruct (violated_rules _ s act) as [l|] eqn:El; [cbn|discriminate].
      intros [= _ <-].
      apply (violated_rules_elem _ _ _ _ critical_battery El).
      split; [left|]. split; [exact Hcond|].
      repeat (apply elem_of_cons in Hin as [->|Hin]); [..|now apply elem_of_nil in Hin];
        reflexivity. }
    exists v. split; [|exact Hcv].
    revert Hv Hcv. unfold is_action_safe.
    destruct (violated_rules _ s act) as [l|]; [cbn|discriminate].
    intros [= <- <-] Hcv. destruct l; [inversion Hcv | reflexivity]. }
  assert (Hexempt : forall act, is_exempt act = true ->
    is_action_safe init s act = Some (true, [])).
  { intros act He. destruct (is_action_safe_total s act Hwf) as [v Hv].
    now rewrite Hv, (is_action_safe_exempt _ _ _ _ He Hv). }
  split; [|split; [reflexivity|split; [exact Hunsafe|]]].
  - unfold get_triggered_rules, evaluate_rules.
    change init with (critical_battery :: tl init). cbn [map].
    rewrite Hcond. rewrite filter_cons_True by reflexivity. cbn [map fst].
    eauto.
  - split; [now apply Hexempt|]. split; [now apply Hexempt|].
    destruct (get_valid_actions_total s ACTIONS Hwf) as [l Hl].
    exists l. split; [exact Hl|].
    split; [apply (get_valid_actions_keeps_exempt _ _ _ _ _ Hl);
            [reflexivity | unfold ACTIONS; in_list]|].
    split; [apply (get_valid_actions_keeps_exempt _ _ _ _ _ Hl);
            [reflexivity | unfold ACTIONS; in_list]|].
    intros act Hact. revert Hl. unfold get_valid_actions.
    destruct (safe_subset init s ACTIONS) as [valid|] eqn:Es;
      [cbn|discriminate].
    assert (Hsub : forall a, a ∈ valid ->
              a ∈ ["MOVE_DOWN"; "HOVER"; "CHARGE"]).
    { intros a Ha. apply (safe_subset_elem _ _ _ _ a Es) in Ha as [Hin [v Hv]].
      unfold ACTIONS in Hin.
      repeat (apply elem_of_cons in Hin as [->|Hin]); [..|now apply elem_of_nil in Hin];
        first
          [ solve [in_list]
          | match goal with
            | Hs : is_action_safe init s ?a = Some (true, _) |- _ =>
              destruct (Hunsafe a ltac:(in_list)) as [v' [Hv' _]];
              congruence
            end ]. }
    destruct valid as [|a0 valid']; intros [= <-].
    + cbn in Hact. inversion Hact.
    + now apply Hsub.
Qed.

Lemma critical_battery_scenario_witness :
  StateDict.well_formed critical_state = true
  /\ StateDict.battery critical_state = Some 3%Q
  /\ (exists rest,
        get_triggered_rules init critical_state = critical_battery :: rest)
  /\ exists v, is_action_safe init critical_state "MOVE_UP" = Some (false, v)
               /\ critical_battery ∈ v.
Proof.
  assert (Hlow : (3 <= 5)%Q) by (vm_compute; discriminate).
  destruct (critical_battery_scenario critical_state 3%Q
              eq_refl eq_refl Hlow eq_refl) as (Ht & _ & Hu & _).
  split; [reflexivity|]. split; [reflexivity|]. split; [exact Ht|].
  apply Hu. left.
Defined.

(** *** Faulting rule predicates *)

(** [evaluate_rules] catches a raising predicate per rule: every rule
    gets a verdict, a faulting one the verdict "not triggered", and the
    other verdicts are what their predicates return. *)
Lemma evaluate_rules_catches rules state :
  map fst (evaluate_rules rules state) = rules
  /\ forall r, r ∈ rules ->
       (r, default false (condition r state)) ∈ evaluate_rules rules state.
Proof.
  unfold evaluate_rules. split.
  - induction rules as [|x rules IH]; [reflexivity|].
    cbn. rewrite IH. now destruct (condition x state).
  - intros r Hr. induction rules as [|x rules IH];
      [now apply elem_of_nil in Hr|].
    cbn. apply elem_of_cons in Hr as [->|Hr].
    + destruct (condition x state); left.
    + right. now apply IH.
Qed.

Lemma faulting_rule_not_triggered rules state r :
  condition r state = None -> r ∉ get_triggered_rules rules state.
Proof.
  intros Hc Hin. unfold get_triggered_rules, evaluate_rules in Hin.
  apply list_elem_of_In, in_map_iff in Hin as [[r' tr] [Hr' Hin]].
  cbn in Hr'. subst r'.
  apply list_elem_of_In, list_elem_of_filter in Hin as [Htr Hin].
  cbn in Htr. subst tr.
  apply list_elem_of_In, in_map_iff in Hin as [x [Hx _]].
  destruct (condition x state) eqn:Ex; injection Hx as -> Hb;
    congruence.
Qed.

Lemma is_action_safe_propagates rules state act r :
  r ∈ rules -> rule_type r = SAFETY -> condition r state = None ->
  is_action_safe rules state act = None.
Proof.
  intros Hin Ht Hc. unfold is_action_safe.
  rewrite (violated_rules_raises _ state act r); [reflexivity| |exact Hc].
  apply list_elem_of_filter. split; [|exact Hin]. now rewrite Ht.
Qed.

Lemma get_valid_actions_propagates rules state act all :
  is_action_safe rules state act = None ->
  get_valid_actions rules state (act :: all) = None.
Proof. intros H. unfold get_valid_actions. cbn. now rewrite H. Qed.

(** C6 (the code departs from the claim).  With the user-registered
    safety rule [clearance_margin], whose predicate raises on the
    well-formed test observation, rule evaluation and the recommended
    action do catch the fault (the rule counts as not triggered), but
    the per-action safety check calls the predicate without a handler:
    [is_action_safe] raises for every action, and so does
    [get_valid_actions]. *)
Theorem faulting_rule_aborts_safety_check :
  let rules := add_rule init clearance_margin in
  StateDict.well_formed test_state = true
  /\ clearance_margin ∈ rules
  /\ condition clearance_margin test_state = None
  /\ (clearance_margin, false) ∈ evaluate_rules rules test_state
  /\ (clearance_margin ∉ get_triggered_rules rules test_state)
  /\ fst (get_recommended_action rules test_state) = "return_to_base"
  /\ (forall act, is_action_safe rules test_state act = None)
  /\ get_valid_actions rules test_state ACTIONS = None
  /\ (forall act, is_Some (is_action_safe init test_state act)).
Proof.
  intros rules.
  assert (Hin : clearance_margin ∈ rules).
  { unfold rules. change (add_rule init clearance_margin)
      with (firstn 6 init ++ clearance_margin :: skipn 6 init)%list.
    apply elem_of_app. right. left. }
  assert (Hc : condition clearance_margin test_state = None) by reflexivity.
  split; [reflexivity|]. split; [exact Hin|]. split; [exact Hc|].
  split.
  { destruct (evaluate_rules_catches rules test_state) as [_ H].
    specialize (H _ Hin). now rewrite Hc in H. }
  split; [now apply faulting_rule_not_triggered|].
  split; [reflexivity|].
  assert (Hraise : forall act, is_action_safe rules test_state act = None)
    by (intros act;
        now apply (is_action_safe_propagates _ _ _ clearance_margin)).
  split; [exact Hraise|].
  split; [apply get_valid_actions_propagates, Hraise|].
  intros act. now apply is_action_safe_total.
Qed.
End LogicFacts.

(** ** Learning agent: looking up an unseen state *)
Section QTableFacts.
Import Config QLearningAgent.
Local Open Scope Q_scope.

Lemma touch_unseen (tbl : gmap (Z * Z * Z * Z * Z * Z * Z) (gmap string Q))
    key action :
  tbl !! key = None ->
  touch tbl key action = (0, <[key := {[action := 0]}]> tbl).
Proof.
  intros H. unfold touch, touch_row. rewrite H, lookup_empty.
  now rewrite insert_insert_eq, insert_empty.
Qed.

(** Rows whose stored values are all [0.0]. *)
Lemma touch_zero_row (tbl : gmap (Z * Z * Z * Z * Z * Z * Z) (gmap string Q))
    key action :
  (forall row a v, tbl !! key = Some row -> row !! a = Some v -> v = 0) ->
  fst (touch tbl key action) = 0
  /\ (forall row a v,
        snd (touch tbl key action) !! key = Some row ->
        row !! a = Some v -> v = 0).
Proof.
  intros Hz. unfold touch, touch_row.
  destruct (tbl !! key) as [row|] eqn:Er.
  - destruct (row !! action) as [v|] eqn:Ev; cbn.
    + split; [now apply (Hz row action)|].
      intros row' a v' Hr. rewrite Er in Hr. injection Hr as <-.
      now apply Hz.
    + split; [reflexivity|]. intros row' a v'.
      rewrite lookup_insert_eq. intros [= <-].
      destruct (decide (action = a)) as [->|Hne].
      * rewrite lookup_insert_eq. now intros [= <-].
      * rewrite lookup_insert_ne by exact Hne. now apply Hz.
  - rewrite lookup_empty. cbn. split; [reflexivity|].
    intros row' a v'. rewrite lookup_insert_eq. intros [= <-].
    destruct (decide (action = a)) as [->|Hne].
    + rewrite lookup_insert_eq. now intros [= <-].
    + rewrite lookup_insert_ne by exact Hne. now rewrite lookup_empty.
Qed.

Lemma q_values_of_zero (tbl : gmap (Z * Z * Z * Z * Z * Z * Z) (gmap string Q))
    key acts :
  (forall row a v, tbl !! key = Some row -> row !! a = Some v -> v = 0) ->
  Forall (fun p => snd p = 0) (fst (q_values_of tbl key acts)).
Proof.
  revert tbl. induction acts as [|x acts IH]; intros tbl Hz; cbn.
  - constructor.
  - destruct (touch_zero_row tbl key x Hz) as [Hv Hz'].
    destruct (touch tbl key x) as [v tbl1]. cbn in Hv, Hz'.
    specialize (IH tbl1 Hz').
    destruct (q_values_of tbl1 key acts) as [later tbl2]. cbn in *.
    constructor; [exact Hv | exact IH].
Qed.

(** C9 as stated does not hold: on a fresh agent, looking up HOVER for
    the test observation returns 0 but leaves an entry for the queried
    state and action in the table that [save] persists. *)
Lemma lookup_creates_table_entry :
  let agent := init ACTIONS in
  let key := (4, 1, 0, 1, 2, 0, 0)%Z in
  get_state_key LogicEngine.test_state = Some key
  /\ q_table agent !! key = None
  /\ exists agent',
       get_q_value agent LogicEngine.test_state "HOVER" = Some (0, agent')
       /\ q_table agent' !! key = Some {["HOVER"%string := 0]}
       /\ save agent' <> save agent.
Proof.
  intros agent key.
  assert (Hk : get_state_key LogicEngine.test_state = Some key)
    by (vm_compute; reflexivity).
  split; [exact Hk|]. split; [apply lookup_empty|].
  unfold get_q_value. rewrite Hk. cbn [mbind option_bind].
  rewrite (touch_unseen _ key "HOVER") by apply lookup_empty.
  eexists. split; [reflexivity|]. cbn [q_table set_q_table].
  split; [apply lookup_insert_eq|].
  intros H. apply (f_equal (fun s => fst (fst (fst s)) !! key)) in H.
  unfold save, agent, init in H. cbn [fst q_table set_q_table] in H.
  rewrite lookup_insert_eq, lookup_empty in H. discriminate H.
Qed.

(** C9, amended: for a discretized state with no entry in the table,
    [get_q_value] returns 0.0 for every action and does not raise; the
    lookup stores a zero entry for the queried (state, action) pair and
    changes nothing else: entries of other states, epsilon and the
    counters are kept, and every further lookup for that state still
    returns 0.0. *)
Theorem unseen_state_lookup (agent : QLearningAgent.t) (state : StateDict.t)
    (key : Z * Z * Z * Z * Z * Z * Z) (action : string)
    (Hkey : get_state_key state = Some key)
    (Hnew : q_table agent !! key = None) :
  exists agent',
    get_q_value agent state action = Some (0, agent')
    /\ q_table agent' = <[key := {[action := 0]}]> (q_table agent)
    /\ (forall k, k <> key -> q_table agent' !! k = q_table agent !! k)
    /\ epsilon agent' = epsilon agent
    /\ total_updates agent' = total_updates agent
    /\ episodes_trained agent' = episodes_trained agent
    /\ (forall acts,
         Forall (fun p => snd p = 0)
                (fst (q_values_of (q_table agent) key acts))
         /\ Forall (fun p => snd p = 0)
                   (fst (q_values_of (q_table agent') key acts))).
Proof.
  unfold get_q_value. rewrite Hkey. cbn [mbind option_bind].
  rewrite (touch_unseen _ key action Hnew).
  eexists. split; [reflexivity|]. cbn.
  split; [reflexivity|].
  split; [intros k Hk; now apply lookup_insert_ne|].
  repeat (split; [reflexivity|]).
  intros acts. split; apply q_values_of_zero.
  - intros row a v Hr. rewrite Hnew in Hr. discriminate.
  - intros row a v. rewrite lookup_insert_eq. intros [= <-].
    intros Hv. apply lookup_singleton_Some in Hv as [_ <-]. reflexivity.
Qed.

Lemma unseen_state_lookup_witness :
  get_state_key LogicEngine.test_state = Some (4, 1, 0, 1, 2, 0, 0)%Z
  /\ q_table (init ACTIONS) !! (4, 1, 0, 1, 2, 0, 0)%Z = None
  /\ exists agent',
       get_q_value (init ACTIONS) LogicEngine.test_state "MOVE_UP"
       = Some (0, agent')
       /\ q_table agent'
          = <[(4, 1, 0, 1, 2, 0, 0)%Z := {["MOVE_UP"%string := 0]}]> ∅.
Proof.
  assert (Hk : get_state_key LogicEngine.test_state
               = Some (4, 1, 0, 1, 2, 0, 0)%Z) by (vm_compute; reflexivity).
  assert (Hn : q_table (init ACTIONS) !! (4, 1, 0, 1, 2, 0, 0)%Z = None)
    by apply lookup_empty.
  split; [exact Hk|]. split; [exact Hn|].
  destruct (unseen_state_lookup (init ACTIONS) LogicEngine.test_state
              _ "MOVE_UP" Hk Hn) as (agent' & Hg & Ht & _).
  exists agent'. split; [exact Hg | exact Ht].
Defined.
End QTableFacts.

(** ** Hybrid controller: the critical override *)
Section ControllerFacts.
Import Config HybridController LogicEngine.
Local Open Scope string_scope.


Lemma get_triggered_rules_cons r rs state :
  get_triggered_rules (r :: rs) state
  = if default false (condition r state)
    then r :: get_triggered_rules rs state
    else get_triggered_rules rs state.
Proof.
  unfold get_triggered_rules, evaluate_rules. cbn [map].
  destruct (condition r state) as [[|]|]; cbn [default from_option id];
    first [ now rewrite filter_cons_True by reflexivity
          | now rewrite filter_cons_False by (cbn; discriminate) ].
Qed.

Lemma triggered_subset rs state r :
  r ∈ get_triggered_rules rs state ->
  r ∈ rs /\ condition r state = Some true.
Proof.
  induction rs as [|x rs IH]; [intros H; now apply elem_of_nil in H|].
  rewrite get_triggered_rules_cons.
  destruct (condition x state) as [[|]|] eqn:E; cbn [default from_option id].
  - intros H. apply elem_of_cons in H as [->|H].
    + split; [left | exact E].
    + destruct (IH H). split; [now right | assumption].
  - intros H. destruct (IH H). split; [now right | assumption].
  - intros H. destruct (IH H). split; [now right | assumption].
Qed.









End ControllerFacts.

(** ** Vehicle: cargo, payload ageing, crashes and range *)
Section DroneMoreFacts.
Import Config Drone.
Local Open Scope Q_scope.

Lemma run_op_cargo_ok d o : cargo_ok d -> cargo_ok (run_op d o).
Proof.
  intros H. pose proof H as (Hflag & Hlock & Hcond). destruct o; cbn.
  - (* reset *)
    unfold cargo_ok; cbn. repeat split; try discriminate.
    intros [x Hx]. discriminate.
  - (* move *)
    unfold move.
    destruct (is_crashed d || is_charging d); [exact H|].
    destruct (Qle_bool (battery d) 0); [exact H|].
    destruct (movement d action) as [[[[dx dy] dz] c]|].
    + destruct (position d) as [[px py] pz].
      destruct (negb (Qeq_bool _ _) || negb (Qeq_bool _ _)); exact H.
    + unfold _charge. destruct (Qle_bool 100 (battery d)); [exact H|].
      cbn. destruct (Qle_bool 100 _); exact H.
  - (* update_payload_condition *)
    unfold update_payload_condition.
    destruct (has_package d) eqn:Hp; cbn [negb]; [|exact H].
    destruct (Qle_bool PAYLOAD_MAX_TIME (time_since_pickup d + time_step))
      eqn:E1.
    { unfold cargo_ok; cbn. rewrite E1, Hp. repeat split; tauto. }
    destruct (Qle_bool PAYLOAD_SPOILAGE_WARNING
                (time_since_pickup d + time_step)) eqn:E2;
      unfold cargo_ok; cbn; rewrite E1, E2, Hp; repeat split; tauto.
  - (* crash *) exact H.
  - (* pickup *)
    unfold pickup_cargo. destruct (has_package d) eqn:Hp; [exact H|].
    unfold cargo_ok; cbn. repeat split; eauto.
  - (* deliver *)
    unfold deliver_cargo. destruct (has_package d) eqn:Hp; cbn [negb];
      [|exact H].
    unfold cargo_ok; cbn. repeat split; try discriminate.
    intros [x Hx]. discriminate.
  - (* storm counter *) exact H.
Qed.

Lemma reachable_cargo_ok d : reachable d -> cargo_ok d.
Proof.
  induction 1 as [start | d o _ IH].
  - unfold cargo_ok; cbn. repeat split; try discriminate.
    intros [x Hx]. discriminate.
  - now apply run_op_cargo_ok.
Qed.

(** X1: in every reachable vehicle state the cargo flag is set exactly
    when a cargo is stored, and the electronic lock is engaged exactly
    when cargo is held. *)
Theorem cargo_flag_slot_and_lock_agree (d : Drone.t) (Hreach : reachable d) :
  (has_package d = true <-> is_Some (cargo d))
  /\ (has_package d = false <-> cargo d = None)
  /\ payload_locked d = has_package d.
Proof.
  destruct (reachable_cargo_ok d Hreach) as (Hflag & Hlock & _).
  split; [exact Hflag|]. split; [|exact Hlock].
  destruct (has_package d), (cargo d) as [c|]; split; try discriminate;
    try reflexivity; intros _; exfalso.
  - destruct (proj1 Hflag eq_refl) as [x Hx]. discriminate.
  - assert (H : false = true) by (apply Hflag; eauto). discriminate.
Qed.

Lemma cargo_flag_slot_and_lock_agree_witness :
  let d := run_ops (init (5, 5, 3)%Z)
             [OpPickup "blood_sample" (5, 5)%Z; OpMove "MOVE_EAST" (0, 0);
              OpUpdatePayload 1] in
  reachable d /\ has_package d = true
  /\ cargo d = Some "blood_sample"%string /\ payload_locked d = true.
Proof.
  intros d.
  assert (Hr : reachable d) by (apply reachable_run_ops, reach_init).
  destruct (cargo_flag_slot_and_lock_agree d Hr) as (_ & _ & Hl).
  split; [exact Hr|]. split; [reflexivity|]. split; [reflexivity|].
  rewrite Hl. reflexivity.
Defined.

(** X2: picking up on an empty vehicle and delivering afterwards, with
    any operations but pickup, delivery and reset in between, hands back
    exactly the cargo that was loaded and leaves the vehicle empty and
    unlocked; a pickup while laden is refused and changes nothing. *)
Theorem pickup_then_deliver (d : Drone.t) (cargo_type : string)
    (from to : Z * Z) (between : list op)
    (Hempty : has_package d = false)
    (Hops : forallb (fun o => match o with
                              | OpReset | OpPickup _ _ | OpDeliver _ => false
                              | _ => true
                              end) between = true) :
  let d1 := snd (pickup_cargo d cargo_type from) in
  let d2 := run_ops d1 between in
  fst (pickup_cargo d cargo_type from) = true
  /\ pickup_cargo d2 cargo_type from = (false, d2)
  /\ fst (deliver_cargo d2 to) = Some cargo_type
  /\ has_package (snd (deliver_cargo d2 to)) = false
  /\ cargo (snd (deliver_cargo d2 to)) = None
  /\ payload_locked (snd (deliver_cargo d2 to)) = false
  /\ fst (deliver_cargo (snd (deliver_cargo d2 to)) to) = None.
Proof.
  intros d1 d2.
  assert (H1 : has_package d1 = true /\ cargo d1 = Some cargo_type).
  { unfold d1, pickup_cargo. rewrite Hempty. cbn. auto. }
  assert (H2 : has_package d2 = true /\ cargo d2 = Some cargo_type).
  { unfold d2. clearbody d1. clear d2. revert d1 H1.
    induction between as [|o os IH]; intros d1 H1; [exact H1|].
    cbn in Hops. apply andb_true_iff in Hops as [Ho Hos].
    change (run_ops d1 (o :: os)) with (run_ops (run_op d1 o) os).
    apply (IH Hos). destruct H1 as [Hp Hc].
    destruct o; try discriminate; cbn.
    - unfold move.
      destruct (is_crashed d1 || is_charging d1); [auto|].
      destruct (Qle_bool (battery d1) 0); [auto|].
      destruct (movement d1 action) as [[[[dx dy] dz] c]|].
      + destruct (position d1) as [[px py] pz].
        destruct (negb (Qeq_bool _ _) || negb (Qeq_bool _ _)); auto.
      + unfold _charge. destruct (Qle_bool 100 (battery d1)); [auto|].
        cbn. destruct (Qle_bool 100 _); auto.
    - unfold update_payload_condition. rewrite Hp. cbn [negb].
      destruct (Qle_bool PAYLOAD_MAX_TIME _); [auto|].
      destruct (Qle_bool PAYLOAD_SPOILAGE_WARNING _); auto.
    - auto.
    - auto. }
  destruct H2 as [Hp Hc].
  split; [unfold pickup_cargo; now rewrite Hempty|].
  split; [unfold pickup_cargo; now rewrite Hp|].
  assert (Hd : deliver_cargo d2 to
               = (Some cargo_type, set_cargo None false false d2))
    by (unfold deliver_cargo; rewrite Hp, Hc; reflexivity).
  rewrite Hd. cbn [fst snd]. repeat split; reflexivity.
Qed.

Lemma pickup_then_deliver_witness :
  let d := init (5, 5, 3)%Z in
  let d2 := run_ops (snd (pickup_cargo d "blood_sample" (5, 5)%Z))
              [OpMove "MOVE_EAST" (0, 0); OpUpdatePayload 1;
               OpCrash "collision"] in
  has_package d = false
  /\ fst (deliver_cargo d2 (9, 9)%Z) = Some "blood_sample"%string
  /\ has_package (snd (deliver_cargo d2 (9, 9)%Z)) = false.
Proof.
  intros d d2.
  destruct (pickup_then_deliver d "blood_sample" (5, 5)%Z (9, 9)%Z
              [OpMove "MOVE_EAST" (0, 0); OpUpdatePayload 1;
               OpCrash "collision"] eq_refl eq_refl)
    as (_ & _ & Hd & Hp & _).
  split; [reflexivity|]. split; [exact Hd | exact Hp].
Defined.

(** X3: while cargo is held, ageing by a non-negative time step never
    moves the payload condition backwards in the order fresh, warning,
    spoiled, and the payload is spoiled after the step exactly when the
    time since pickup has reached 1800 s. *)
Theorem payload_condition_never_reverts (d : Drone.t) (time_step : Q)
    (Hreach : reachable d) (Hcargo : has_package d = true)
    (Hstep : 0 <= time_step) :
  let d' := update_payload_condition d time_step in
  (condition_rank (payload_condition d)
   <= condition_rank (payload_condition d'))%nat
  /\ time_since_pickup d' == time_since_pickup d + time_step
  /\ (is_payload_spoiled d' = true
      <-> 1800 <= time_since_pickup d + time_step)
  /\ (payload_condition d' = Warning
      <-> 1200 <= time_since_pickup d + time_step < 1800)
  /\ (payload_condition d' = Fresh
      <-> time_since_pickup d + time_step < 1200).
Proof.
  intros d'.
  destruct (reachable_cargo_ok d Hreach) as (_ & _ & Hcond).
  specialize (Hcond Hcargo). subst d'.
  unfold update_payload_condition, is_payload_spoiled.
  rewrite Hcargo. cbn [negb]. rewrite Hcond.
  unfold PAYLOAD_MAX_TIME, PAYLOAD_SPOILAGE_WARNING.
  destruct (Qle_bool 1800 (time_since_pickup d + time_step)) eqn:E1;
    [apply Qle_bool_iff in E1 | apply Qle_bool_false in E1];
  (destruct (Qle_bool 1200 (time_since_pickup d + time_step)) eqn:E2;
    [apply Qle_bool_iff in E2 | apply Qle_bool_false in E2]);
  (destruct (Qle_bool 1800 (time_since_pickup d)) eqn:E3;
    [apply Qle_bool_iff in E3 | apply Qle_bool_false in E3]);
  (destruct (Qle_bool 1200 (time_since_pickup d)) eqn:E4;
    [apply Qle_bool_iff in E4 | apply Qle_bool_false in E4]);
  cbn; try lra;
  (split; [lia|]); (split; [reflexivity|]);
  repeat split; intros; try discriminate; try lra; try reflexivity.
Qed.

Lemma payload_condition_never_reverts_witness :
  let d := run_ops (init (5, 5, 3)%Z)
             [OpPickup "blood_sample" (5, 5)%Z; OpUpdatePayload 1199] in
  reachable d /\ has_package d = true
  /\ payload_condition d = Fresh
  /\ payload_condition (update_payload_condition d 1) = Warning.
Proof.
  intros d.
  assert (Hr : reachable d) by (apply reachable_run_ops, reach_init).
  assert (Hs : 0 <= 1) by (vm_compute; discriminate).
  destruct (payload_condition_never_reverts d 1 Hr eq_refl Hs)
    as (_ & _ & _ & Hw & _).
  split; [exact Hr|]. split; [reflexivity|]. split; [reflexivity|].
  apply Hw. vm_compute. split; [discriminate | reflexivity].
Defined.

Lemma crashed_blocks_op d o :
  is_crashed d = true -> is_reset o = false ->
  is_crashed (run_op d o) = true
  /\ position (run_op d o) = position d
  /\ battery (run_op d o) = battery d.
Proof.
  intros Hcr Hnr. destruct o; try discriminate; cbn.
  - unfold move. rewrite Hcr. cbn. auto.
  - unfold update_payload_condition.
    destruct (negb (has_package d)); [auto|].
    destruct (Qle_bool PAYLOAD_MAX_TIME _); [auto|].
    destruct (Qle_bool PAYLOAD_SPOILAGE_WARNING _); auto.
  - auto.
  - unfold pickup_cargo. destruct (has_package d); auto.
  - unfold deliver_cargo. destruct (negb (has_package d)); auto.
  - auto.
Qed.

(** X4: a crashed vehicle stays crashed and still: after any sequence
    of operations without a reset the crash flag is set, position and
    battery are what they were, and every move call, whatever the action
    and the wind, returns false and changes nothing. *)
Theorem crashed_vehicle_never_moves (d : Drone.t) (os : list op)
    (Hcrashed : is_crashed d = true)
    (Hops : existsb is_reset os = false) :
  let d' := run_ops d os in
  is_crashed d' = true
  /\ position d' = position d
  /\ battery d' = battery d
  /\ forall a w, move d' a w = (false, d').
Proof.
  intros d'.
  assert (H : is_crashed d' = true /\ position d' = position d
              /\ battery d' = battery d).
  { subst d'. revert d Hcrashed.
    induction os as [|o os IH]; intros d Hcr; [auto|].
    cbn in Hops. apply orb_false_iff in Hops as [Ho Hos].
    destruct (crashed_blocks_op d o Hcr Ho) as (H1 & H2 & H3).
    destruct (IH Hos (run_op d o) H1) as (H4 & H5 & H6).
    change (run_ops d (o :: os)) with (run_ops (run_op d o) os).
    rewrite H4, H5, H6, H2, H3. auto. }
  destruct H as (H1 & H2 & H3).
  split; [exact H1|]. split; [exact H2|]. split; [exact H3|].
  intros a w. unfold move. now rewrite H1.
Qed.

Lemma crashed_vehicle_never_moves_witness :
  let d := crash (init (5, 5, 3)%Z) "collision" in
  let d' := run_ops d [OpMove "MOVE_UP" (0, 0); OpPickup "x" (5, 5)%Z;
                       OpMove "CHARGE" (1 # 2, 0)] in
  is_crashed d = true
  /\ position d' = position d
  /\ move d' "MOVE_EAST" (0, 0) = (false, d').
Proof.
  intros d d'.
  destruct (crashed_vehicle_never_moves d
              [OpMove "MOVE_UP" (0, 0); OpPickup "x" (5, 5)%Z;
               OpMove "CHARGE" (1 # 2, 0)] eq_refl eq_refl)
    as (_ & Hp & _ & Hm).
  split; [reflexivity|]. split; [exact Hp | apply Hm].
Defined.

Lemma movement_unknown d a :
  a ∉ ACTIONS -> movement d a = movement d "HOVER".
Proof.
  intros Hn. unfold movement.
  repeat match goal with
  | |- context [String.eqb a ?s] =>
    let E := fresh "E" in
    destruct (String.eqb a s) eqn:E;
      [apply String.eqb_eq in E; subst a; exfalso; apply Hn;
       unfold ACTIONS; in_list|]
  end.
  reflexivity.
Qed.

(** X5: an action token outside the eight canonical ones is not
    rejected: [move] treats it exactly as HOVER (no displacement but the
    wind drift, hover energy), and so does a whole environment tick. *)
Theorem unknown_action_is_hover (a : string) (Hunknown : a ∉ ACTIONS) :
  (forall d w, move d a w = move d "HOVER" w)
  /\ (forall e r, CityEnvironment.step e a r
                  = CityEnvironment.step e "HOVER" r).
Proof.
  assert (Hm : forall d w, move d a w = move d "HOVER" w).
  { intros d w. unfold move. now rewrite (movement_unknown d a Hunknown). }
  split; [exact Hm|].
  intros e r. unfold CityEnvironment.step, CityEnvironment.execute_action.
  assert (Hc : String.eqb a "CHARGE" = false).
  { destruct (String.eqb a "CHARGE") eqn:E; [|reflexivity].
    apply String.eqb_eq in E. subst a. exfalso. apply Hunknown.
    unfold ACTIONS. in_list. }
  unfold CityEnvironment.charging_penalty. rewrite Hc.
  change (String.eqb "HOVER" "CHARGE") with false. cbv iota.
  now rewrite Hm.
Qed.

Lemma unknown_action_is_hover_witness :
  ("return_to_base"%string ∉ ACTIONS)
  /\ move (init (5, 5, 3)%Z) "return_to_base" (1 # 4, 0)
     = move (init (5, 5, 3)%Z) "HOVER" (1 # 4, 0).
Proof.
  assert (Hn : "return_to_base"%string ∉ ACTIONS).
  { unfold ACTIONS. intros H.
    repeat (apply elem_of_cons in H as [H|H]; [discriminate H|]).
    now apply elem_of_nil in H. }
  split; [exact Hn|].
  apply (proj1 (unknown_action_is_hover "return_to_base" Hn)).
Defined.

(** X6: [can_reach] is a safe estimate: whenever it answers yes, the
    battery covers a laden flight along a Manhattan route to the target,
    one lateral move per cell and one climb per level. *)
Theorem can_reach_covers_route (d : Drone.t) (target : Z * Z * Z)
    (Hyes : can_reach d target = true) :
  route_cost d target <= battery d.
Proof.
  unfold can_reach, route_cost in *.
  destruct target as [[tx ty] tz]. destruct (position d) as [[px py] pz].
  apply Qle_bool_iff in Hyes.
  assert (Hdz : 0 <= inject_Z (Z.abs (tz - pz))).
  { change 0 with (inject_Z 0). rewrite <- Zle_Qle. apply Z.abs_nonneg. }
  set (dx := Qabs (inject_Z tx - px)) in *.
  set (dy := Qabs (inject_Z ty - py)) in *.
  set (dz := inject_Z (Z.abs (tz - pz))) in *.
  assert (Hm : percent (_calculate_movement_energy
                          (set_cargo (cargo d) true true d) 1 0) == 12 # 100)
    by (vm_compute; reflexivity).
  assert (Ha : percent ENERGY_PER_ALTITUDE == 2 # 10)
    by (vm_compute; reflexivity).
  rewrite Hm, Ha.
  assert (Hn : ((dx + dy) * (inject_Z CELL_SIZE / 1000) * ENERGY_PER_KM
                + dz * ENERGY_PER_ALTITUDE) * (12 # 10)
               / BATTERY_CAPACITY * 100
               == (dx + dy) * (12 # 100) + dz * (24 # 100)).
  { unfold CELL_SIZE, ENERGY_PER_KM, ENERGY_PER_ALTITUDE, BATTERY_CAPACITY.
    field. }
  rewrite Hn in Hyes. lra.
Qed.

Lemma can_reach_covers_route_witness :
  can_reach (init (5, 5, 3)%Z) (40, 40, 3)%Z = true
  /\ route_cost (init (5, 5, 3)%Z) (40, 40, 3)%Z <= 100.
Proof.
  split; [vm_compute; reflexivity|].
  apply (can_reach_covers_route (init (5, 5, 3)%Z) (40, 40, 3)%Z).
  vm_compute. reflexivity.
Defined.
End DroneMoreFacts.

(** ** Weather process *)
Section WeatherFacts.
Import Config WeatherSystem.
Local Open Scope Q_scope.

Lemma Qlt_bool_true (a b : Q) : Qlt_bool a b = true <-> a < b.
Proof.
  unfold Qlt_bool. rewrite negb_true_iff. apply Qle_bool_false.
Qed.

Lemma Qlt_bool_false (a b : Q) : Qlt_bool a b = false <-> b <= a.
Proof.
  unfold Qlt_bool. rewrite negb_false_iff. apply Qle_bool_iff.
Qed.

Lemma clip_bounds v lo hi : lo <= hi -> lo <= clip v lo hi <= hi.
Proof.
  intros H. unfold clip.
  destruct (Qlt_bool v lo) eqn:E1; [lra|].
  destruct (Qlt_bool hi v) eqn:E2; [lra|].
  apply Qlt_bool_false in E1, E2. lra.
Qed.

(** X7: whatever the random draws, [update] leaves the wind speed within
    [0, 80]; and as long as the heading is a direction (cosine and sine
    within [-1, 1]) the wind then shifts the vehicle by at most one cell
    along each axis. *)
Theorem wind_stays_bounded (w : WeatherSystem.t) (r : draw)
    (Hcos : -1 <= heading_cos r <= 1) (Hsin : -1 <= heading_sin r <= 1) :
  0 <= wind_speed (update w r) <= 80
  /\ -1 <= fst (get_wind_effect (update w r)) <= 1
  /\ -1 <= snd (get_wind_effect (update w r)) <= 1.
Proof.
  assert (Hw : 0 <= wind_speed (update w r) <= 80).
  { unfold update. cbn. apply clip_bounds. lra. }
  split; [exact Hw|].
  unfold get_wind_effect. cbn [fst snd].
  assert (Hc : wind_cos (update w r) = heading_cos r) by reflexivity.
  assert (Hs : wind_sin (update w r) = heading_sin r) by reflexivity.
  rewrite Hc, Hs. unfold MAX_WIND_SPEED.
  set (s := wind_speed (update w r)) in *.
  assert (E : forall t, s / 40 * t * (1 # 2) == s * t * (1 # 80))
    by (intros t; field).
  rewrite !E.
  assert (Hb : forall t, -1 <= t <= 1 -> -1 <= s * t * (1 # 80) <= 1).
  { intros t Ht.
    assert (H1 : 0 <= s * (1 - t)) by (apply Qmult_le_0_compat; lra).
    assert (H2 : 0 <= s * (1 + t)) by (apply Qmult_le_0_compat; lra).
    lra. }
  split; now apply Hb.
Qed.

Lemma wind_stays_bounded_witness :
  let r := mk_draw (Some (THUNDERSTORM, 70)) 2 (3 # 5) (-4 # 5) in
  let w := update CityEnvironment.east_breeze r in
  wind_speed w == 72
  /\ fst (get_wind_effect w) == 54 # 100
  /\ -1 <= snd (get_wind_effect w) <= 1.
Proof.
  intros r w.
  assert (Hc : -1 <= heading_cos r <= 1)
    by (split; vm_compute; discriminate).
  assert (Hs : -1 <= heading_sin r <= 1)
    by (split; vm_compute; discriminate).
  destruct (wind_stays_bounded CityEnvironment.east_breeze r Hc Hs)
    as (_ & _ & Hy).
  split; [vm_compute; reflexivity|]. split; [vm_compute; reflexivity|].
  exact Hy.
Defined.

Lemma choice_listed l cumulated u c :
  choice l cumulated u = Some c -> In c (map fst l).
Proof.
  revert cumulated. induction l as [|[c' p] l IH]; intros cumulated; cbn.
  - discriminate.
  - destruct (Qlt_bool u (cumulated + p)).
    + intros [= ->]. now left.
    + intros H. right. now apply (IH _ H).
Qed.

Lemma choice_defined l cumulated u :
  cumulated <= u ->
  u < cumulated + fold_right Qplus 0 (map snd l) ->
  is_Some (choice l cumulated u).
Proof.
  revert cumulated. induction l as [|[c p] l IH]; intros cumulated; cbn.
  - intros H0 H. exfalso. lra.
  - intros H0 H. destruct (Qlt_bool u (cumulated + p)) eqn:E; [eauto|].
    apply Qlt_bool_false in E. apply IH; lra.
Qed.

(** X8: every row of the weather transition table is a probability
    distribution (positive entries summing to 1), so a change of weather
    with a uniform draw in [0, 1) always yields one of the listed
    successors of the current condition; in particular the weather never
    jumps from clear, cloudy or light rain straight into a storm, and a
    thunderstorm only follows a storm or a thunderstorm. *)
Theorem weather_changes_follow_table (w : WeatherSystem.t) (u s hc hs : Q)
    (Hu : 0 <= u < 1) :
  fold_right Qplus 0 (map snd (transitions (condition w))) == 1
  /\ Forall (fun p => 0 < snd p) (transitions (condition w))
  /\ (exists w', _change_weather w u s hc hs = Some w'
                 /\ In (condition w') (map fst (transitions (condition w)))
                 /\ wind_speed w' = s)
  /\ (forall w', _change_weather w u s hc hs = Some w' ->
        (condition w' = STORM ->
         In (condition w) [WINDY; HEAVY_RAIN; STORM; THUNDERSTORM])
        /\ (condition w' = THUNDERSTORM ->
            In (condition w) [STORM; THUNDERSTORM])).
Proof.
  assert (Hsum : fold_right Qplus 0 (map snd (transitions (condition w))) == 1)
    by (destruct (condition w); vm_compute; reflexivity).
  split; [exact Hsum|].
  split.
  { destruct (condition w); cbn; repeat constructor. }
  assert (Hdef : is_Some (choice (transitions (condition w)) 0 u))
    by (apply choice_defined; lra).
  destruct Hdef as [c Hc].
  unfold _change_weather. rewrite Hc. cbn.
  pose proof (choice_listed _ _ _ _ Hc) as Hin.
  split; [eexists; split; [reflexivity|]; cbn; auto|].
  intros w' [= <-]. cbn [condition].
  destruct (condition w); cbn in Hin |- *; split; intros ->;
    intuition discriminate.
Qed.

Lemma weather_changes_follow_table_witness :
  (0 <= 9 # 10 < 1)
  /\ _change_weather CityEnvironment.east_breeze (9 # 10) 12 1 0
     = Some (mk CLOUDY 12 1 0).
Proof.
  assert (Hu : 0 <= 9 # 10 < 1) by (split; vm_compute; [discriminate|reflexivity]).
  split; [exact Hu|].
  destruct (weather_changes_follow_table CityEnvironment.east_breeze
              (9 # 10) 12 1 0 Hu) as (_ & _ & (w' & Hw & _) & _).
  rewrite Hw. revert Hw. vm_compute. now intros [= <-].
Defined.
End WeatherFacts.

(** ** City map queries *)
Section ObstacleFacts.
Import Config CityObstacles.
Local Open Scope Q_scope.

Lemma nearer_distance x y m n s :
  nearer x y (Some m, n) s
  = if Qlt_bool (station_distance x y s) m
    then (Some (station_distance x y s), s) else (Some m, n).
Proof. destruct s as [sx sy]. reflexivity. Qed.

Lemma fold_nearer x y l m n :
  m = station_distance x y n ->
  let r := fold_left (nearer x y) l (Some m, n) in
  fst r = Some (station_distance x y (snd r))
  /\ (snd r = n \/ In (snd r) l)
  /\ station_distance x y (snd r) <= m
  /\ forall s, In s l -> station_distance x y (snd r) <= station_distance x y s.
Proof.
  revert m n. induction l as [|s l IH]; intros m n Hm; cbn zeta.
  - cbn. subst m. repeat split; auto; [lra | intros s []].
  - cbn [fold_left]. rewrite nearer_distance.
    destruct (Qlt_bool (station_distance x y s) m) eqn:E.
    + apply Qlt_bool_true in E.
      destruct (IH (station_distance x y s) s eq_refl) as (H1 & H2 & H3 & H4).
      split; [exact H1|].
      split; [right; destruct H2 as [H2|H2]; [left; now rewrite H2 | now right]|].
      split; [lra|].
      intros s' [<-|Hs']; [exact H3 | now apply H4].
    + apply Qlt_bool_false in E.
      destruct (IH m n Hm) as (H1 & H2 & H3 & H4).
      split; [exact H1|]. split; [destruct H2; auto; right; now right|].
      split; [exact H3|].
      intros s' [<-|Hs']; [lra | now apply H4].
Qed.

(** X9: [get_nearest_charging_station] answers [None] exactly when the
    city has no charging station; otherwise it returns one of the city's
    stations, and no station is closer to (x, y) in Manhattan distance. *)
Theorem nearest_charging_station_is_nearest (c : CityObstacles.t) (x y : Q) :
  (get_nearest_charging_station c x y = None <-> charging_stations c = [])
  /\ forall n, get_nearest_charging_station c x y = Some n ->
       In n (charging_stations c)
       /\ forall s, In s (charging_stations c) ->
            station_distance x y n <= station_distance x y s.
Proof.
  unfold get_nearest_charging_station.
  destruct (charging_stations c) as [|s0 l] eqn:El.
  - split; [tauto|]. discriminate.
  - split; [split; discriminate|].
    intros n [= <-]. cbn [fold_left].
    assert (E0 : nearer x y (None, s0) s0
                 = (Some (station_distance x y s0), s0))
      by (destruct s0; reflexivity).
    rewrite E0.
    destruct (fold_nearer x y l _ s0 eq_refl) as (_ & H2 & H3 & H4).
    split.
    + destruct H2 as [->|H2]; [now left | now right].
    + intros s [<-|Hs]; [exact H3 | now apply H4].
Qed.

Lemma offsets_spec radius dx :
  In dx (offsets radius) <-> (- radius <= dx <= radius)%Z.
Proof.
  unfold offsets. rewrite in_map_iff. split.
  - intros (i & <- & Hi). apply in_seq in Hi. lia.
  - intros H. exists (Z.to_nat (dx + radius)). split; [lia|].
    apply in_seq. lia.
Qed.

Lemma flat_map_length_le {A B} (f : A -> list B) (l : list A) (k : nat) :
  (forall a, length (f a) <= k)%nat ->
  (length (flat_map f l) <= length l * k)%nat.
Proof.
  intros H. induction l as [|a l IH]; cbn; [lia|].
  rewrite length_app. specialize (H a). lia.
Qed.

(** X10: [get_obstacles_in_radius] reports exactly the cells at an
    offset of at most [radius] along each axis that lie inside the grid
    and carry a building, each with that building's height; it never
    reports more than (2 radius + 1)^2 cells. *)
Theorem obstacles_in_radius_exact (c : CityObstacles.t) (x y : Q)
    (radius : Z) (Hradius : (0 <= radius)%Z) :
  (forall nx ny h,
      In (nx, ny, h) (get_obstacles_in_radius c x y radius) <->
      exists dx dy,
        (- radius <= dx <= radius)%Z /\ (- radius <= dy <= radius)%Z
        /\ nx = x + inject_Z dx /\ ny = y + inject_Z dy
        /\ is_valid_position c nx ny = true
        /\ h = get_building_height c nx ny /\ (0 < h)%Z)
  /\ (length (get_obstacles_in_radius c x y radius)
      <= Z.to_nat ((2 * radius + 1) * (2 * radius + 1)))%nat.
Proof.
  split.
  - intros nx ny h. unfold get_obstacles_in_radius.
    rewrite in_flat_map. split.
    + intros (dx & Hdx & Hin). apply in_flat_map in Hin as (dy & Hdy & Hin).
      apply offsets_spec in Hdx, Hdy.
      destruct (is_valid_position c _ _) eqn:Ev; [|destruct Hin].
      destruct (0 <? _)%Z eqn:Eh; [|destruct Hin].
      destruct Hin as [[= <- <- <-]|[]].
      exists dx, dy. apply Z.ltb_lt in Eh. auto 10.
    + intros (dx & dy & Hdx & Hdy & -> & -> & Hv & -> & Hh).
      exists dx. split; [now apply offsets_spec|].
      apply in_flat_map. exists dy. split; [now apply offsets_spec|].
      rewrite Hv. apply Z.ltb_lt in Hh. rewrite Hh. now left.
  - unfold get_obstacles_in_radius.
    assert (Hlen : length (offsets radius) = Z.to_nat (2 * radius + 1))
      by (unfold offsets; now rewrite length_map, length_seq).
    etransitivity.
    { apply (flat_map_length_le _ _ (Z.to_nat (2 * radius + 1))).
      intros dx. etransitivity.
      { apply (flat_map_length_le _ _ 1%nat). intros dy.
        destruct (is_valid_position c _ _); [|cbn; lia].
        destruct (0 <? _)%Z; cbn; lia. }
      rewrite Hlen. lia. }
    rewrite Hlen. lia.
Qed.

Lemma obstacles_in_radius_exact_witness :
  (0 <= 3)%Z
  /\ length (get_obstacles_in_radius CityEnvironment.guarded_city 5 5 3) = 2%nat
  /\ In (6 + 0, 5 + 0, 8%Z)
        (map (fun o => (fst (fst o) + 0, snd (fst o) + 0, snd o))
             (get_obstacles_in_radius CityEnvironment.guarded_city 5 5 3))
  /\ (length (get_obstacles_in_radius CityEnvironment.guarded_city 5 5 3)
      <= 49)%nat.
Proof.
  assert (H3 : (0 <= 3)%Z) by lia.
  destruct (obstacles_in_radius_exact CityEnvironment.guarded_city 5 5 3 H3)
    as [_ Hlen].
  split; [exact H3|]. split; [vm_compute; reflexivity|].
  split; [vm_compute; right; now left | exact Hlen].
Defined.
End ObstacleFacts.

(** ** The mission tick, block by block *)
Section StepFacts.
Import Config CityEnvironment.
Local Open Scope Q_scope.

Ltac frame :=
  unfold same_mission; cbn; repeat apply conj; first [reflexivity | lia].

Lemma same_mission_refl e : same_mission e e.
Proof. frame. Qed.

Lemma same_mission_trans e1 e2 e3 :
  same_mission e1 e2 -> same_mission e2 e3 -> same_mission e1 e3.
Proof.
  unfold same_mission. intros H1 H2.
  decompose [and] H1. decompose [and] H2.
  repeat apply conj; first [congruence | lia].
Qed.

Lemma execute_action_mission a w k :
  same_mission (env k) (env (execute_action a w k)).
Proof.
  unfold execute_action.
  destruct (Drone.move (drone (env k)) a w) as [success d].
  destruct (negb success); [|frame].
  destruct (Drone.is_crashed d); [|frame].
  destruct (bool_decide _); frame.
Qed.

Lemma check_collision_mission pos k :
  same_mission (env k) (env (check_collision pos k)).
Proof.
  unfold check_collision. destruct pos as [[x y] z].
  destruct (CityObstacles.is_collision _ _ _ _); frame.
Qed.

Lemma check_no_fly_mission pos k :
  same_mission (env k) (env (check_no_fly pos k)).
Proof.
  unfold check_no_fly. destruct pos as [[x y] z].
  destruct (CityObstacles.is_no_fly_zone _ _ _); frame.
Qed.

Lemma check_storm_mission k : same_mission (env k) (env (check_storm k)).
Proof.
  unfold check_storm.
  destruct (existsb _ _); [|frame].
  destruct (_ <=? _)%Z; frame.
Qed.

Lemma check_target_mission k : same_mission (env k) (env (check_target k)).
Proof.
  unfold check_target.
  destruct (_is_at_target (env k)); [|frame].
  destruct (target_position (env k)) as [[tx ty] tz] eqn:Ht.
  unfold Drone.deliver_cargo.
  destruct (negb (Drone.has_package (drone (env k)))).
  - unfold same_mission. cbn. rewrite Ht.
    repeat apply conj; first [reflexivity | lia].
  - destruct (truthy _); unfold same_mission; cbn; rewrite Ht;
      repeat apply conj; first [reflexivity | lia].
Qed.

Lemma tail_mission a k :
  same_mission (env k)
    (env (check_timeout (charging_penalty a (time_penalty k)))).
Proof.
  unfold check_timeout, charging_penalty, time_penalty.
  destruct (negb (done k)); destruct (String.eqb a "CHARGE");
    cbn [env reward done]; destruct (_ <=? _)%Z; frame.
Qed.

Lemma after_storm_block_mission e a r :
  same_mission (pre_flight e r) (env (after_storm_block e a r)).
Proof.
  unfold after_storm_block.
  eapply same_mission_trans; [|apply check_storm_mission].
  eapply same_mission_trans; [|apply check_no_fly_mission].
  eapply same_mission_trans; [|apply check_collision_mission].
  apply (execute_action_mission a _ (mk_tick (pre_flight e r) 0 false)).
Qed.

(** The first two checks of [step] both fail: the tick goes through all
    its blocks. *)
Lemma step_main e a r :
  Drone.is_payload_spoiled (drone (pre_flight e r)) = false ->
  Qle_bool EXTREME_WIND_SPEED
    (WeatherSystem.wind_speed (weather (pre_flight e r))) = false ->
  step e a r
  = (let k8 := check_timeout (charging_penalty a (time_penalty
                 (check_target (after_storm_block e a r)))) in
     let e9 := set_total_reward (total_reward (env k8) + reward k8) (env k8) in
     (e9, (_get_state e9, reward k8, done k8, InfoFull (full_info e9)))).
Proof.
  intros Hfresh Hwind. unfold step, after_storm_block, pre_flight in *.
  rewrite Hfresh, Hwind. reflexivity.
Qed.

Lemma outcome_in_same s0 allowed k k' :
  done k' = done k -> reward k' = reward k ->
  mission_status (env k') = mission_status (env k) ->
  outcome_in s0 allowed k -> outcome_in s0 allowed k'.
Proof.
  unfold outcome_in. intros -> -> ->. auto.
Qed.

Lemma execute_action_outcome s0 allowed a w k :
  In FAILED_BATTERY allowed -> In FAILED_COLLISION allowed ->
  outcome_in s0 allowed k -> outcome_in s0 allowed (execute_action a w k).
Proof.
  intros Hb Hc Hk. unfold execute_action.
  destruct (Drone.move (drone (env k)) a w) as [success d].
  destruct (negb success);
    [|now apply (outcome_in_same s0 allowed k)].
  destruct (Drone.is_crashed d);
    [|now apply (outcome_in_same s0 allowed k)].
  destruct (bool_decide _); right; cbn; auto.
Qed.

Lemma check_collision_outcome s0 allowed pos k :
  In FAILED_COLLISION allowed ->
  outcome_in s0 allowed k -> outcome_in s0 allowed (check_collision pos k).
Proof.
  intros Hc Hk. unfold check_collision. destruct pos as [[x y] z].
  destruct (CityObstacles.is_collision _ _ _ _); [|exact Hk].
  right. cbn. auto.
Qed.

Lemma check_no_fly_outcome s0 allowed pos k :
  In FAILED_INTERCEPTION allowed ->
  outcome_in s0 allowed k -> outcome_in s0 allowed (check_no_fly pos k).
Proof.
  intros Hc Hk. unfold check_no_fly. destruct pos as [[x y] z].
  destruct (CityObstacles.is_no_fly_zone _ _ _); [|exact Hk].
  right. cbn. auto.
Qed.

Lemma check_storm_outcome s0 allowed k :
  (is_stormy (weather (env k)) = true ->
   (STORM_DAMAGE_THRESHOLD <= Drone.steps_in_storm (drone (env k)) + 1)%Z ->
   In FAILED_STORM allowed) ->
  outcome_in s0 allowed k -> outcome_in s0 allowed (check_storm k).
Proof.
  intros Hs Hk. unfold check_storm. unfold is_stormy in Hs.
  destruct (existsb _ _).
  - cbn [Drone.steps_in_storm Drone.set_steps_in_storm].
    destruct (Z.leb_spec STORM_DAMAGE_THRESHOLD
                (Drone.steps_in_storm (drone (env k)) + 1)).
    + right. cbn. auto.
    + now apply (outcome_in_same s0 allowed k).
  - now apply (outcome_in_same s0 allowed k).
Qed.

Lemma update_payload_steps d dt :
  Drone.steps_in_storm (Drone.update_payload_condition d dt)
  = Drone.steps_in_storm d
  /\ Drone.battery (Drone.update_payload_condition d dt) = Drone.battery d.
Proof.
  unfold Drone.update_payload_condition.
  destruct (negb (Drone.has_package d)); [auto|].
  destruct (Qle_bool PAYLOAD_MAX_TIME _); [auto|].
  destruct (Qle_bool PAYLOAD_SPOILAGE_WARNING _); auto.
Qed.

Lemma move_steps_in_storm d a w :
  Drone.steps_in_storm (snd (Drone.move d a w)) = Drone.steps_in_storm d.
Proof.
  unfold Drone.move.
  destruct (Drone.is_crashed d || Drone.is_charging d); [reflexivity|].
  destruct (Qle_bool (Drone.battery d) 0); [reflexivity|].
  destruct (Drone.movement d a) as [[[[dx dy] dz] c]|].
  - destruct (Drone.position d) as [[px py] pz].
    destruct (negb (Qeq_bool _ _) || negb (Qeq_bool _ _)); reflexivity.
  - unfold Drone._charge.
    destruct (Qle_bool 100 (Drone.battery d)); [reflexivity|].
    cbn. destruct (Qle_bool 100 _); reflexivity.
Qed.

Lemma execute_action_steps a w k :
  Drone.steps_in_storm (drone (env (execute_action a w k)))
  = Drone.steps_in_storm (drone (env k)).
Proof.
  unfold execute_action.
  pose proof (move_steps_in_storm (drone (env k)) a w) as Hm.
  destruct (Drone.move (drone (env k)) a w) as [success d].
  cbn [snd] in Hm.
  destruct (negb success); [|exact Hm].
  destruct (Drone.is_crashed d); [|exact Hm].
  destruct (bool_decide _); exact Hm.
Qed.

Lemma before_storm_steps pos k :
  Drone.steps_in_storm
    (drone (env (check_no_fly pos (check_collision pos k))))
  = Drone.steps_in_storm (drone (env k)).
Proof.
  destruct pos as [[x y] z]. unfold check_no_fly, check_collision.
  destruct (CityObstacles.is_collision _ _ _ _);
    destruct (CityObstacles.is_no_fly_zone _ _ _); reflexivity.
Qed.

Lemma after_storm_block_outcome e a r allowed :
  In FAILED_BATTERY allowed -> In FAILED_COLLISION allowed ->
  In FAILED_INTERCEPTION allowed ->
  (is_stormy (weather (pre_flight e r)) = true ->
   (STORM_DAMAGE_THRESHOLD <= Drone.steps_in_storm (drone e) + 1)%Z ->
   In FAILED_STORM allowed) ->
  outcome_in (mission_status e) allowed (after_storm_block e a r).
Proof.
  intros Hb Hc Hi Hs. unfold after_storm_block.
  set (k0 := mk_tick (pre_flight e r) 0 false).
  set (k1 := execute_action a _ k0).
  set (pos := Drone.position (drone (env k1))).
  assert (Hw : weather (env (check_no_fly pos (check_collision pos k1)))
               = weather (pre_flight e r)).
  { pose proof (execute_action_mission a
      (WeatherSystem.get_wind_effect (weather (pre_flight e r))) k0) as H1.
    pose proof (check_collision_mission pos k1) as H2.
    pose proof (check_no_fly_mission pos (check_collision pos k1)) as H3.
    pose proof (same_mission_trans _ _ _ H1
                  (same_mission_trans _ _ _ H2 H3)) as H.
    apply H. }
  assert (Hn : Drone.steps_in_storm
                 (drone (env (check_no_fly pos (check_collision pos k1))))
               = Drone.steps_in_storm (drone e)).
  { rewrite before_storm_steps. unfold k1.
    rewrite execute_action_steps. unfold k0, pre_flight. cbn.
    apply update_payload_steps. }
  apply check_storm_outcome; [now rewrite Hw, Hn|].
  apply check_no_fly_outcome; [exact Hi|].
  apply check_collision_outcome; [exact Hc|].
  apply execute_action_outcome; [exact Hb|exact Hc|].
  left. cbn. auto.
Qed.

(** The target-arrival block either delivers, or leaves [reward], [done]
    and the status alone. *)
Lemma check_target_cases k :
  (_is_at_target (env k) = true
   /\ Drone.has_package (drone (env k)) = true
   /\ done (check_target k) = true
   /\ mission_status (env (check_target k)) = SUCCESS
   /\ reward (check_target k)
      = REWARD_DELIVERY_SUCCESS
        + REWARD_FAST_DELIVERY_BONUS
          * (1 - inject_Z (current_step (env k))
                 / inject_Z MAX_STEPS_PER_EPISODE)
        + REWARD_BATTERY_EFFICIENT * (Drone.battery (drone (env k)) / 100)
   /\ Drone.battery (drone (env (check_target k)))
      = Drone.battery (drone (env k))
   /\ Drone.has_package (drone (env (check_target k))) = false
   /\ Drone.cargo (drone (env (check_target k))) = None
   /\ Drone.payload_locked (drone (env (check_target k))) = false)
  \/ (done (check_target k) = done k
      /\ reward (check_target k) = reward k
      /\ mission_status (env (check_target k)) = mission_status (env k)).
Proof.
  unfold check_target.
  destruct (_is_at_target (env k)); [|right; auto].
  destruct (target_position (env k)) as [[tx ty] tz].
  unfold Drone.deliver_cargo.
  destruct (Drone.has_package (drone (env k))) eqn:Hp; cbn [negb].
  - destruct (truthy _).
    + left. cbn. repeat apply conj; reflexivity.
    + right. cbn. auto.
  - right. cbn. auto.
Qed.

(** The last three blocks: the timeout fires, or only the reward moves. *)
Lemma tail_cases a k :
  let k8 := check_timeout (charging_penalty a (time_penalty k)) in
  ((MAX_STEPS_PER_EPISODE <= current_step (env k))%Z
   /\ done k8 = true /\ mission_status (env k8) = FAILED_TIMEOUT
   /\ reward k8 = REWARD_COLLISION)
  \/ ((current_step (env k) < MAX_STEPS_PER_EPISODE)%Z
      /\ done k8 = done k
      /\ mission_status (env k8) = mission_status (env k)
      /\ drone (env k8) = drone (env k)
      /\ reward k8
         = (let r1 := if done k then reward k
                      else reward k + REWARD_TIME_PENALTY in
            if String.eqb a "CHARGE" then r1 + REWARD_CHARGING else r1)).
Proof.
  cbn zeta. unfold check_timeout, charging_penalty, time_penalty.
  destruct (done k) eqn:Hd; cbn [negb];
    destruct (String.eqb a "CHARGE"); cbn [env reward done];
    destruct (Z.leb_spec MAX_STEPS_PER_EPISODE (current_step (env k)));
    first [ left; cbn; now auto
          | right; cbn; rewrite ?Hd; repeat apply conj; now auto ].
Qed.


Lemma step_spoiled e a r :
  Drone.is_payload_spoiled (drone (pre_flight e r)) = true ->
  step e a r
  = (let e4 := set_payload_spoilages (payload_spoilages (pre_flight e r) + 1)
                 (set_mission_status FAILED_PAYLOAD_SPOILED
                    (pre_flight e r)) in
     (e4, (_get_state e4, REWARD_PAYLOAD_SPOILED, true,
           InfoEarly FAILED_PAYLOAD_SPOILED "payload_spoiled"))).
Proof.
  intros Hs. unfold step, pre_flight in *. rewrite Hs. reflexivity.
Qed.

Lemma step_extreme e a r :
  Drone.is_payload_spoiled (drone (pre_flight e r)) = false ->
  Qle_bool EXTREME_WIND_SPEED
    (WeatherSystem.wind_speed (weather (pre_flight e r))) = true ->
  step e a r
  = (let e4 := set_drone (Drone.crash (drone (pre_flight e r)) "storm_damage")
                 (pre_flight e r) in
     let e5 := set_storm_crashes (storm_crashes e4 + 1)
                 (set_mission_status FAILED_STORM e4) in
     (e5, (_get_state e5, REWARD_STORM_CRASH, true,
           InfoEarly FAILED_STORM "extreme_weather"))).
Proof.
  intros Hs Hw. unfold step, pre_flight in *. rewrite Hs, Hw. reflexivity.
Qed.

(** What [step] returns when the tick goes through all its blocks. *)
Lemma step_main_fields e a r :
  Drone.is_payload_spoiled (drone (pre_flight e r)) = false ->
  Qle_bool EXTREME_WIND_SPEED
    (WeatherSystem.wind_speed (weather (pre_flight e r))) = false ->
  done_of (step e a r) = done (last_block e a r)
  /\ reward_of (step e a r) = reward (last_block e a r)
  /\ mission_status (env_of (step e a r))
     = mission_status (env (last_block e a r))
  /\ drone (env_of (step e a r)) = drone (env (last_block e a r))
  /\ status_of (info_of (step e a r))
     = mission_status (env (last_block e a r))
  /\ total_reward (env_of (step e a r))
     = total_reward (env (last_block e a r)) + reward (last_block e a r)
  /\ (exists i, info_of (step e a r) = InfoFull i).
Proof.
  intros Hs Hw. rewrite (step_main e a r Hs Hw). fold (last_block e a r).
  cbn zeta. unfold done_of, reward_of, env_of, info_of. cbn [fst snd].
  repeat apply conj; try reflexivity. eexists. reflexivity.
Qed.

Lemma last_block_mission e a r :
  same_mission (pre_flight e r) (env (last_block e a r)).
Proof.
  unfold last_block.
  eapply same_mission_trans; [|apply tail_mission].
  eapply same_mission_trans; [|apply check_target_mission].
  apply after_storm_block_mission.
Qed.

(** The status and the flags at the end of a full tick. *)
Lemma last_block_outcome e a r allowed :
  In FAILED_BATTERY allowed -> In FAILED_COLLISION allowed ->
  In FAILED_INTERCEPTION allowed ->
  (is_stormy (weather (pre_flight e r)) = true ->
   (STORM_DAMAGE_THRESHOLD <= Drone.steps_in_storm (drone e) + 1)%Z ->
   In FAILED_STORM allowed) ->
  (done (last_block e a r) = false
   /\ mission_status (env (last_block e a r)) = mission_status e
   /\ reward (last_block e a r)
      = (if String.eqb a "CHARGE"
         then 0 + REWARD_TIME_PENALTY + REWARD_CHARGING
         else 0 + REWARD_TIME_PENALTY))
  \/ (done (last_block e a r) = true
      /\ In (mission_status (env (last_block e a r)))
            (SUCCESS :: FAILED_TIMEOUT :: allowed)).
Proof.
  intros Hb Hc Hi Hs.
  pose proof (after_storm_block_outcome e a r allowed Hb Hc Hi Hs) as H4.
  unfold last_block.
  set (k4 := after_storm_block e a r) in *.
  destruct (tail_cases a (check_target k4))
    as [(_ & Hd & Hst & _)|(_ & Hd & Hst & _ & Hr)].
  { right. split; [exact Hd|]. rewrite Hst. cbn. auto. }
  rewrite Hd, Hst, Hr.
  destruct (check_target_cases k4)
    as [(_ & _ & Hd5 & Hs5 & _)|(Hd5 & Hr5 & Hs5)].
  { right. split; [exact Hd5|]. rewrite Hs5. cbn. auto. }
  rewrite Hd5, Hr5, Hs5.
  destruct H4 as [(Hd4 & Hs4 & Hr4)|(Hd4 & Hs4)].
  - left. rewrite Hd4, Hr4. auto.
  - right. split; [exact Hd4|]. cbn. auto.
Qed.

Lemma last_block_outcome_all e a r :
  (done (last_block e a r) = false
   /\ mission_status (env (last_block e a r)) = mission_status e
   /\ reward (last_block e a r)
      = (if String.eqb a "CHARGE"
         then 0 + REWARD_TIME_PENALTY + REWARD_CHARGING
         else 0 + REWARD_TIME_PENALTY))
  \/ (done (last_block e a r) = true
      /\ In (mission_status (env (last_block e a r)))
            [SUCCESS; FAILED_TIMEOUT; FAILED_BATTERY; FAILED_COLLISION;
             FAILED_INTERCEPTION; FAILED_STORM]).
Proof. apply last_block_outcome; cbn; auto. Qed.

(** X11: whenever [step] reports [done], the mission status it leaves
    is a final one, never [IN_PROGRESS] and never [FAILED_VIOLATION];
    when it reports not done, the status is the one the environment had
    before the tick.  The status in the returned [info] is always the
    one of the environment. *)
Theorem done_means_final_status (e : CityEnvironment.t) (a : string)
    (r : WeatherSystem.draw) :
  (if done_of (step e a r)
   then In (mission_status (env_of (step e a r)))
          [SUCCESS; FAILED_TIMEOUT; FAILED_BATTERY; FAILED_COLLISION;
           FAILED_INTERCEPTION; FAILED_STORM; FAILED_PAYLOAD_SPOILED]
   else mission_status (env_of (step e a r)) = mission_status e)
  /\ status_of (info_of (step e a r))
     = mission_status (env_of (step e a r)).
Proof.
  destruct (Drone.is_payload_spoiled (drone (pre_flight e r))) eqn:Hs.
  { rewrite (step_spoiled e a r Hs). cbn. intuition. }
  destruct (Qle_bool EXTREME_WIND_SPEED
              (WeatherSystem.wind_speed (weather (pre_flight e r)))) eqn:Hw.
  { rewrite (step_extreme e a r Hs Hw). cbn. intuition. }
  destruct (step_main_fields e a r Hs Hw)
    as (Hd & _ & Hst & _ & Hinfo & _).
  rewrite Hd, Hst, Hinfo. split; [|reflexivity].
  destruct (last_block_outcome_all e a r) as [(Hd8 & Hs8 & _)|(Hd8 & Hs8)].
  - now rewrite Hd8.
  - rewrite Hd8. cbn in Hs8. cbn. intuition.
Qed.

Lemma pre_flight_frame e r :
  current_step (pre_flight e r) = (current_step e + 1)%Z
  /\ weather (pre_flight e r) = WeatherSystem.update (weather e) r
  /\ drone (pre_flight e r) = Drone.update_payload_condition (drone e) 1
  /\ mission_status (pre_flight e r) = mission_status e
  /\ total_reward (pre_flight e r) = total_reward e.
Proof. unfold pre_flight. cbn. auto. Qed.

(** X12: one tick advances the step counter by exactly one and applies
    one weather update, on every return path; it never changes the
    mission number, the city, the start or the target, never counts a
    violation, and never decreases a failure counter. *)
Theorem step_keeps_mission_frame (e : CityEnvironment.t) (a : string)
    (r : WeatherSystem.draw) :
  current_step (env_of (step e a r)) = (current_step e + 1)%Z
  /\ weather (env_of (step e a r)) = WeatherSystem.update (weather e) r
  /\ mission_id (env_of (step e a r)) = mission_id e
  /\ obstacles (env_of (step e a r)) = obstacles e
  /\ start_position (env_of (step e a r)) = start_position e
  /\ target_position (env_of (step e a r)) = target_position e
  /\ grid_size (env_of (step e a r)) = grid_size e
  /\ violations (env_of (step e a r)) = violations e
  /\ (collisions e <= collisions (env_of (step e a r)))%Z
  /\ (interceptions e <= interceptions (env_of (step e a r)))%Z
  /\ (storm_crashes e <= storm_crashes (env_of (step e a r)))%Z
  /\ (payload_spoilages e <= payload_spoilages (env_of (step e a r)))%Z.
Proof.
  destruct (Drone.is_payload_spoiled (drone (pre_flight e r))) eqn:Hs.
  { rewrite (step_spoiled e a r Hs). cbn.
    repeat apply conj; first [reflexivity | lia]. }
  destruct (Qle_bool EXTREME_WIND_SPEED
              (WeatherSystem.wind_speed (weather (pre_flight e r)))) eqn:Hw.
  { rewrite (step_extreme e a r Hs Hw). cbn.
    repeat apply conj; first [reflexivity | lia]. }
  rewrite (step_main e a r Hs Hw). fold (last_block e a r).
  cbn zeta. unfold env_of. cbn [fst].
  pose proof (last_block_mission e a r) as H. unfold same_mission in H.
  decompose [and] H. clear H.
  cbn [current_step weather mission_id obstacles start_position
       target_position grid_size violations collisions interceptions
       storm_crashes payload_spoilages set_total_reward].
  unfold pre_flight in *. cbn in *.
  repeat apply conj; first [assumption | lia].
Qed.

(** X13: the penalty of the two early returns of [step] (spoiled
    payload, extreme wind) is returned as the reward but never added to
    [total_reward]; on every other tick [total_reward] grows by exactly
    the returned reward. *)
Theorem early_returns_skip_total_reward (e : CityEnvironment.t) (a : string)
    (r : WeatherSystem.draw) :
  match info_of (step e a r) with
  | InfoEarly _ _ =>
    total_reward (env_of (step e a r)) = total_reward e
    /\ reward_of (step e a r) < 0
    /\ done_of (step e a r) = true
  | InfoFull _ =>
    total_reward (env_of (step e a r)) = total_reward e + reward_of (step e a r)
  end.
Proof.
  destruct (Drone.is_payload_spoiled (drone (pre_flight e r))) eqn:Hs.
  { rewrite (step_spoiled e a r Hs). cbn.
    repeat apply conj; reflexivity. }
  destruct (Qle_bool EXTREME_WIND_SPEED
              (WeatherSystem.wind_speed (weather (pre_flight e r)))) eqn:Hw.
  { rewrite (step_extreme e a r Hs Hw). cbn.
    repeat apply conj; reflexivity. }
  destruct (step_main_fields e a r Hs Hw)
    as (_ & Hr & _ & _ & _ & Ht & [i Hi]).
  rewrite Hi, Ht, Hr.
  pose proof (last_block_mission e a r) as H. unfold same_mission in H.
  decompose [and] H. clear H.
  destruct (pre_flight_frame e r) as (_ & _ & _ & _ & Htot).
  congruence.
Qed.

Lemma move_success_uncrashed d a w :
  fst (Drone.move d a w) = true ->
  Drone.is_crashed (snd (Drone.move d a w)) = false.
Proof.
  unfold Drone.move.
  destruct (Drone.is_crashed d) eqn:Hc; [discriminate|]. cbn [orb].
  destruct (Drone.is_charging d); [discriminate|].
  destruct (Qle_bool (Drone.battery d) 0); [discriminate|].
  destruct (Drone.movement d a) as [[[[dx dy] dz] c]|].
  - destruct (Drone.position d) as [[px py] pz].
    destruct (negb (Qeq_bool _ _) || negb (Qeq_bool _ _)); cbn; auto.
  - unfold Drone._charge.
    destruct (Qle_bool 100 (Drone.battery d)); [discriminate|].
    cbn. destruct (Qle_bool 100 _); cbn; auto.
Qed.

Lemma execute_action_running a w k :
  done (execute_action a w k) = false ->
  Drone.is_crashed (drone (env (execute_action a w k))) = false.
Proof.
  unfold execute_action.
  pose proof (move_success_uncrashed (drone (env k)) a w) as Hm.
  destruct (Drone.move (drone (env k)) a w) as [success d].
  cbn [fst snd] in Hm.
  destruct success; cbn [negb].
  - intros _. cbn. auto.
  - destruct (Drone.is_crashed d) eqn:Hc; [|intros _; exact Hc].
    destruct (bool_decide _); cbn; discriminate.
Qed.

Lemma check_storm_running k :
  (done k = false -> Drone.is_crashed (drone (env k)) = false) ->
  done (check_storm k) = false ->
  Drone.is_crashed (drone (env (check_storm k))) = false.
Proof.
  intros Hk. unfold check_storm.
  destruct (existsb _ _).
  - destruct (_ <=? _)%Z; cbn; [discriminate|exact Hk].
  - cbn. exact Hk.
Qed.

Lemma checks_running pos k :
  (done k = false -> Drone.is_crashed (drone (env k)) = false) ->
  done (check_storm (check_no_fly pos (check_collision pos k))) = false ->
  Drone.is_crashed
    (drone (env (check_storm (check_no_fly pos (check_collision pos k)))))
  = false.
Proof.
  intros Hk. apply check_storm_running.
  destruct pos as [[x y] z]. unfold check_no_fly.
  destruct (CityObstacles.is_no_fly_zone _ _ _); [cbn; discriminate|].
  unfold check_collision.
  destruct (CityObstacles.is_collision _ _ _ _); [cbn; discriminate|].
  exact Hk.
Qed.

Lemma check_target_crashed k :
  Drone.is_crashed (drone (env (check_target k)))
  = Drone.is_crashed (drone (env k)).
Proof.
  unfold check_target.
  destruct (_is_at_target (env k)); [|reflexivity].
  destruct (target_position (env k)) as [[tx ty] tz].
  unfold Drone.deliver_cargo.
  destruct (negb (Drone.has_package (drone (env k)))); cbn.
  - reflexivity.
  - destruct (truthy _); reflexivity.
Qed.

(** X14: a tick that does not end the episode costs exactly the time
    penalty, plus the charging penalty when the action is CHARGE, and
    leaves the vehicle uncrashed: stepping a crashed vehicle always
    reports [done]. *)
Theorem running_tick_reward (e : CityEnvironment.t) (a : string)
    (r : WeatherSystem.draw) (Hrunning : done_of (step e a r) = false) :
  reward_of (step e a r)
  = (if String.eqb a "CHARGE" then REWARD_TIME_PENALTY + REWARD_CHARGING
     else REWARD_TIME_PENALTY)
  /\ Drone.is_crashed (drone (env_of (step e a r))) = false.
Proof.
  destruct (Drone.is_payload_spoiled (drone (pre_flight e r))) eqn:Hs.
  { rewrite (step_spoiled e a r Hs) in Hrunning. discriminate. }
  destruct (Qle_bool EXTREME_WIND_SPEED
              (WeatherSystem.wind_speed (weather (pre_flight e r)))) eqn:Hw.
  { rewrite (step_extreme e a r Hs Hw) in Hrunning. discriminate. }
  destruct (step_main_fields e a r Hs Hw)
    as (Hd & Hr & _ & Hdr & _).
  rewrite Hd in Hrunning. rewrite Hr, Hdr. split.
  - destruct (last_block_outcome_all e a r) as [(_ & _ & Hr8)|(Hd8 & _)];
      [|congruence].
    rewrite Hr8. destruct (String.eqb a "CHARGE"); reflexivity.
  - unfold last_block in *.
    set (k4 := after_storm_block e a r) in *.
    destruct (tail_cases a (check_target k4))
      as [(_ & Hd8 & _)|(_ & Hd8 & _ & Hdr8 & _)]; [congruence|].
    rewrite Hdr8, check_target_crashed. rewrite Hd8 in Hrunning.
    destruct (check_target_cases k4)
      as [(_ & _ & Hd5 & _)|(Hd5 & _)]; [congruence|].
    rewrite Hd5 in Hrunning. subst k4. unfold after_storm_block in *.
    apply checks_running; [|exact Hrunning].
    apply execute_action_running.
Qed.

Lemma running_tick_reward_witness :
  done_of (step guarded_start "CHARGE" steady) = false
  /\ reward_of (step guarded_start "CHARGE" steady)
     = REWARD_TIME_PENALTY + REWARD_CHARGING.
Proof.
  split; [vm_compute; reflexivity|].
  apply (running_tick_reward guarded_start "CHARGE" steady).
  vm_compute. reflexivity.
Defined.

(** X15: when [step] ends a mission with [SUCCESS], the reward is the
    delivery reward plus the time bonus for the tick count and the
    battery bonus for the remaining charge (less the charging penalty
    for CHARGE); the cargo has been handed over, the vehicle is within
    one cell of the target and the step limit has not been reached. *)
Theorem success_reward (e : CityEnvironment.t) (a : string)
    (r : WeatherSystem.draw)
    (Hsuccess : mission_status (env_of (step e a r)) = SUCCESS)
    (Hdone : done_of (step e a r) = true) :
  reward_of (step e a r)
  = (let reward :=
       REWARD_DELIVERY_SUCCESS
       + REWARD_FAST_DELIVERY_BONUS
         * (1 - inject_Z (current_step e + 1)
                / inject_Z MAX_STEPS_PER_EPISODE)
       + REWARD_BATTERY_EFFICIENT
         * (Drone.battery (drone (env_of (step e a r))) / 100) in
     if String.eqb a "CHARGE" then reward + REWARD_CHARGING else reward)
  /\ Drone.has_package (drone (env_of (step e a r))) = false
  /\ Drone.cargo (drone (env_of (step e a r))) = None
  /\ Drone.payload_locked (drone (env_of (step e a r))) = false
  /\ (current_step e + 1 < MAX_STEPS_PER_EPISODE)%Z.
Proof.
  destruct (Drone.is_payload_spoiled (drone (pre_flight e r))) eqn:Hs.
  { rewrite (step_spoiled e a r Hs) in Hsuccess. discriminate. }
  destruct (Qle_bool EXTREME_WIND_SPEED
              (WeatherSystem.wind_speed (weather (pre_flight e r)))) eqn:Hw.
  { rewrite (step_extreme e a r Hs Hw) in Hsuccess. discriminate. }
  destruct (step_main_fields e a r Hs Hw)
    as (Hd & Hr & Hst & Hdr & _).
  rewrite Hd in Hdone. rewrite Hst in Hsuccess. rewrite Hr, Hdr.
  assert (H4 : outcome_in (mission_status e)
                 [FAILED_BATTERY; FAILED_COLLISION; FAILED_INTERCEPTION;
                  FAILED_STORM] (after_storm_block e a r))
    by (apply after_storm_block_outcome; cbn; auto).
  pose proof (after_storm_block_mission e a r) as Hm.
  unfold same_mission in Hm. destruct Hm as (Hstep & _).
  destruct (pre_flight_frame e r) as (Hstep0 & _).
  unfold last_block in *.
  set (k4 := after_storm_block e a r) in *.
  destruct (tail_cases a (check_target k4))
    as [(_ & _ & Hs8 & _)|(Hlt & Hd8 & Hs8 & Hdr8 & Hr8)]; [congruence|].
  rewrite Hs8 in Hsuccess. rewrite Hd8 in Hdone. rewrite Hdr8, Hr8.
  pose proof (check_target_mission k4) as Hm5.
  unfold same_mission in Hm5. destruct Hm5 as (Hstep5 & _).
  destruct (check_target_cases k4)
    as [(_ & _ & Hd5 & _ & Hr5 & Hb5 & Hp5 & Hc5 & Hl5)|(Hd5 & _ & Hs5)].
  - rewrite Hd5, Hr5, Hb5, Hstep, Hstep0.
    repeat apply conj; auto. lia.
  - rewrite Hs5 in Hsuccess. rewrite Hd5 in Hdone.
    destruct H4 as [(Hd4 & _)|(_ & Hin)]; [congruence|].
    rewrite Hsuccess in Hin. cbn in Hin. intuition discriminate.
Qed.

Lemma success_reward_witness :
  mission_status (env_of (step corner_start "MOVE_EAST" steady)) = SUCCESS
  /\ Drone.cargo (drone (env_of (step corner_start "MOVE_EAST" steady)))
     = None.
Proof.
  split; [vm_compute; reflexivity|].
  apply (success_reward corner_start "MOVE_EAST" steady);
    vm_compute; reflexivity.
Defined.

(** X16: when the payload is still good after ageing and the updated
    wind reaches the extreme speed, [step] ignores the action: the
    vehicle is crashed by storm damage where it stands, with its battery
    untouched, the tick returns the storm penalty with [done], and one
    storm crash is counted. *)
Theorem extreme_wind_downs_vehicle (e : CityEnvironment.t) (a : string)
    (r : WeatherSystem.draw)
    (Hfresh : Drone.is_payload_spoiled
                (Drone.update_payload_condition (drone e) 1) = false)
    (Hwind : EXTREME_WIND_SPEED
             <= WeatherSystem.wind_speed
                  (WeatherSystem.update (weather e) r)) :
  done_of (step e a r) = true
  /\ reward_of (step e a r) = REWARD_STORM_CRASH
  /\ info_of (step e a r) = InfoEarly FAILED_STORM "extreme_weather"
  /\ mission_status (env_of (step e a r)) = FAILED_STORM
  /\ Drone.is_crashed (drone (env_of (step e a r))) = true
  /\ Drone.crash_reason (drone (env_of (step e a r)))
     = Some "storm_damage"%string
  /\ Drone.position (drone (env_of (step e a r))) = Drone.position (drone e)
  /\ Drone.battery (drone (env_of (step e a r))) = Drone.battery (drone e)
  /\ storm_crashes (env_of (step e a r)) = (storm_crashes e + 1)%Z.
Proof.
  apply Qle_bool_iff in Hwind.
  rewrite (step_extreme e a r Hfresh Hwind).
  cbn zeta. unfold done_of, reward_of, info_of, env_of. cbn [fst snd].
  unfold pre_flight. cbn.
  rewrite update_payload_position.
  destruct (update_payload_steps (drone e) 1) as [_ Hb]. rewrite Hb.
  repeat apply conj; reflexivity.
Qed.

Lemma extreme_wind_downs_vehicle_witness :
  mission_status (env_of (step guarded_start "MOVE_UP" squall)) = FAILED_STORM
  /\ Drone.position (drone (env_of (step guarded_start "MOVE_UP" squall)))
     = Drone.position (drone guarded_start).
Proof.
  pose proof (extreme_wind_downs_vehicle guarded_start "MOVE_UP" squall) as H.
  assert (H1 : Drone.is_payload_spoiled
                 (Drone.update_payload_condition (drone guarded_start) 1)
               = false) by (vm_compute; reflexivity).
  assert (H2 : EXTREME_WIND_SPEED
               <= WeatherSystem.wind_speed
                    (WeatherSystem.update (weather guarded_start) squall))
    by (apply Qle_bool_iff; vm_compute; reflexivity).
  destruct (H H1 H2) as (_ & _ & _ & Hs & _ & _ & Hp & _).
  split; [exact Hs|exact Hp].
Defined.

Lemma stormy_not_safe w :
  is_stormy w = true -> WeatherSystem.is_safe_to_fly w = false.
Proof.
  unfold is_stormy, WeatherSystem.is_safe_to_fly.
  destruct (WeatherSystem.condition w); cbn; congruence.
Qed.

Lemma extreme_not_safe w :
  EXTREME_WIND_SPEED <= WeatherSystem.wind_speed w ->
  WeatherSystem.is_safe_to_fly w = false.
Proof.
  intros Hw. unfold WeatherSystem.is_safe_to_fly.
  destruct (existsb _ _); [reflexivity|].
  destruct (Qlt_bool MAX_WIND_SPEED (WeatherSystem.wind_speed w)) eqn:E;
    [reflexivity|].
  apply Qlt_bool_false in E. unfold EXTREME_WIND_SPEED, MAX_WIND_SPEED in *.
  lra.
Qed.

Lemma step_safe_to_fly e a r :
  StateDict.safe_to_fly (state_of (step e a r))
  = Some (WeatherSystem.is_safe_to_fly (weather (env_of (step e a r)))).
Proof.
  rewrite step_returns_state. unfold _get_state.
  destruct (Drone.position _) as [[x y] z].
  destruct (target_position _) as [[tx ty] tz]. reflexivity.
Qed.

(** X17: a tick turns the mission status into [FAILED_STORM] only when
    the updated wind has reached the extreme speed, or the updated
    weather is a storm or thunderstorm and the vehicle's count of
    consecutive storm ticks reaches the damage threshold; the tick then
    reports [done] and the returned observation says it is not safe to
    fly. *)
Theorem storm_failure_only_in_storm (e : CityEnvironment.t) (a : string)
    (r : WeatherSystem.draw)
    (Hbefore : mission_status e <> FAILED_STORM)
    (Hfail : mission_status (env_of (step e a r)) = FAILED_STORM) :
  done_of (step e a r) = true
  /\ StateDict.safe_to_fly (state_of (step e a r)) = Some false
  /\ (EXTREME_WIND_SPEED
      <= WeatherSystem.wind_speed (weather (env_of (step e a r)))
      \/ (is_stormy (weather (env_of (step e a r))) = true
          /\ (STORM_DAMAGE_THRESHOLD
              <= Drone.steps_in_storm (drone e) + 1)%Z)).
Proof.
  rewrite step_safe_to_fly.
  destruct (Drone.is_payload_spoiled (drone (pre_flight e r))) eqn:Hs.
  { rewrite (step_spoiled e a r Hs) in Hfail. discriminate. }
  destruct (Qle_bool EXTREME_WIND_SPEED
              (WeatherSystem.wind_speed (weather (pre_flight e r)))) eqn:Hw.
  { rewrite (step_extreme e a r Hs Hw).
    cbn zeta. unfold done_of, env_of. cbn [fst snd].
    apply Qle_bool_iff in Hw.
    cbn [weather set_storm_crashes set_mission_status set_drone].
    split; [reflexivity|].
    split; [now rewrite extreme_not_safe|]. now left. }
  destruct (step_main_fields e a r Hs Hw) as (Hd & _ & Hst & _).
  rewrite Hd. rewrite Hst in Hfail.
  assert (Hwe : weather (env_of (step e a r)) = weather (pre_flight e r)).
  { rewrite (step_main e a r Hs Hw). fold (last_block e a r).
    cbn zeta. unfold env_of. cbn [fst weather set_total_reward].
    apply (last_block_mission e a r). }
  rewrite Hwe.
  destruct (is_stormy (weather (pre_flight e r))) eqn:Hstormy.
  - destruct (Z.le_gt_cases STORM_DAMAGE_THRESHOLD
                (Drone.steps_in_storm (drone e) + 1)) as [Hn|Hn].
    + rewrite (stormy_not_safe _ Hstormy).
      destruct (last_block_outcome_all e a r) as [(_ & Hs8 & _)|(Hd8 & _)];
        [congruence|auto].
    + exfalso.
      destruct (last_block_outcome e a r
                  [FAILED_BATTERY; FAILED_COLLISION; FAILED_INTERCEPTION])
        as [(_ & Hs8 & _)|(_ & Hin)];
        [cbn; auto|cbn; auto|cbn; auto|intros _ Hge; lia|congruence|].
      rewrite Hfail in Hin. cbn in Hin. intuition discriminate.
  - exfalso.
    destruct (last_block_outcome e a r
                [FAILED_BATTERY; FAILED_COLLISION; FAILED_INTERCEPTION])
      as [(_ & Hs8 & _)|(_ & Hin)];
      [cbn; auto|cbn; auto|cbn; auto|intros Ht; congruence|congruence|].
    rewrite Hfail in Hin. cbn in Hin. intuition discriminate.
Qed.

Lemma storm_failure_only_in_storm_witness :
  mission_status storm_run <> FAILED_STORM
  /\ done_of (step storm_run "HOVER" gale) = true.
Proof.
  split; [vm_compute; discriminate|].
  apply (storm_failure_only_in_storm storm_run "HOVER" gale).
  - vm_compute. discriminate.
  - vm_compute. reflexivity.
Defined.

Lemma check_target_vehicle k :
  drone (env (check_target k)) = drone (env k)
  \/ drone (env (check_target k))
     = Drone.set_cargo None false false (drone (env k)).
Proof.
  unfold check_target.
  destruct (_is_at_target (env k)); [|now left].
  destruct (target_position (env k)) as [[tx ty] tz].
  unfold Drone.deliver_cargo.
  destruct (negb (Drone.has_package (drone (env k)))); cbn.
  - now left.
  - destruct (truthy _); now right.
Qed.

Lemma tail_vehicle a k :
  drone (env (check_timeout (charging_penalty a (time_penalty k))))
  = drone (env k).
Proof.
  unfold check_timeout, charging_penalty, time_penalty.
  destruct (negb (done k)); destruct (String.eqb a "CHARGE");
    cbn [env reward done]; destruct (_ <=? _)%Z; reflexivity.
Qed.

Lemma check_target_steps k :
  Drone.steps_in_storm (drone (env (check_target k)))
  = Drone.steps_in_storm (drone (env k)).
Proof. destruct (check_target_vehicle k) as [-> | ->]; reflexivity. Qed.

Lemma last_block_steps e a r :
  Drone.steps_in_storm (drone (env (last_block e a r)))
  = Drone.steps_in_storm (drone (env (after_storm_block e a r))).
Proof.
  unfold last_block. now rewrite tail_vehicle, check_target_steps.
Qed.

(** X18: on a tick that passes the two pre-flight checks, the vehicle's
    storm counter counts consecutive storm ticks: it grows by one when
    the updated weather is a storm or thunderstorm, and is reset to zero
    in any other weather, heavy rain included. *)
Theorem storm_counter_counts_consecutive_ticks (e : CityEnvironment.t)
    (a : string) (r : WeatherSystem.draw)
    (Hfresh : Drone.is_payload_spoiled
                (Drone.update_payload_condition (drone e) 1) = false)
    (Hwind : WeatherSystem.wind_speed (WeatherSystem.update (weather e) r)
             < EXTREME_WIND_SPEED) :
  Drone.steps_in_storm (drone (env_of (step e a r)))
  = (if is_stormy (WeatherSystem.update (weather e) r)
     then Drone.steps_in_storm (drone e) + 1 else 0)%Z.
Proof.
  apply Qle_bool_false in Hwind.
  destruct (step_main_fields e a r Hfresh Hwind) as (_ & _ & _ & Hdr & _).
  rewrite Hdr, last_block_steps. unfold after_storm_block.
  set (k0 := mk_tick (pre_flight e r) 0 false).
  set (k1 := execute_action a _ k0).
  set (pos := Drone.position (drone (env k1))).
  set (k3 := check_no_fly pos (check_collision pos k1)).
  assert (Hw : weather (env k3) = WeatherSystem.update (weather e) r).
  { pose proof (execute_action_mission a
      (WeatherSystem.get_wind_effect (weather (pre_flight e r))) k0) as H1.
    pose proof (check_collision_mission pos k1) as H2.
    pose proof (check_no_fly_mission pos (check_collision pos k1)) as H3.
    pose proof (same_mission_trans _ _ _ H1
                  (same_mission_trans _ _ _ H2 H3)) as H.
    destruct H as (_ & _ & _ & H & _). exact H. }
  assert (Hn : Drone.steps_in_storm (drone (env k3))
               = Drone.steps_in_storm (drone e)).
  { unfold k3. rewrite before_storm_steps. unfold k1.
    rewrite execute_action_steps. unfold k0, pre_flight. cbn.
    apply update_payload_steps. }
  clearbody k3. clear k0 k1 pos.
  unfold check_storm. fold (is_stormy (weather (env k3))). rewrite Hw.
  destruct (is_stormy _).
  - cbn [Drone.steps_in_storm Drone.set_steps_in_storm].
    destruct (_ <=? _)%Z; cbn; now rewrite Hn.
  - reflexivity.
Qed.

Lemma storm_counter_counts_consecutive_ticks_witness :
  Drone.steps_in_storm (drone (env_of (step guarded_start "MOVE_UP" gale)))
  = (if is_stormy (WeatherSystem.update (weather guarded_start) gale)
     then Drone.steps_in_storm (drone guarded_start) + 1 else 0)%Z.
Proof.
  apply (storm_counter_counts_consecutive_ticks guarded_start "MOVE_UP" gale).
  - vm_compute. reflexivity.
  - vm_compute. reflexivity.
Defined.
End StepFacts.

(** ** The environment's own action filter and [reset] *)
Section ActionFilterFacts.
Import Config CityEnvironment.
Local Open Scope Q_scope.

Ltac allowed Hpos :=
  unfold action_allowed; rewrite Hpos;
  cbn -[Qlt_bool Z.ltb CityObstacles.get_zone_type inject_Z Z.sub].

Ltac q_case :=
  let E := fresh "E" in
  let H0 := fresh "H" in
  destruct (Qlt_bool _ _) eqn:E;
  [apply Qlt_bool_true in E | apply Qlt_bool_false in E];
  (split; intros H0; first [assumption | reflexivity | discriminate H0 | lra]).

Lemma hover_allowed e zone_map :
  action_allowed e zone_map "HOVER" = true.
Proof.
  destruct (Drone.position (drone e)) as [[x y] z] eqn:Hpos.
  allowed Hpos. reflexivity.
Qed.

Lemma get_valid_actions_filter e zone_map :
  get_valid_actions e zone_map
  = List.filter (action_allowed e zone_map) actions.
Proof.
  unfold get_valid_actions.
  destruct (List.filter (action_allowed e zone_map) actions) eqn:E;
    [|reflexivity].
  assert (H : In "HOVER"%string
                (List.filter (action_allowed e zone_map) actions)).
  { apply filter_In. split; [cbn; tauto|apply hover_allowed]. }
  rewrite E in H. destruct H.
Qed.

Lemma offered_iff e zone_map a :
  In a actions ->
  (In a (get_valid_actions e zone_map) <-> action_allowed e zone_map a = true).
Proof.
  intros Ha. rewrite get_valid_actions_filter, filter_In. tauto.
Qed.

(** X19: the environment's action filter never uses its fallback: HOVER
    is always offered, every offered action is one of the eight tokens,
    and each of the others is offered exactly under its own bound on the
    vehicle position, CHARGE exactly over a charging-station cell. *)
Theorem offered_actions_spec (e : CityEnvironment.t)
    (zone_map : Z -> Z -> CityObstacles.ZoneType) (x y : Q) (z : Z)
    (Hpos : Drone.position (drone e) = (x, y, z)) :
  In "HOVER"%string (get_valid_actions e zone_map)
  /\ incl (get_valid_actions e zone_map) actions
  /\ (In "MOVE_NORTH"%string (get_valid_actions e zone_map) <-> 0 < y)
  /\ (In "MOVE_SOUTH"%string (get_valid_actions e zone_map)
      <-> y < inject_Z (grid_size e - 1))
  /\ (In "MOVE_EAST"%string (get_valid_actions e zone_map)
      <-> x < inject_Z (grid_size e - 1))
  /\ (In "MOVE_WEST"%string (get_valid_actions e zone_map) <-> 0 < x)
  /\ (In "MOVE_UP"%string (get_valid_actions e zone_map)
      <-> (z < MAX_ALTITUDE - 1)%Z)
  /\ (In "MOVE_DOWN"%string (get_valid_actions e zone_map) <-> (0 < z)%Z)
  /\ (In "CHARGE"%string (get_valid_actions e zone_map)
      <-> CityObstacles.get_zone_type (obstacles e) zone_map x y
          = CityObstacles.CHARGING_STATION).
Proof.
  assert (Hiff : forall a c, In a actions ->
            (action_allowed e zone_map a = true <-> c) ->
            (In a (get_valid_actions e zone_map) <-> c)).
  { intros a c Ha Hc. now rewrite offered_iff. }
  split; [apply offered_iff; [cbn; tauto|apply hover_allowed]|].
  split.
  { rewrite get_valid_actions_filter. intros a Ha.
    now apply filter_In in Ha. }
  split; [apply Hiff; [cbn; tauto|]; allowed Hpos; q_case|].
  split; [apply Hiff; [cbn; tauto|]; allowed Hpos; q_case|].
  split; [apply Hiff; [cbn; tauto|]; allowed Hpos; q_case|].
  split; [apply Hiff; [cbn; tauto|]; allowed Hpos; q_case|].
  split; [apply Hiff; [cbn; tauto|]; allowed Hpos|].
  { destruct (Z.ltb_spec z (MAX_ALTITUDE - 1)); split; intros H0;
      first [assumption | reflexivity | discriminate H0 | lia]. }
  split; apply Hiff; try (cbn; tauto); allowed Hpos.
  - destruct (Z.ltb_spec 0 z); split; intros H0;
      first [assumption | reflexivity | discriminate H0 | lia].
  - destruct (CityObstacles.get_zone_type _ _ _ _); split; intros H0;
      first [reflexivity | discriminate H0].
Qed.

Lemma offered_actions_spec_witness :
  In "HOVER"%string
     (get_valid_actions guarded_start (fun _ _ => CityObstacles.EMPTY))
  /\ ~ In "CHARGE"%string
       (get_valid_actions guarded_start (fun _ _ => CityObstacles.EMPTY)).
Proof.
  pose proof (offered_actions_spec guarded_start
                (fun _ _ => CityObstacles.EMPTY) 5 5 3%Z) as H.
  assert (Hpos : Drone.position (drone guarded_start) = (5, 5, 3%Z))
    by (vm_compute; reflexivity).
  destruct (H Hpos) as (Hh & _ & _ & _ & _ & _ & _ & _ & Hc).
  split; [exact Hh|]. intros Hin. apply Hc in Hin.
  vm_compute in Hin. discriminate Hin.
Defined.

Lemma random_site_listed (l : list (Z * Z)) (h : Z * Z) (i : nat) :
  l <> [] -> In (nth (i mod length l) l h) l.
Proof.
  intros Hl. apply nth_In. apply Nat.mod_upper_bound.
  destruct l; [congruence|discriminate].
Qed.

(** X20: [reset] starts a clean mission whatever state the previous one
    ended in: the mission number grows by one, the step counter, the
    reward total and all failure counters are zero, the status is
    [IN_PROGRESS]; the vehicle is new (full battery, not crashed, not
    charging) and already carries the locked, fresh blood sample; it
    stands over a listed hospital, one level above the building there,
    so it does not collide; the city and the weather are kept. *)
Theorem reset_starts_clean_mission (e : CityEnvironment.t) (i j : nat) :
  mission_id (fst (reset e i j)) = (mission_id e + 1)%Z
  /\ current_step (fst (reset e i j)) = 0%Z
  /\ mission_status (fst (reset e i j)) = IN_PROGRESS
  /\ total_reward (fst (reset e i j)) = 0
  /\ (violations (fst (reset e i j)), collisions (fst (reset e i j)),
      interceptions (fst (reset e i j)), storm_crashes (fst (reset e i j)),
      payload_spoilages (fst (reset e i j))) = (0, 0, 0, 0, 0)%Z
  /\ obstacles (fst (reset e i j)) = obstacles e
  /\ weather (fst (reset e i j)) = weather e
  /\ Drone.position (drone (fst (reset e i j)))
     = Drone.inject_position (start_position (fst (reset e i j)))
  /\ Drone.battery (drone (fst (reset e i j))) = 100
  /\ Drone.is_crashed (drone (fst (reset e i j))) = false
  /\ Drone.is_charging (drone (fst (reset e i j))) = false
  /\ Drone.cargo (drone (fst (reset e i j))) = Some "blood_sample"%string
  /\ Drone.payload_locked (drone (fst (reset e i j))) = true
  /\ Drone.payload_condition (drone (fst (reset e i j))) = Drone.Fresh
  /\ (let '(x, y, z) := Drone.position (drone (fst (reset e i j))) in
      CityObstacles.is_collision (obstacles e) x y z = false
      /\ z = CityObstacles.get_min_safe_altitude (obstacles e) x y
      /\ (CityObstacles.hospitals (obstacles e) <> [] ->
          exists h, In h (CityObstacles.hospitals (obstacles e))
                    /\ x = inject_Z (fst h) /\ y = inject_Z (snd h)))
  /\ snd (reset e i j) = _get_state (fst (reset e i j)).
Proof.
  unfold reset.
  pose proof (random_site_listed (CityObstacles.hospitals (obstacles e))) as Hh.
  unfold CityObstacles.get_random_hospital.
  destruct (CityObstacles.hospitals (obstacles e)) as [|h0 hs] eqn:Ehs.
  - destruct (CityObstacles.get_random_lab (obstacles e) j) as [tx ty].
    cbn -[CityObstacles.is_collision CityObstacles.get_min_safe_altitude
          _get_state inject_Z].
    repeat apply conj; try reflexivity; [|congruence].
    unfold CityObstacles.is_collision, CityObstacles.get_min_safe_altitude.
    apply Z.leb_gt. lia.
  - specialize (Hh h0 i ltac:(discriminate)).
    destruct (nth (i mod length (h0 :: hs)) (h0 :: hs) h0) as [sx sy].
    destruct (CityObstacles.get_random_lab (obstacles e) j) as [tx ty].
    cbn -[CityObstacles.is_collision CityObstacles.get_min_safe_altitude
          _get_state inject_Z].
    repeat apply conj; try reflexivity.
    + unfold CityObstacles.is_collision, CityObstacles.get_min_safe_altitude.
      apply Z.leb_gt. lia.
    + intros _. exists (sx, sy). auto.
Qed.
End ActionFilterFacts.

(** ** The rule engine: ordering, verdicts and the safe list *)
Section LogicMoreFacts.
Import Config LogicEngine.
Local Open Scope string_scope.

Lemma insert_by_priority_perm r l :
  Permutation (r :: l) (insert_by_priority r l).
Proof.
  induction l as [|x l IH]; cbn; [reflexivity|].
  destruct (_ <=? _)%Z; [reflexivity|].
  etransitivity; [apply perm_swap|]. now apply perm_skip.
Qed.

Lemma sort_by_priority_perm l : Permutation l (sort_by_priority l).
Proof.
  induction l as [|x l IH]; cbn; [constructor|].
  etransitivity; [apply perm_skip, IH | apply insert_by_priority_perm].
Qed.

Lemma insert_by_priority_sorted r l :
  StronglySorted higher_first l ->
  StronglySorted higher_first (insert_by_priority r l).
Proof.
  induction l as [|x l IH]; intros Hs; cbn.
  - repeat constructor.
  - apply StronglySorted_inv in Hs as [Hs Hx].
    destruct (Z.leb_spec (priority x) (priority r)) as [Hle|Hgt].
    + constructor; [now constructor|].
      constructor; [exact Hle|].
      eapply Forall_impl; [exact Hx|]. unfold higher_first. intros y Hy. lia.
    + constructor; [now apply IH|].
      rewrite <- insert_by_priority_perm.
      constructor; [unfold higher_first; lia | exact Hx].
Qed.

Lemma sort_by_priority_sorted l :
  StronglySorted higher_first (sort_by_priority l).
Proof.
  induction l as [|x l IH]; cbn; [constructor|].
  now apply insert_by_priority_sorted.
Qed.

Lemma triggered_head_top rs state top rest :
  StronglySorted higher_first rs ->
  get_triggered_rules rs state = top :: rest ->
  forall r, r ∈ rs -> condition r state = Some true ->
            (priority r <= priority top)%Z.
Proof.
  induction rs as [|x rs IH]; intros Hs Ht r Hr Hc;
    [now apply elem_of_nil in Hr|].
  apply StronglySorted_inv in Hs as [Hs Hx].
  rewrite get_triggered_rules_cons in Ht.
  destruct (condition x state) as [[|]|] eqn:E;
    cbn [default from_option id] in Ht.
  - injection Ht as -> _.
    apply elem_of_cons in Hr as [->|Hr]; [lia|].
    rewrite Forall_forall in Hx. now apply Hx.
  - apply elem_of_cons in Hr as [->|Hr]; [congruence|]. now apply IH.
  - apply elem_of_cons in Hr as [->|Hr]; [congruence|]. now apply IH.
Qed.

Lemma triggered_complete rs state r :
  r ∈ rs -> condition r state = Some true ->
  r ∈ get_triggered_rules rs state.
Proof.
  induction rs as [|x rs IH]; intros Hr Hc; [now apply elem_of_nil in Hr|].
  rewrite get_triggered_rules_cons.
  apply elem_of_cons in Hr as [->|Hr].
  - rewrite Hc. cbn. left.
  - destruct (default false (condition x state)); [right|]; now apply IH.
Qed.

(** X21: after [add_rule], whatever the order of the list before, the
    recommended action is the action of a triggered rule whose priority
    no other triggered rule of the list exceeds; the answer is
    "continue" with no rule exactly when no rule of the list is
    triggered (a rule whose predicate raises counts as not
    triggered). *)
Theorem recommended_action_has_top_priority (rules : list Rule)
    (rule : Rule) (state : StateDict.t) :
  match get_recommended_action (add_rule rules rule) state with
  | (act, Some top) =>
    act = action top
    /\ top ∈ (rules ++ [rule])%list
    /\ condition top state = Some true
    /\ forall r, r ∈ (rules ++ [rule])%list ->
                 condition r state = Some true ->
                 (priority r <= priority top)%Z
  | (act, None) =>
    act = "continue"
    /\ forall r, r ∈ (rules ++ [rule])%list ->
                 condition r state <> Some true
  end.
Proof.
  unfold get_recommended_action, add_rule.
  pose proof (sort_by_priority_perm (rules ++ [rule])%list) as Hp.
  pose proof (sort_by_priority_sorted (rules ++ [rule])%list) as Hs.
  destruct (get_triggered_rules _ state) as [|top rest] eqn:Et.
  - split; [reflexivity|]. intros r Hr Hc.
    assert (Hin : r ∈ get_triggered_rules
                        (sort_by_priority (rules ++ [rule])%list) state)
      by (apply triggered_complete; [now rewrite <- Hp | exact Hc]).
    rewrite Et in Hin. now apply elem_of_nil in Hin.
  - assert (Hin : top ∈ get_triggered_rules
                          (sort_by_priority (rules ++ [rule])%list) state)
      by (rewrite Et; left).
    apply triggered_subset in Hin as [Hin Hc].
    split; [reflexivity|]. split; [now rewrite Hp|]. split; [exact Hc|].
    intros r Hr Hcr.
    apply (triggered_head_top _ state top rest Hs Et); [|exact Hcr].
    now rewrite <- Hp.
Qed.

(** X22: when [is_action_safe] returns, its verdict is [True] exactly
    when the returned list is empty, and the list holds exactly the
    SAFETY rules of the engine that are triggered and that the action
    violates; every SAFETY predicate has then returned without
    raising, and HOVER, CHARGE and "wait" are always accepted. *)
Theorem safety_verdict_lists_violations (rules : list Rule)
    (state : StateDict.t) (act : string) (safe : bool) (violated : list Rule)
    (Hcall : is_action_safe rules state act = Some (safe, violated)) :
  (safe = true <-> violated = [])
  /\ (forall r, r ∈ violated <->
        r ∈ rules /\ rule_type r = SAFETY
        /\ condition r state = Some true
        /\ _action_violates_rule act r state = true)
  /\ (forall r, r ∈ rules -> rule_type r = SAFETY ->
                is_Some (condition r state))
  /\ (is_exempt act = true -> safe = true).
Proof.
  pose proof Hcall as Hcall'. unfold is_action_safe in Hcall.
  destruct (violated_rules _ state act) as [l|] eqn:El;
    [cbn in Hcall|discriminate].
  injection Hcall as <- <-.
  assert (Hfilter : forall r,
            r ∈ filter (fun r => RuleType_eqb (rule_type r) SAFETY = true) rules
            <-> r ∈ rules /\ rule_type r = SAFETY).
  { intros r. rewrite list_elem_of_filter.
    destruct (rule_type r); cbn; intuition congruence. }
  split; [destruct l; split; congruence|].
  split.
  { intros r. rewrite (violated_rules_elem _ _ _ _ r El), Hfilter. tauto. }
  split.
  { intros r Hr Ht.
    destruct (condition r state) eqn:Ec; [eauto|].
    exfalso.
    assert (Hin : r ∈ filter
                      (fun r => RuleType_eqb (rule_type r) SAFETY = true)
                      rules) by (apply Hfilter; auto).
    pose proof (violated_rules_raises _ state act r Hin Ec) as Hraise.
    congruence. }
  intros He.
  now pose proof (is_action_safe_exempt _ _ _ _ He Hcall') as [= -> _].
Qed.

Lemma safety_verdict_lists_violations_witness :
  is_action_safe init critical_state "MOVE_UP"
  = Some (false, [critical_battery])
  /\ (false = true <-> [critical_battery] = []).
Proof.
  assert (H : is_action_safe init critical_state "MOVE_UP"
              = Some (false, [critical_battery]))
    by (vm_compute; reflexivity).
  split; [exact H|].
  apply (safety_verdict_lists_violations init critical_state "MOVE_UP"
           false [critical_battery] H).
Defined.

Lemma safe_subset_filter rules state all l :
  safe_subset rules state all = Some l ->
  l = List.filter (passes rules state) all.
Proof.
  revert l. induction all as [|x all IH]; intros l; cbn.
  - now intros [= <-].
  - unfold passes at 1.
    destruct (is_action_safe rules state x) as [[is_safe v]|];
      [cbn|discriminate].
    destruct (safe_subset rules state all) as [later|]; [cbn|discriminate].
    intros [= <-]. rewrite (IH later eq_refl).
    now destruct is_safe.
Qed.

Lemma get_valid_actions_passes rules state all_actions valid :
  get_valid_actions rules state all_actions = Some valid ->
  valid = List.filter (passes rules state) all_actions.
Proof.
  intros Hcall. unfold get_valid_actions in Hcall.
  destruct (safe_subset rules state all_actions) as [l|] eqn:Es;
    [cbn in Hcall|discriminate].
  rewrite <- (safe_subset_filter _ _ _ _ Es).
  destruct l as [|a l']; [|congruence].
  destruct (mem "wait" all_actions) eqn:Ew; [|congruence].
  exfalso. unfold mem in Ew. apply existsb_exists in Ew as [x [Hx Heq]].
  apply String.eqb_eq in Heq. subst x.
  assert (Hl : "wait" ∈ ([] : list string)).
  { apply (safe_subset_elem _ _ _ _ "wait" Es).
    split; [now apply list_elem_of_In|].
    destruct (safe_subset_defined _ _ _ _ "wait" Es) as [v Hv];
      [now apply list_elem_of_In|].
    rewrite Hv, (is_action_safe_exempt rules state "wait" v eq_refl Hv).
    eauto. }
  now apply elem_of_nil in Hl.
Qed.

Lemma violated_rules_any_action rs state act act' :
  is_Some (violated_rules rs state act) ->
  is_Some (violated_rules rs state act').
Proof.
  induction rs as [|r rs IH]; cbn; [eauto|].
  destruct (condition r state) as [tr|]; cbn; [|intros [x Hx]; discriminate].
  destruct (violated_rules rs state act) as [l|]; cbn;
    [|intros [x Hx]; discriminate].
  intros _. destruct IH as [l' ->]; [eauto|]. cbn. eauto.
Qed.

Lemma wait_is_safe rules state act :
  is_Some (is_action_safe rules state act) ->
  is_action_safe rules state "wait" = Some (true, []).
Proof.
  intros Hs.
  assert (Hw : is_Some (is_action_safe rules state "wait")).
  { unfold is_action_safe in *.
    destruct (violated_rules _ state act) as [l|] eqn:El;
      [|destruct Hs as [x Hx]; discriminate].
    destruct (violated_rules_any_action
                (filter (fun r => RuleType_eqb (rule_type r) SAFETY = true)
                        rules) state act "wait") as [l' Hl'];
      [rewrite El; eauto|].
    rewrite Hl'. cbn. eauto. }
  destruct Hw as [v Hv].
  now rewrite Hv, (is_action_safe_exempt rules state "wait" v eq_refl Hv).
Qed.

(** X23: when [get_valid_actions] returns, the result is exactly the
    actions of [all_actions] that [is_action_safe] accepts, in their
    original order and multiplicity; the "wait" fallback never changes
    it, because "wait" itself is always accepted when listed. *)
Theorem valid_actions_are_the_safe_ones (rules : list Rule)
    (state : StateDict.t) (all_actions valid : list string)
    (Hcall : get_valid_actions rules state all_actions = Some valid) :
  valid = List.filter (passes rules state) all_actions
  /\ forall act, act ∈ all_actions ->
                 is_Some (is_action_safe rules state act).
Proof.
  split; [now apply get_valid_actions_passes|].
  unfold get_valid_actions in Hcall.
  destruct (safe_subset rules state all_actions) as [l|] eqn:Es;
    [|discriminate].
  intros act Hact. now apply (safe_subset_defined _ _ _ _ _ Es).
Qed.

Lemma valid_actions_are_the_safe_ones_witness :
  ["MOVE_DOWN"; "HOVER"; "CHARGE"]
  = List.filter (passes init critical_state) ACTIONS.
Proof.
  assert (H : get_valid_actions init critical_state ACTIONS
              = Some ["MOVE_DOWN"; "HOVER"; "CHARGE"])
    by (vm_compute; reflexivity).
  exact (proj1 (valid_actions_are_the_safe_ones init critical_state ACTIONS
                  _ H)).
Defined.

Lemma passes_init s act :
  StateDict.well_formed s = true ->
  (passes init s act = true <->
   forall r,
     r ∈ [critical_battery; bad_weather; return_to_base; avoid_obstacles;
          no_fly_zone; safe_altitude] ->
     condition r s = Some true -> _action_violates_rule act r s = false).
Proof.
  intros Hwf. destruct (is_action_safe_total s act Hwf) as [[safe v] Hv].
  unfold passes. rewrite Hv.
  unfold is_action_safe in Hv. rewrite init_safety_rules in Hv.
  destruct (violated_rules _ s act) as [l|] eqn:El; [cbn in Hv|discriminate].
  injection Hv as <- <-.
  split.
  - intros Hsafe r Hr Hc. destruct l; [|discriminate].
    destruct (_action_violates_rule act r s) eqn:Ev; [|reflexivity].
    assert (Hin : r ∈ ([] : list Rule))
      by (apply (violated_rules_elem _ _ _ _ r El); auto).
    now apply elem_of_nil in Hin.
  - intros H. destruct l as [|r0 l']; [reflexivity|].
    assert (Hin : r0 ∈ r0 :: l') by left.
    apply (violated_rules_elem _ _ _ _ r0 El) in Hin as (Hr & Hc & Hviol).
    rewrite (H r0 Hr Hc) in Hviol. discriminate.
Qed.

Lemma violates_lateral s act :
  act ∈ StateDict.LATERAL ->
  _action_violates_rule act critical_battery s = true
  /\ _action_violates_rule act bad_weather s = true
  /\ _action_violates_rule act return_to_base s = false
  /\ _action_violates_rule act safe_altitude s = false
  /\ _action_violates_rule act no_fly_zone s
     = default false (default ∅ (StateDict.neighbor_no_fly s) !! act)
  /\ _action_violates_rule act avoid_obstacles s
     = (snd (default (0%Q, 0%Q, 0%Z) (StateDict.position s))
        <=? default 0%Z
              (default ∅ (StateDict.neighbor_buildings s) !! act))%Z.
Proof.
  intros Hact. unfold StateDict.LATERAL in Hact.
  repeat (apply elem_of_cons in Hact as [->|Hact]);
    [..|now apply elem_of_nil in Hact];
    (repeat apply conj; try reflexivity;
     unfold _action_violates_rule; cbn;
     first [ now destruct (default false _)
           | now destruct (_ <=? _)%Z ]).
Qed.

(** X24: with the built-in rules and a well-formed observation, a
    lateral move is accepted by [is_action_safe] exactly when the
    battery is above the emergency level, the weather is safe to fly,
    the cell ahead is not flagged no-fly while the vehicle is itself
    inside a no-fly zone, and, when an obstacle is near, the building
    ahead is lower than the vehicle's altitude.  Outside a no-fly zone
    the no-fly flag of the cell ahead is not consulted. *)
Theorem lateral_move_verdict (s : StateDict.t) (act : string)
    (p : Q * Q * Z) (b : Q) (f nf : bool) (n : Z)
    (Hwf : StateDict.well_formed s = true)
    (Hact : act ∈ StateDict.LATERAL)
    (Hp : StateDict.position s = Some p)
    (Hb : StateDict.battery s = Some b)
    (Hf : StateDict.safe_to_fly s = Some f)
    (Hnf : StateDict.in_no_fly_zone s = Some nf)
    (Hn : StateDict.nearby_obstacles s = Some n) :
  passes init s act = true <->
  (MIN_BATTERY_EMERGENCY < b)%Q
  /\ f = true
  /\ (nf = true ->
      default false (default ∅ (StateDict.neighbor_no_fly s) !! act) = false)
  /\ ((0 <? n)%Z || default false (StateDict.obstacle_nearby s) = true ->
      (default 0%Z (default ∅ (StateDict.neighbor_buildings s) !! act)
       < snd p)%Z).
Proof.
  destruct (violates_lateral s act Hact)
    as (Vcb & Vbw & Vrb & Vsa & Vnf & Vao).
  rewrite Hp in Vao. cbn [default from_option id] in Vao.
  assert (Ccb : condition critical_battery s
                = Some (Qle_bool b MIN_BATTERY_EMERGENCY))
    by (cbn; now rewrite Hb).
  assert (Cbw : condition bad_weather s = Some (negb f))
    by (cbn; now rewrite Hf).
  assert (Cnf : condition no_fly_zone s = Some nf) by exact Hnf.
  assert (Cao : condition avoid_obstacles s
                = Some ((0 <? n)%Z
                        || default false (StateDict.obstacle_nearby s)))
    by (cbn; now rewrite Hn).
  rewrite (passes_init s act Hwf). split.
  - intros H. repeat apply conj.
    + destruct (Qle_bool b MIN_BATTERY_EMERGENCY) eqn:E.
      * specialize (H critical_battery ltac:(in_list) Ccb). congruence.
      * now apply Qle_bool_false in E.
    + destruct f; [reflexivity|].
      specialize (H bad_weather ltac:(in_list) Cbw). congruence.
    + intros ->. specialize (H no_fly_zone ltac:(in_list) Cnf). congruence.
    + intros Hnear. rewrite Hnear in Cao.
      specialize (H avoid_obstacles ltac:(in_list) Cao).
      rewrite Vao in H. now apply Z.leb_gt in H.
  - intros (Hbat & -> & Hzone & Hnear) r Hr Hc.
    repeat (apply elem_of_cons in Hr as [->|Hr]);
      [..|now apply elem_of_nil in Hr].
    + rewrite Ccb in Hc. injection Hc as Hc.
      apply Qle_bool_iff in Hc. lra.
    + rewrite Cbw in Hc. discriminate.
    + exact Vrb.
    + rewrite Cao in Hc. injection Hc as Hc.
      rewrite Vao. apply Z.leb_gt. now apply Hnear.
    + rewrite Cnf in Hc. injection Hc as ->. rewrite Vnf. now apply Hzone.
    + exact Vsa.
Qed.

Lemma lateral_move_verdict_witness :
  passes init critical_state "MOVE_EAST" = true <->
  (MIN_BATTERY_EMERGENCY < 3)%Q
  /\ true = true
  /\ (false = true ->
      default false
        (default ∅ (StateDict.neighbor_no_fly critical_state) !! "MOVE_EAST")
      = false)
  /\ ((0 <? 0)%Z || default false (StateDict.obstacle_nearby critical_state)
      = true ->
      (default 0%Z
         (default ∅ (StateDict.neighbor_buildings critical_state)
            !! "MOVE_EAST")
       < snd (5%Q, 5%Q, 3%Z))%Z).
Proof.
  apply (lateral_move_verdict critical_state "MOVE_EAST" (5%Q, 5%Q, 3%Z) 3
           true false 0%Z); try reflexivity.
  unfold StateDict.LATERAL. in_list.
Defined.
End LogicMoreFacts.

(** ** The learning agent: state keys, greedy choice and updates *)
Section AgentFacts.
Import Config QLearningAgent.
Local Open Scope Q_scope.

Lemma touch_value (tbl : gmap (Z * Z * Z * Z * Z * Z * Z) (gmap string Q))
    key action :
  fst (touch tbl key action) = value_of tbl key action
  /\ forall k a, value_of (snd (touch tbl key action)) k a = value_of tbl k a.
Proof.
  unfold touch, touch_row, value_of.
  destruct (tbl !! key) as [row|] eqn:Er.
  - destruct (row !! action) as [v|] eqn:Ev; cbn [fst snd].
    + split; [reflexivity|]. reflexivity.
    + split; [reflexivity|]. intros k a.
      destruct (decide (k = key)) as [->|Hk].
      * rewrite lookup_insert_eq, Er.
        destruct (decide (a = action)) as [->|Ha].
        -- now rewrite lookup_insert_eq, Ev.
        -- now rewrite lookup_insert_ne by congruence.
      * now rewrite lookup_insert_ne by congruence.
  - rewrite lookup_empty. cbn [fst snd]. split; [reflexivity|].
    intros k a. destruct (decide (k = key)) as [->|Hk].
    + rewrite lookup_insert_eq, Er.
      destruct (decide (a = action)) as [->|Ha].
      * now rewrite lookup_insert_eq.
      * rewrite lookup_insert_ne by congruence. now rewrite lookup_empty.
    + rewrite lookup_insert_ne by congruence.
      now rewrite lookup_insert_ne by congruence.
Qed.

Lemma q_values_of_spec
    (tbl : gmap (Z * Z * Z * Z * Z * Z * Z) (gmap string Q)) key acts :
  fst (q_values_of tbl key acts)
  = map (fun a => (a, value_of tbl key a)) acts
  /\ forall k a,
       value_of (snd (q_values_of tbl key acts)) k a = value_of tbl k a.
Proof.
  revert tbl. induction acts as [|x acts IH]; intros tbl; cbn.
  - auto.
  - destruct (touch_value tbl key x) as [Hv Hk].
    destruct (touch tbl key x) as [v tbl1]. cbn [fst snd] in Hv, Hk.
    destruct (IH tbl1) as [Hl Hk1].
    destruct (q_values_of tbl1 key acts) as [later tbl2].
    cbn [fst snd] in *. split.
    + rewrite Hv, Hl. f_equal. apply map_ext. intros a. now rewrite Hk.
    + intros k a. now rewrite Hk1, Hk.
Qed.

Lemma argmax_map (f : string -> Q) a0 l :
  In (argmax (a0, f a0) (map (fun a => (a, f a)) l)) (a0 :: l)
  /\ f a0 <= f (argmax (a0, f a0) (map (fun a => (a, f a)) l))
  /\ forall a, In a l ->
               f a <= f (argmax (a0, f a0) (map (fun a => (a, f a)) l)).
Proof.
  revert a0. induction l as [|x l IH]; intros a0; cbn [map argmax fst snd].
  - split; [now left|]. split; [lra|]. intros a [].
  - destruct (Qlt_bool (f a0) (f x)) eqn:E.
    + apply Qlt_bool_true in E.
      destruct (IH x) as (Hin & Hx & Hl).
      split; [now right|]. split; [lra|].
      intros a [<-|Ha]; [exact Hx | now apply Hl].
    + apply Qlt_bool_false in E.
      destruct (IH a0) as (Hin & H0 & Hl).
      split; [destruct Hin as [Hin|Hin]; [now left | now right; right]|].
      split; [exact H0|].
      intros a [<-|Ha]; [lra | now apply Hl].
Qed.

(** X25: the greedy choice returns one of the candidate actions, and no
    candidate has a larger table value for the state; the call changes
    no value of the table (it only stores the zero defaults it read)
    and no other attribute of the agent.  It raises exactly when there
    is no candidate. *)
Theorem best_action_is_argmax (a : QLearningAgent.t) (state : StateDict.t)
    (valid_actions : list string) (key : Z * Z * Z * Z * Z * Z * Z)
    (Hkey : get_state_key state = Some key) :
  match _get_best_action a state valid_actions with
  | None => valid_actions = []
  | Some (best, a') =>
    In best valid_actions
    /\ (forall act, In act valid_actions ->
          value_of (q_table a) key act <= value_of (q_table a) key best)
    /\ (forall k act,
          value_of (q_table a') k act = value_of (q_table a) k act)
    /\ (epsilon a', total_updates a', actions a')
       = (epsilon a, total_updates a, actions a)
  end.
Proof.
  unfold _get_best_action. rewrite Hkey. cbn.
  destruct (q_values_of_spec (q_table a) key valid_actions) as [Hl Hk].
  destruct (q_values_of (q_table a) key valid_actions) as [q_values tbl].
  cbn [fst snd] in Hl, Hk.
  destruct valid_actions as [|a0 rest]; cbn [map] in Hl; subst q_values.
  - reflexivity.
  - destruct (argmax_map (value_of (q_table a) key) a0 rest)
      as (Hin & H0 & Hrest).
    split; [exact Hin|].
    split; [intros act [<-|Hact]; [exact H0 | now apply Hrest]|].
    split; [exact Hk|reflexivity].
Qed.

Lemma best_action_is_argmax_witness :
  match _get_best_action (init ACTIONS) LogicEngine.test_state
          ["MOVE_UP"; "HOVER"]%string with
  | None => False
  | Some (best, _) => best = "MOVE_UP"%string
  end.
Proof.
  pose proof (best_action_is_argmax (init ACTIONS) LogicEngine.test_state
                ["MOVE_UP"; "HOVER"]%string (4, 1, 0, 1, 2, 0, 0)%Z
                eq_refl) as H.
  destruct (_get_best_action (init ACTIONS) LogicEngine.test_state
              ["MOVE_UP"; "HOVER"]%string) as [[best a']|] eqn:E.
  - vm_compute in E. now injection E as <- _.
  - discriminate H.
Defined.

Lemma Qfloor_bounds (q : Q) (lo hi : Z) :
  inject_Z lo <= q -> q <= inject_Z hi -> (lo <= Qfloor q <= hi)%Z.
Proof.
  intros Hlo Hhi. split.
  - rewrite <- (Qfloor_Z lo). now apply Qfloor_resp_le.
  - rewrite <- (Qfloor_Z hi). now apply Qfloor_resp_le.
Qed.

(** X26: every component of a state key is a small integer: the
    distance bin is within 0..10, the three flags are 0 or 1, the
    direction is one of 0, 2, 4, 6, the obstacle count is capped at 5
    (and non-negative when the observed count is), and the battery bin
    is within 0..10 when the observed battery is within 0..100. *)
Theorem state_key_bins_bounded (state : StateDict.t)
    (distance_bin battery_bin has_package weather_safe direction
       obstacles_nearby in_no_fly : Z)
    (Hkey : get_state_key state
            = Some (distance_bin, battery_bin, has_package, weather_safe,
                    direction, obstacles_nearby, in_no_fly)) :
  (0 <= distance_bin <= 10)%Z
  /\ In has_package [0; 1]%Z /\ In weather_safe [0; 1]%Z
  /\ In in_no_fly [0; 1]%Z
  /\ In direction [0; 2; 4; 6]%Z
  /\ (obstacles_nearby <= 5)%Z
  /\ (forall n, StateDict.nearby_obstacles state = Some n -> (0 <= n)%Z ->
                (0 <= obstacles_nearby)%Z)
  /\ (forall b, StateDict.battery state = Some b -> 0 <= b <= 100 ->
                (0 <= battery_bin <= 10)%Z).
Proof.
  unfold get_state_key in Hkey.
  destruct (StateDict.relative_target state) as [[[dx dy] dz]|];
    [cbn in Hkey|discriminate].
  destruct (StateDict.battery state) as [b|]; [cbn in Hkey|discriminate].
  destruct (StateDict.has_cargo state) as [c|]; [cbn in Hkey|discriminate].
  destruct (StateDict.safe_to_fly state) as [f|]; [cbn in Hkey|discriminate].
  destruct (StateDict.nearby_obstacles state) as [n|];
    [cbn in Hkey|discriminate].
  destruct (StateDict.in_no_fly_zone state) as [z|];
    [cbn in Hkey|discriminate].
  injection Hkey as <- <- <- <- <- <- <-.
  assert (Hd : (0 <= Qfloor (Qabs dx + Qabs dy))%Z).
  { apply (Qfloor_bounds _ 0 (Qceiling (Qabs dx + Qabs dy))).
    - pose proof (Qabs_nonneg dx). pose proof (Qabs_nonneg dy).
      change (inject_Z 0) with 0. lra.
    - apply Qle_ceiling. }
  repeat apply conj.
  - apply Z.min_glb; [now apply Z.div_pos|lia].
  - apply Z.le_min_r.
  - destruct c; cbn; auto.
  - destruct f; cbn; auto.
  - destruct z; cbn; auto.
  - destruct (Qlt_bool (Qabs dy) (Qabs dx)); destruct (Qlt_bool 0 _);
      cbn; auto.
  - apply Z.le_min_r.
  - intros n' [= <-] Hn. lia.
  - intros b' [= <-] [H0 H100].
    apply (Qfloor_bounds (b / 10) 0 10).
    + change (inject_Z 0) with 0. apply Qle_shift_div_l; lra.
    + change (inject_Z 10) with 10. apply Qle_shift_div_r; lra.
Qed.

Lemma state_key_bins_bounded_witness :
  get_state_key LogicEngine.test_state = Some (4, 1, 0, 1, 2, 0, 0)%Z
  /\ (0 <= 4 <= 10)%Z.
Proof.
  split; [reflexivity|].
  apply (state_key_bins_bounded LogicEngine.test_state 4 1 0 1 2 0 0).
  reflexivity.
Defined.

Lemma touch_row_spec
    (tbl : gmap (Z * Z * Z * Z * Z * Z * Z) (gmap string Q)) key :
  fst (touch_row tbl key) = default ∅ (tbl !! key)
  /\ snd (touch_row tbl key) !! key = Some (fst (touch_row tbl key))
  /\ forall k a, value_of (snd (touch_row tbl key)) k a = value_of tbl k a.
Proof.
  unfold touch_row, value_of.
  destruct (tbl !! key) as [row|] eqn:Er; cbn [fst snd default from_option id].
  - auto.
  - split; [reflexivity|]. split; [now rewrite lookup_insert_eq|].
    intros k a. destruct (decide (k = key)) as [->|Hk].
    + now rewrite lookup_insert_eq, Er, lookup_empty.
    + now rewrite lookup_insert_ne by congruence.
Qed.

Lemma touch_keeps_row
    (tbl : gmap (Z * Z * Z * Z * Z * Z * Z) (gmap string Q)) key action k :
  k <> key -> snd (touch tbl key action) !! k = tbl !! k.
Proof.
  intros Hk. unfold touch, touch_row.
  destruct (tbl !! key) as [row|].
  - destruct (row !! action); cbn [snd]; [reflexivity|].
    now rewrite lookup_insert_ne by congruence.
  - rewrite lookup_empty. cbn [snd].
    rewrite lookup_insert_ne by congruence.
    now rewrite lookup_insert_ne by congruence.
Qed.

Lemma store_value
    (tbl : gmap (Z * Z * Z * Z * Z * Z * Z) (gmap string Q)) key row action v :
  tbl !! key = Some row ->
  value_of (<[key := <[action := v]> row]> tbl) key action = v
  /\ forall k b, (k, b) <> (key, action) ->
       value_of (<[key := <[action := v]> row]> tbl) k b = value_of tbl k b.
Proof.
  intros Hr. unfold value_of. split.
  - now rewrite !lookup_insert_eq.
  - intros k b Hne. destruct (decide (k = key)) as [->|Hk].
    + rewrite lookup_insert_eq, Hr.
      rewrite lookup_insert_ne by congruence. reflexivity.
    + now rewrite lookup_insert_ne by congruence.
Qed.

(** X27: a successful [update] changes the value of the one entry for
    the state and the action, by the learning rule towards
    [reward + discount * max_next_q], and no other value of the table;
    [max_next_q] is 0 for a terminal transition and otherwise the
    largest value stored for the next state (0 for an empty row).  The
    update is counted, and the exploration rate is not touched.  The
    key of the next state is computed even for a terminal transition,
    so the call needs it. *)
Theorem update_changes_one_entry (a a' : QLearningAgent.t)
    (state next_state : StateDict.t) (action : string) (reward : Q)
    (done : bool) (key : Z * Z * Z * Z * Z * Z * Z)
    (Hkey : get_state_key state = Some key)
    (Hcall : update a state action reward next_state done = Some a') :
  (exists next_key,
      get_state_key next_state = Some next_key
      /\ value_of (q_table a') key action
         = (let current_q := value_of (q_table a) key action in
            let max_next_q :=
              if done then 0
              else max_value
                     (default ∅ (snd (touch (q_table a) key action)
                                   !! next_key)) in
            current_q
            + learning_rate a
              * (reward + discount_factor a * max_next_q - current_q))
      /\ (next_key <> key ->
          snd (touch (q_table a) key action) !! next_key
          = q_table a !! next_key))
  /\ (forall k b, (k, b) <> (key, action) ->
        value_of (q_table a') k b = value_of (q_table a) k b)
  /\ total_updates a' = (total_updates a + 1)%Z
  /\ (epsilon a', learning_rate a', discount_factor a', actions a')
     = (epsilon a, learning_rate a, discount_factor a, actions a).
Proof.
  unfold update in Hcall. rewrite Hkey in Hcall. cbn in Hcall.
  destruct (get_state_key next_state) as [next_key|];
    [cbn in Hcall|discriminate].
  destruct (touch_value (q_table a) key action) as [Hq Hv1].
  pose proof (touch_keeps_row (q_table a) key action next_key) as Hrow.
  destruct (touch (q_table a) key action) as [current_q tbl1].
  cbn [fst snd] in Hq, Hv1, Hrow. subst current_q.
  set (max_next_q := if done then 0
                     else max_value (default ∅ (tbl1 !! next_key))).
  assert (Hnext : exists tbl2,
            (if done then (0, tbl1)
             else let '(next_q_values, tbl) := touch_row tbl1 next_key in
                  (max_value next_q_values, tbl))
            = (max_next_q, tbl2)
            /\ forall k b, value_of tbl2 k b = value_of tbl1 k b).
  { unfold max_next_q. destruct done; [eauto|].
    destruct (touch_row_spec tbl1 next_key) as (Hf & _ & Hv).
    destruct (touch_row tbl1 next_key) as [next_q_values tbl].
    cbn [fst snd] in Hf, Hv. subst next_q_values. eauto. }
  destruct Hnext as (tbl2 & Hn & Hv2). rewrite Hn in Hcall.
  destruct (touch_row_spec tbl2 key) as (_ & Hr3 & Hv3).
  destruct (touch_row tbl2 key) as [row tbl3]. cbn [fst snd] in Hr3, Hv3.
  injection Hcall as <-. cbn [q_table total_updates epsilon learning_rate
                               discount_factor actions].
  destruct (store_value tbl3 key row action
              (value_of (q_table a) key action
               + learning_rate a
                 * (reward + discount_factor a * max_next_q
                    - value_of (q_table a) key action)) Hr3)
    as [Hnew Hother].
  split.
  { exists next_key. split; [reflexivity|]. split; [exact Hnew|exact Hrow]. }
  split.
  { intros k b Hne. now rewrite (Hother k b Hne), Hv3, Hv2, Hv1. }
  split; reflexivity.
Qed.

Lemma update_changes_one_entry_witness :
  exists a',
    update (init ACTIONS) LogicEngine.test_state "HOVER" 10
      LogicEngine.test_state true = Some a'
    /\ total_updates a' = 1%Z.
Proof.
  destruct (update (init ACTIONS) LogicEngine.test_state "HOVER" 10
              LogicEngine.test_state true) as [a'|] eqn:E;
    [|vm_compute in E; discriminate E].
  exists a'. split; [reflexivity|].
  apply (update_changes_one_entry (init ACTIONS) a' LogicEngine.test_state
           LogicEngine.test_state "HOVER" 10 true (4, 1, 0, 1, 2, 0, 0)%Z
           eq_refl E).
Defined.

Lemma decay_epsilon_bounds a :
  0 <= epsilon_decay a <= 1 -> 0 <= epsilon_min a <= epsilon a ->
  epsilon_min a <= epsilon (decay_epsilon a) <= epsilon a.
Proof.
  intros [Hd0 Hd1] [Hm0 Hm]. unfold decay_epsilon. cbn [epsilon].
  assert (He : epsilon a * epsilon_decay a <= epsilon a).
  { assert (0 <= epsilon a * (1 - epsilon_decay a))
      by (apply Qmult_le_0_compat; lra).
    lra. }
  destruct (py_max_spec (epsilon_min a) (epsilon a * epsilon_decay a))
    as [[Hle ->]|[Hlt ->]]; lra.
Qed.

Lemma decay_epsilon_frame n a :
  epsilon_min (Nat.iter n decay_epsilon a) = epsilon_min a
  /\ epsilon_decay (Nat.iter n decay_epsilon a) = epsilon_decay a
  /\ q_table (Nat.iter n decay_epsilon a) = q_table a.
Proof.
  induction n as [|n IH]; [auto|].
  change (Nat.iter (S n) decay_epsilon a)
    with (decay_epsilon (Nat.iter n decay_epsilon a)).
  exact IH.
Qed.

(** X28: with a decay factor within 0..1 and a floor between 0 and the
    current exploration rate, any number of [decay_epsilon] calls keeps
    the rate between the floor and its starting value, each call
    lowering it or leaving it unchanged; the table is not touched. *)
Theorem epsilon_decays_to_floor (a : QLearningAgent.t) (n : nat)
    (Hdecay : 0 <= epsilon_decay a <= 1)
    (Hfloor : 0 <= epsilon_min a <= epsilon a) :
  epsilon_min a <= epsilon (Nat.iter n decay_epsilon a) <= epsilon a
  /\ epsilon (decay_epsilon (Nat.iter n decay_epsilon a))
     <= epsilon (Nat.iter n decay_epsilon a)
  /\ q_table (Nat.iter n decay_epsilon a) = q_table a.
Proof.
  assert (Hstep : forall m,
            epsilon_min a <= epsilon (Nat.iter m decay_epsilon a) ->
            epsilon_min a
            <= epsilon (decay_epsilon (Nat.iter m decay_epsilon a))
            <= epsilon (Nat.iter m decay_epsilon a)).
  { intros m Hm.
    destruct (decay_epsilon_frame m a) as (Hmin & Hdec & _).
    pose proof (decay_epsilon_bounds (Nat.iter m decay_epsilon a)) as H.
    rewrite Hmin, Hdec in H. apply H; [exact Hdecay|].
    split; [apply Hfloor|exact Hm]. }
  assert (Hn : forall m,
            epsilon_min a <= epsilon (Nat.iter m decay_epsilon a)
                          <= epsilon a).
  { destruct Hfloor as [Hf0 Hf1].
    induction m as [|m IH].
    { change (Nat.iter 0 decay_epsilon a) with a. split; lra. }
    change (Nat.iter (S m) decay_epsilon a)
      with (decay_epsilon (Nat.iter m decay_epsilon a)).
    destruct IH as [IH0 IH1]. destruct (Hstep m IH0) as [H0 H1].
    split; lra. }
  split; [apply Hn|]. split; [|apply decay_epsilon_frame].
  apply Hstep, Hn.
Qed.

Lemma epsilon_decays_to_floor_witness :
  EPSILON_END <= epsilon (Nat.iter 3 decay_epsilon (init ACTIONS))
  /\ epsilon (Nat.iter 3 decay_epsilon (init ACTIONS)) <= EPSILON_START.
Proof.
  apply (epsilon_decays_to_floor (init ACTIONS) 3).
  - split; apply Qle_bool_iff; vm_compute; reflexivity.
  - split; apply Qle_bool_iff; vm_compute; reflexivity.
Defined.
End AgentFacts.

(** ** The hybrid controller: the heuristic and the final vetting *)
Section ControllerMoreFacts.
Import Config HybridController LogicEngine.
Local Open Scope string_scope.

Lemma fold_left_pointwise {A B} (f g : A -> B -> A) (l : list B) (a : A) :
  (forall x y, f x y = g x y) -> fold_left f l a = fold_left g l a.
Proof.
  intros H. revert a. induction l as [|y l IH]; intros a; [reflexivity|].
  cbn. now rewrite H, IH.
Qed.

Lemma goal_scan state safe_actions :
  _get_goal_oriented_action state safe_actions
  = match StateDict.relative_target state with
    | None => None
    | Some rel =>
      let '(best_action, min_dist) :=
        fold_left (closer rel) safe_actions (None, None) in
      match min_dist with
      | Some m =>
        if Qlt_bool m (current_distance rel) then best_action else None
      | None => None
      end
    end.
Proof.
  unfold _get_goal_oriented_action.
  destruct (StateDict.relative_target state) as [[[dx dy] dz]|];
    [|reflexivity].
  match goal with
  | |- context [fold_left ?f safe_actions (None, None)] =>
    rewrite (fold_left_pointwise f (closer (dx, dy, dz)))
  end; [reflexivity|].
  intros acc action. unfold closer, distance_after.
  destruct (unit_delta action) as [[adx ady] adz]. reflexivity.
Qed.

Lemma fold_closer rel l b m :
  m = distance_after rel b ->
  exists b',
    fold_left (closer rel) l (Some b, Some m)
    = (Some b', Some (distance_after rel b'))
    /\ (b' = b \/ In b' l)
    /\ (distance_after rel b' <= m)%Q
    /\ forall a, In a l ->
                 (distance_after rel b' <= distance_after rel a)%Q.
Proof.
  revert b m. induction l as [|x l IH]; intros b m Hm.
  - exists b. subst m. cbn. repeat split; auto; [lra | intros a []].
  - cbn [fold_left]. unfold closer at 2. cbn [snd].
    destruct (Qlt_bool (distance_after rel x) m) eqn:E.
    + apply Qlt_bool_true in E.
      destruct (IH x (distance_after rel x) eq_refl)
        as (b' & Hf & Hin & Hle & Hall).
      exists b'. split; [exact Hf|].
      split; [right; destruct Hin as [->|Hin]; [now left | now right]|].
      split; [lra|].
      intros a [<-|Ha]; [exact Hle | now apply Hall].
    + apply Qlt_bool_false in E.
      destruct (IH b m Hm) as (b' & Hf & Hin & Hle & Hall).
      exists b'. split; [exact Hf|].
      split; [destruct Hin as [->|Hin]; [now left | right; now right]|].
      split; [exact Hle|].
      intros a [<-|Ha]; [lra | now apply Hall].
Qed.

(** X29: the goal-oriented heuristic returns one of the safe actions
    that brings the vehicle strictly closer to the target in Manhattan
    distance, and no safe action brings it closer than that one; it
    returns [None] exactly when no safe action reduces the distance, in
    particular when there is no safe action. *)
Theorem goal_oriented_action_is_closest (state : StateDict.t)
    (safe_actions : list string) (rel : Q * Q * Z)
    (Hrel : StateDict.relative_target state = Some rel) :
  match _get_goal_oriented_action state safe_actions with
  | Some best =>
    In best safe_actions
    /\ (distance_after rel best < current_distance rel)%Q
    /\ forall a, In a safe_actions ->
                 (distance_after rel best <= distance_after rel a)%Q
  | None =>
    forall a, In a safe_actions ->
              (current_distance rel <= distance_after rel a)%Q
  end.
Proof.
  rewrite goal_scan, Hrel.
  destruct safe_actions as [|a0 l]; [cbn; intros a []|].
  cbn [fold_left]. unfold closer at 2. cbn [snd].
  destruct (fold_closer rel l a0 _ eq_refl) as (b' & Hf & Hin & Hle & Hall).
  rewrite Hf.
  destruct (Qlt_bool (distance_after rel b') (current_distance rel)) eqn:E.
  - apply Qlt_bool_true in E.
    split; [destruct Hin as [->|Hin]; [now left | now right]|].
    split; [exact E|].
    intros a [<-|Ha]; [exact Hle | now apply Hall].
  - apply Qlt_bool_false in E.
    intros a [<-|Ha]; [lra|].
    specialize (Hall a Ha). lra.
Qed.

Lemma goal_oriented_action_is_closest_witness :
  match _get_goal_oriented_action test_state ["MOVE_NORTH"; "MOVE_EAST"] with
  | Some best => In best ["MOVE_NORTH"; "MOVE_EAST"]
  | None => False
  end.
Proof.
  pose proof (goal_oriented_action_is_closest test_state
                ["MOVE_NORTH"; "MOVE_EAST"] (10%Q, 10%Q, 0%Z) eq_refl) as H.
  destruct (_get_goal_oriented_action test_state
              ["MOVE_NORTH"; "MOVE_EAST"]) as [best|] eqn:E.
  - apply H.
  - vm_compute in E. discriminate E.
Defined.

(** The three-way branch reports an emergency only from its last arm. *)
Lemma decide_cases c state training triggered safe_actions
    act dtype qv override agent overrides :
  decide c state training triggered safe_actions
  = Some (act, dtype, qv, override, agent, overrides) ->
  (dtype = emergency -> act = "emergency_land" /\ safe_actions = [])
  /\ (safety_overrides c <= overrides <= safety_overrides c + 1)%Z.
Proof.
  unfold decide.
  destruct (filter _ triggered) as [|rule critical].
  - destruct safe_actions as [|s0 safe'].
    + intros [= <- <- <- <- <- <-]. split; [auto|lia].
    + destruct (QLearningAgent.get_best_action_greedy _ _ _)
        as [[best_q_action agent1]|]; [|discriminate].
      cbn [mbind option_bind].
      destruct (QLearningAgent.get_q_value agent1 state best_q_action)
        as [[q_val agent2]|]; [|discriminate].
      cbn [mbind option_bind].
      match goal with
      | |- context [let '(action, dtype) := ?X in _] =>
        assert (Hx : snd X <> emergency);
          [|destruct X as [action0 dtype0]]
      end.
      { destruct (_ || _); [|cbn; discriminate].
        destruct (_get_goal_oriented_action state (s0 :: safe'))
          as [best_move|]; [|cbn; discriminate].
        destruct (nonempty best_move); cbn; discriminate. }
      cbn [snd] in Hx.
      destruct (record_q_values agent2 state (s0 :: safe') ∅)
        as [[qv0 agent3]|]; [|discriminate].
      cbn [mbind option_bind].
      intros [= <- <- <- <- <- <-]. split; [congruence|lia].
  - intros [= <- <- <- <- <- <-]. split; [discriminate|lia].
Qed.

(** X30: whatever [choose_action] returns has been vetted: either
    [is_action_safe] accepts the returned action for the observation
    (the post-hoc veto replaces a rejected action by "wait", which is
    always accepted), or the decision is an emergency, the action is
    "emergency_land" and none of the controller's actions is accepted.
    The call counts one decision and at most two safety overrides, and
    leaves the rules and the action set alone. *)
Theorem chosen_action_is_vetted (c c' : HybridController.t)
    (state : StateDict.t) (training : bool) (act : string)
    (info : DecisionInfo)
    (Hcall : choose_action c state training = Some (act, info, c')) :
  (passes (logic_engine c) state act = true
   \/ (decision_type info = emergency /\ act = "emergency_land"
       /\ forall a, In a (actions c) ->
                    passes (logic_engine c) state a = false))
  /\ decisions_made c' = (decisions_made c + 1)%Z
  /\ (safety_overrides c <= safety_overrides c'
      <= safety_overrides c + 2)%Z
  /\ logic_engine c' = logic_engine c
  /\ actions c' = actions c.
Proof.
  unfold choose_action in Hcall.
  destruct (get_recommended_action (logic_engine c) state)
    as [recommended top].
  destruct (get_valid_actions (logic_engine c) state (actions c))
    as [safe_actions|] eqn:Ev; [|discriminate].
  cbn [mbind option_bind] in Hcall.
  destruct (decide c state training
              (get_triggered_rules (logic_engine c) state) safe_actions)
    as [[[[[[act0 dtype] qv] override] agent] overrides]|] eqn:Ed;
    [|discriminate].
  cbn [mbind option_bind] in Hcall.
  destruct (is_action_safe (logic_engine c) state act0)
    as [[is_safe violated]|] eqn:Es; [|discriminate].
  cbn [mbind option_bind] in Hcall.
  destruct (decide_cases _ _ _ _ _ _ _ _ _ _ _ Ed) as [Hem Hov].
  injection Hcall as <- <- <-.
  cbn [decisions_made safety_overrides logic_engine actions decision_type].
  split.
  - destruct is_safe.
    + left. cbn. unfold passes. now rewrite Es.
    + destruct dtype; cbn;
        try (left; unfold passes;
             now rewrite (wait_is_safe _ _ act0 ltac:(rewrite Es; eauto))).
      right. destruct (Hem eq_refl) as [-> ->].
      split; [reflexivity|]. split; [reflexivity|].
      intros a Ha.
      pose proof (get_valid_actions_passes _ _ _ _ Ev) as Hf.
      destruct (passes (logic_engine c) state a) eqn:Ep; [|reflexivity].
      assert (Hin : In a (List.filter (passes (logic_engine c) state)
                                      (actions c)))
        by (apply filter_In; auto).
      rewrite <- Hf in Hin. destruct Hin.
  - split; [reflexivity|]. split; [|auto].
    destruct (negb is_safe && _); lia.
Qed.

Lemma chosen_action_is_vetted_witness :
  exists act info c',
    choose_action (HybridController.init ACTIONS) critical_state true
    = Some (act, info, c')
    /\ decisions_made c' = 1%Z.
Proof.
  destruct (choose_action (HybridController.init ACTIONS) critical_state true)
    as [[[act info] c']|] eqn:E; [|vm_compute in E; discriminate E].
  exists act, info, c'. split; [reflexivity|].
  apply (chosen_action_is_vetted (HybridController.init ACTIONS) c'
           critical_state true act info E).
Defined.
End ControllerMoreFacts.
